(** * Load-testing client of the message server: model and properties

    The program under study is [main.py]: a thread-per-connection load
    generator.  Worker threads talk to a TCP server and account for what
    happened in four module-level counters guarded by [stats_lock]; a
    monitor thread prints the counters; a controller starts the threads.

    The development has two layers.
    - The counters and their lock are modelled by a small-step machine in
      which every thread executes [update_stats] and [print_progress] one
      bytecode-sized step at a time (acquire, load, store, release), under
      an arbitrary schedule.
    - The workers and the controllers are modelled in a state-and-exception
      monad that follows Python's control flow ([try]/[except], [return],
      [break], [for], [while]); the answers of the network, of the clock
      and of [random.choice] come from an environment, and every external
      call is recorded in a trace. *)

From Stdlib Require Import ZArith Lia.
From stdpp Require Import list strings pretty.

Open Scope Z_scope.

(* ================================================================== *)
(** * Part I: definitions *)
(* ================================================================== *)

(** ** The shared statistics *)

(** The four module-level counters of [main.py] (lines 24-27). *)
Record Stats := mkStats {
  total_sent : Z;
  total_received : Z;
  failed_connections : Z;
  failed_sends : Z
}.

(** Their values when the module is loaded. *)
Definition stats0 : Stats := mkStats 0 0 0 0.

(** The keyword arguments of one call of [update_stats]; each defaults
    to 0. *)
Record Delta := mkDelta {
  d_sent : Z;
  d_received : Z;
  d_failed_conn : Z;
  d_failed_send : Z
}.

(** [update_stats], read as one indivisible action: the body of the
    [with stats_lock:] block. *)
Definition update_stats (d : Delta) (s : Stats) : Stats :=
  mkStats (total_sent s + d_sent d)
          (total_received s + d_received d)
          (failed_connections s + d_failed_conn d)
          (failed_sends s + d_failed_send d).

(** The counters by name, in the order in which [update_stats] touches
    them. *)
Inductive field := F_sent | F_received | F_failed_conn | F_failed_send.

Definition get_field (f : field) (s : Stats) : Z :=
  match f with
  | F_sent => total_sent s
  | F_received => total_received s
  | F_failed_conn => failed_connections s
  | F_failed_send => failed_sends s
  end.

Definition set_field (f : field) (v : Z) (s : Stats) : Stats :=
  match f with
  | F_sent => mkStats v (total_received s) (failed_connections s) (failed_sends s)
  | F_received => mkStats (total_sent s) v (failed_connections s) (failed_sends s)
  | F_failed_conn => mkStats (total_sent s) (total_received s) v (failed_sends s)
  | F_failed_send => mkStats (total_sent s) (total_received s) (failed_connections s) v
  end.

Definition delta_field (f : field) (d : Delta) : Z :=
  match f with
  | F_sent => d_sent d
  | F_received => d_received d
  | F_failed_conn => d_failed_conn d
  | F_failed_send => d_failed_send d
  end.

Definition field_index (f : field) : nat :=
  match f with
  | F_sent => 0 | F_received => 1 | F_failed_conn => 2 | F_failed_send => 3
  end%nat.

(** ** The lock machine *)

(** What a thread does to the shared counters: calls of [update_stats]
    and of [print_progress]. *)
Inductive op :=
| OpUpdate (d : Delta)
| OpPrint.

(** Where a thread stands inside the call it is executing.
    [update_stats] is [with stats_lock:] around four statements
    [g += d], each a load of the global followed by a store;
    [print_progress] is [with stats_lock:] around the reading of the clock
    and the [print]. *)
Inductive pc :=
| AtAcquire
| AtLoad (f : field)
| AtStore (f : field) (tmp : Z)
| AtClock
| AtPrint
| AtRelease.

(** After the store to [f]: the next statement of [update_stats], or the
    end of the [with] block. *)
Definition after_store (f : field) : pc :=
  match f with
  | F_sent => AtLoad F_received
  | F_received => AtLoad F_failed_conn
  | F_failed_conn => AtLoad F_failed_send
  | F_failed_send => AtRelease
  end.

(** The first step inside the [with] block. *)
Definition entry (o : op) : pc :=
  match o with
  | OpUpdate _ => AtLoad F_sent
  | OpPrint => AtClock
  end.

Record thread := mkThread {
  code : list op;   (* the calls the thread makes, in program order *)
  ip : nat;         (* index of the call in progress *)
  pos : pc          (* position inside that call *)
}.

Record machine := mkMachine {
  lock : option nat;        (* [stats_lock]: the thread that holds it *)
  globals : Stats;
  threads : list thread;
  console : list Stats      (* the counter values shown by each [print] *)
}.

Definition set_thread (t : nat) (th : thread) (m : machine) : machine :=
  mkMachine (lock m) (globals m) (<[t:=th]> (threads m)) (console m).

(** One step of thread [t]; [None] when the thread does not exist, has
    finished, or waits for the lock. *)
Definition step (t : nat) (m : machine) : option machine :=
  match threads m !! t with
  | None => None
  | Some th =>
    match code th !! ip th, pos th with
    | None, _ => None
    | Some o, AtAcquire =>
        match lock m with
        | None =>
            Some (mkMachine (Some t) (globals m)
                    (<[t:=mkThread (code th) (ip th) (entry o)]> (threads m))
                    (console m))
        | Some _ => None
        end
    | Some (OpUpdate d), AtLoad f =>
        Some (set_thread t
                (mkThread (code th) (ip th) (AtStore f (get_field f (globals m)))) m)
    | Some (OpUpdate d), AtStore f tmp =>
        Some (mkMachine (lock m) (set_field f (tmp + delta_field f d) (globals m))
                (<[t:=mkThread (code th) (ip th) (after_store f)]> (threads m))
                (console m))
    | Some OpPrint, AtClock =>
        Some (set_thread t (mkThread (code th) (ip th) AtPrint) m)
    | Some OpPrint, AtPrint =>
        Some (mkMachine (lock m) (globals m)
                (<[t:=mkThread (code th) (ip th) AtRelease]> (threads m))
                (console m ++ [globals m]))
    | Some _, AtRelease =>
        Some (mkMachine None (globals m)
                (<[t:=mkThread (code th) (S (ip th)) AtAcquire]> (threads m))
                (console m))
    | Some _, _ => None
    end
  end.

(** A schedule names the thread that is given the processor at each
    instant; a thread that cannot move keeps waiting. *)
Fixpoint run (sched : list nat) (m : machine) : machine :=
  match sched with
  | [] => m
  | t :: sched' =>
      match step t m with
      | Some m' => run sched' m'
      | None => run sched' m
      end
  end.

(** For contrast: the same machine with [stats_lock] taken away, so that
    a thread enters its call whoever else is inside. *)
Definition step_unlocked (t : nat) (m : machine) : option machine :=
  match threads m !! t with
  | None => None
  | Some th =>
    match code th !! ip th, pos th with
    | Some o, AtAcquire =>
        Some (set_thread t (mkThread (code th) (ip th) (entry o)) m)
    | _, _ => step t m
    end
  end.

Fixpoint run_unlocked (sched : list nat) (m : machine) : machine :=
  match sched with
  | [] => m
  | t :: sched' =>
      match step_unlocked t m with
      | Some m' => run_unlocked sched' m'
      | None => run_unlocked sched' m
      end
  end.

Definition start_thread (c : list op) : thread := mkThread c 0 AtAcquire.

Definition init_machine (codes : list (list op)) : machine :=
  mkMachine None stats0 (map start_thread codes) [].

Definition finished (th : thread) : bool :=
  bool_decide (length (code th) <= ip th)%nat.

Definition all_done (m : machine) : bool := forallb finished (threads m).

(** Sums of deltas, field by field. *)
Definition op_delta (f : field) (o : op) : Z :=
  match o with
  | OpUpdate d => delta_field f d
  | OpPrint => 0
  end.

Fixpoint sumZ {A : Type} (g : A -> Z) (l : list A) : Z :=
  match l with
  | [] => 0
  | x :: l' => g x + sumZ g l'
  end.

Definition code_total (f : field) (c : list op) : Z := sumZ (op_delta f) c.

(** The sum of all deltas that the threads' programs apply to [f]. *)
Definition grand_total (f : field) (codes : list (list op)) : Z :=
  sumZ (code_total f) codes.

(** [s] is what the counters hold after some of the calls ran to their
    end and none of the others began: thread [i] completed its first
    [ks !! i] calls. *)
Definition whole_calls (codes : list (list op)) (s : Stats) : Prop :=
  exists ks : list nat,
    length ks = length codes /\
    forall f, get_field f s =
              sumZ (fun p => code_total f (take (fst p) (snd p))) (zip ks codes).

(** ** Configuration (lines 16-20 and 31-42) *)

Definition SERVER_HOST : string := "localhost".
Definition SERVER_PORT : Z := 9090.

Definition SAMPLE_MESSAGES : list string :=
  [ "Hello from client";
    "Testing message priority";
    "High load test in progress";
    "Concurrent connection test";
    "Message processing verification";
    "Queue stress test";
    "Thread safety validation";
    "Server capacity test";
    "Network throughput check";
    "End-to-end latency measurement" ].

(** The three globals that option 3 of the menu reassigns. *)
Record Config := mkConfig {
  TOTAL_MESSAGES : Z;
  NUM_CLIENTS : Z;
  MESSAGES_PER_CLIENT : Z
}.

(** [//] is floor division, as [Z.div]. *)
Definition default_config : Config := mkConfig 10000 100 (10000 / 100).

(** Option 3: [None] stands for the [ZeroDivisionError] of [// 0], which
    the [except ValueError] of the menu does not catch. *)
Definition custom_config (total num : Z) : option Config :=
  if num =? 0 then None else Some (mkConfig total num (total / num)).

(** ** Python control flow over an environment *)

(** The exceptions of the program: those that the socket calls raise,
    [ValueError], which [int] raises on an answer that is no integer, and
    [ZeroDivisionError].  All of them are subclasses of [Exception], and
    [socket.timeout] is the only one that the acknowledgment read singles
    out. *)
Inductive exn :=
| socket_timeout
| ConnectionRefusedError
| ConnectionResetError
| BrokenPipeError
| OSError
| ValueError
| ZeroDivisionError.

Definition is_socket_timeout (e : exn) : bool :=
  match e with socket_timeout => true | _ => false end.

(** [except Exception] catches every exception above. *)
Definition is_Exception (e : exn) : bool := true.

(** [except ValueError] catches [ValueError] only. *)
Definition is_ValueError (e : exn) : bool :=
  match e with ValueError => true | _ => false end.

(** How a block of statements ends. *)
Inductive completion (A : Type) :=
| Normal (a : A)
| Raise (e : exn)
| Return        (* a [return] statement was executed *)
| Break         (* a [break] statement was executed *)
| OutOfFuel.    (* the bound put on a [while] loop was reached *)
Arguments Normal {A} a.
Arguments Raise {A} e.
Arguments Return {A}.
Arguments Break {A}.
Arguments OutOfFuel {A}.

(** The answer of the outside world to a call. *)
Inductive answer (A : Type) :=
| Ok (a : A)
| Fails (e : exn).
Arguments Ok {A} a.
Arguments Fails {A} e.

(** The tuple put on the result queue:
    [(client_id, sent, received, failed_connection, failed_send)]. *)
Record WorkerResult := mkResult {
  r_client_id : nat;
  r_sent : Z;
  r_received : Z;
  r_failed_connection : Z;
  r_failed_send : Z
}.

Inductive target := T_client_worker | T_sustained_client_worker | T_monitor_progress.

(** The calls that leave a thread, in the order in which it makes them.
    Durations are in milliseconds.  [EvReport] is the final report of a
    run, printed in full; [EvReportCut line] is a report of which only the
    lines above the source line [line] were printed, the expression of that
    line having raised.  [EvInput prompt] is a call of [input], which writes
    its prompt. *)
Inductive event :=
| EvSocket
| EvSetTimeout (ms : Z)
| EvConnect (host : string) (port : Z)
| EvSendall (data : string)
| EvRecv (bufsize : Z)
| EvClose
| EvSleep (ms : Z)
| EvClock
| EvUpdate (d : Delta)
| EvPut (r : WorkerResult)
| EvPrint (text : string)
| EvPrintProgress
| EvSpawn (tg : target) (client_id : nat) (arg : Z)
| EvJoin (n : nat)
| EvReport
| EvReportCut (line : Z)
| EvInput (prompt : string).

(** What the outside world answers to one thread: the [k]-th call of
    [sendall], of [recv], of [random.choice] and of [time.time] is answered
    by the function at [k], and so is the [k]-th evaluation of
    [any(t.is_alive() for t in threads)]; a thread opens one socket.
    Clock readings are in milliseconds.  [env_str e] is [str(e)], the text
    that the operating system and the socket library give to the exception
    [e] that a call raises, such as [[Errno 111] Connection refused]. *)
Record env := mkEnv {
  env_socket : answer unit;
  env_connect : answer unit;
  env_send : nat -> answer unit;
  env_recv : nat -> answer string;
  env_close : answer unit;
  env_choice : nat -> nat;
  env_clock : nat -> Z;
  env_alive : nat -> bool;
  env_str : exn -> string
}.

(** The local variables of a worker. *)
Record Locals := mkLocals {
  sent : Z;
  received : Z;
  failed_send : Z
}.

(** A thread's state: its locals, the number of calls made so far of each
    kind, and the trace. *)
Record wstate := mkW {
  locals : Locals;
  n_send : nat;
  n_recv : nat;
  n_choice : nat;
  n_clock : nat;
  n_alive : nat;
  trace : list event
}.

Definition w0 : wstate := mkW (mkLocals 0 0 0) 0 0 0 0 0 [].

Definition M (A : Type) : Type := wstate -> wstate * completion A.

#[global] Instance M_ret : MRet M := fun A a s => (s, Normal a).

#[global] Instance M_bind : MBind M := fun A B k c s =>
  match c s with
  | (s', Normal a) => k a s'
  | (s', Raise e) => (s', Raise e)
  | (s', Return) => (s', Return)
  | (s', Break) => (s', Break)
  | (s', OutOfFuel) => (s', OutOfFuel)
  end.

Definition log (e : event) (s : wstate) : wstate :=
  mkW (locals s) (n_send s) (n_recv s) (n_choice s) (n_clock s) (n_alive s) (trace s ++ [e]).

Definition emit (e : event) : M unit := fun s => (log e s, Normal tt).

Definition of_answer {A} (a : answer A) (s : wstate) : wstate * completion A :=
  match a with
  | Ok v => (s, Normal v)
  | Fails e => (s, Raise e)
  end.

Definition set_locals (l : Locals) : M unit := fun s =>
  (mkW l (n_send s) (n_recv s) (n_choice s) (n_clock s) (n_alive s) (trace s), Normal tt).

Definition get_locals : M Locals := fun s => (s, Normal (locals s)).

Definition raise {A} (e : exn) : M A := fun s => (s, Raise e).

Definition do_return {A} : M A := fun s => (s, Return).
Definition do_break {A} : M A := fun s => (s, Break).

(** [try: body except <catches> as e: handler e]. *)
Definition try_except {A} (body : M A) (catches : exn -> bool)
    (handler : exn -> M A) : M A := fun s =>
  match body s with
  | (s', Raise e) => if catches e then handler e s' else (s', Raise e)
  | r => r
  end.

(** [for i in l: body i]. *)
Fixpoint for_each (l : list nat) (body : nat -> M unit) : M unit :=
  match l with
  | [] => mret tt
  | i :: l' => fun s =>
      match body i s with
      | (s', Normal _) => for_each l' body s'
      | (s', Break) => (s', Normal tt)
      | r => r
      end
  end.

(** [range(n)]; empty when [n <= 0]. *)
Definition range (n : Z) : list nat := seq 0 (Z.to_nat n).

(** [while cond: body], cut after [fuel] tests of the condition. *)
Fixpoint while_loop (fuel : nat) (cond : M bool) (body : M unit) : M unit :=
  match fuel with
  | O => fun s => (s, OutOfFuel)
  | S fuel' => fun s =>
      match cond s with
      | (s1, Normal true) =>
          match body s1 with
          | (s2, Normal _) => while_loop fuel' cond body s2
          | (s2, Break) => (s2, Normal tt)
          | r => r
          end
      | (s1, Normal false) => (s1, Normal tt)
      | (s1, Raise e) => (s1, Raise e)
      | (s1, Return) => (s1, Return)
      | (s1, Break) => (s1, Break)
      | (s1, OutOfFuel) => (s1, OutOfFuel)
      end
  end.

(** A function body: [return] ends it normally. *)
Definition def {A} (body : M A) : wstate -> wstate * completion unit := fun s =>
  match body s with
  | (s', Normal _) => (s', Normal tt)
  | (s', Return) => (s', Normal tt)
  | (s', Raise e) => (s', Raise e)
  | (s', Break) => (s', Break)
  | (s', OutOfFuel) => (s', OutOfFuel)
  end.

Definition nl : string := String (Ascii.ascii_of_nat 10) "".

Section Calls.
Context (E : env).

Definition socket_socket : M unit := fun s =>
  of_answer (env_socket E) (log EvSocket s).

Definition settimeout (ms : Z) : M unit := emit (EvSetTimeout ms).

Definition connect (host : string) (port : Z) : M unit := fun s =>
  of_answer (env_connect E) (log (EvConnect host port) s).

Definition sendall (data : string) : M unit := fun s =>
  of_answer (env_send E (n_send s))
    (mkW (locals s) (S (n_send s)) (n_recv s) (n_choice s) (n_clock s)
         (n_alive s) (trace s ++ [EvSendall data])).

Definition recv (bufsize : Z) : M string := fun s =>
  of_answer (env_recv E (n_recv s))
    (mkW (locals s) (n_send s) (S (n_recv s)) (n_choice s) (n_clock s)
         (n_alive s) (trace s ++ [EvRecv bufsize])).

Definition close : M unit := fun s =>
  of_answer (env_close E) (log EvClose s).

Definition sleep (ms : Z) : M unit := emit (EvSleep ms).

Definition print (text : string) : M unit := emit (EvPrint text).

(** [random.choice(SAMPLE_MESSAGES)]. *)
Definition choice_at (k : nat) : string :=
  nth (Nat.modulo (env_choice E k) (length SAMPLE_MESSAGES)) SAMPLE_MESSAGES "".

Definition random_choice : M string := fun s =>
  (mkW (locals s) (n_send s) (n_recv s) (S (n_choice s)) (n_clock s) (n_alive s) (trace s),
   Normal (choice_at (n_choice s))).

(** [time.time()]. *)
Definition time_time : M Z := fun s =>
  (mkW (locals s) (n_send s) (n_recv s) (n_choice s) (S (n_clock s))
       (n_alive s) (trace s ++ [EvClock]),
   Normal (env_clock E (n_clock s))).

(** A call of [update_stats] from a thread; what it does to the counters
    is the business of the lock machine. *)
Definition call_update_stats (d : Delta) : M unit := emit (EvUpdate d).

Definition result_queue_put (r : WorkerResult) : M unit := emit (EvPut r).

(** ** The burst worker (lines 64-117) *)

(** Lines 95-103: the acknowledgment read. *)
Definition read_ack : M unit :=
  try_except
    (settimeout 500 ;;
     response ← recv 1024;
     if bool_decide (response = "") then mret tt
     else
       l ← get_locals;
       set_locals (mkLocals (sent l) (received l + 1) (failed_send l)) ;;
       call_update_stats (mkDelta 0 1 0 0))
    is_socket_timeout
    (fun _ => mret tt).

(** Lines 87-110: the body of the [for] loop. *)
Definition burst_frame (client_id i : nat) (message : string) : string :=
  "[Client-" +:+ pretty client_id +:+ "][Msg-" +:+ pretty i +:+ "] "
    +:+ message +:+ nl.

Definition burst_iteration (client_id : nat) (i : nat) : M unit :=
  message ← random_choice;
  let message_with_id := burst_frame client_id i message in
  try_except
    (sendall message_with_id ;;
     l ← get_locals;
     set_locals (mkLocals (sent l + 1) (received l) (failed_send l)) ;;
     call_update_stats (mkDelta 1 0 0 0) ;;
     read_ack ;;
     sleep 1)
    is_Exception
    (fun _ =>
       l ← get_locals;
       set_locals (mkLocals (sent l) (received l) (failed_send l + 1)) ;;
       call_update_stats (mkDelta 0 0 0 1)).

Definition client_worker (client_id : nat) (messages_to_send : Z)
    : wstate -> wstate * completion unit :=
  def (
    set_locals (mkLocals 0 0 0) ;;
    try_except
      (socket_socket ;;
       settimeout 10000 ;;
       try_except
         (connect SERVER_HOST SERVER_PORT)
         is_Exception
         (fun _ =>
            call_update_stats (mkDelta 0 0 1 0) ;;
            result_queue_put (mkResult client_id 0 0 1 0) ;;
            do_return) ;;
       for_each (range messages_to_send) (burst_iteration client_id) ;;
       close)
      is_Exception
      (fun e =>
         print (nl +:+ "Client " +:+ pretty client_id +:+ " error: " +:+ env_str E e)) ;;
    l ← get_locals;
    result_queue_put (mkResult client_id (sent l) (received l) 0 (failed_send l))).

(** ** The sustained worker (lines 245-273) *)

(** [time.time() < end_time]. *)
Definition before_deadline (end_time : Z) : M bool :=
  now ← time_time; mret (bool_decide (now < end_time)).

(** Lines 256-268: the body of the [while] loop. *)
Definition sustained_frame (client_id : nat) (message : string) : string :=
  "[Client-" +:+ pretty client_id +:+ "] " +:+ message +:+ nl.

Definition sustained_iteration (client_id : nat) : M unit :=
  message ← random_choice;
  let message_with_id := sustained_frame client_id message in
  try_except
    (sendall message_with_id ;;
     l ← get_locals;
     set_locals (mkLocals (sent l + 1) (received l) (failed_send l)) ;;
     call_update_stats (mkDelta 1 0 0 0) ;;
     sleep 10)
    is_Exception
    (fun _ =>
       call_update_stats (mkDelta 0 0 0 1) ;;
       do_break).

Definition sustained_client_worker (fuel : nat) (client_id : nat) (end_time : Z)
    : wstate -> wstate * completion unit :=
  def (
    set_locals (mkLocals 0 0 0) ;;
    try_except
      (socket_socket ;;
       settimeout 10000 ;;
       connect SERVER_HOST SERVER_PORT ;;
       while_loop fuel (before_deadline end_time)
         (sustained_iteration client_id) ;;
       close)
      is_Exception
      (fun _ => call_update_stats (mkDelta 0 0 1 0))).

(** ** The monitor (lines 53-62 and 188-192) *)

(** A call of [print_progress]; the lock machine executes it. *)
Definition call_print_progress : M unit := emit EvPrintProgress.

Definition any_alive : M bool := fun s =>
  (mkW (locals s) (n_send s) (n_recv s) (n_choice s) (n_clock s)
       (S (n_alive s)) (trace s),
   Normal (env_alive E (n_alive s))).

Definition monitor_progress (fuel : nat) : wstate -> wstate * completion unit :=
  def (while_loop fuel any_alive (call_print_progress ;; sleep 500)).

(** ** The controllers (lines 119-186 and 194-243) *)

Definition rule : string := String.concat "" (replicate 70 "=").

(** The check mark U+2713 and the ballot cross U+2717 that open the two
    messages of the connectivity test, as [print] writes them in UTF-8. *)
Definition check_mark : string :=
  String (Ascii.ascii_of_nat 226)
    (String (Ascii.ascii_of_nat 156) (String (Ascii.ascii_of_nat 147) "")).
Definition ballot_cross : string :=
  String (Ascii.ascii_of_nat 226)
    (String (Ascii.ascii_of_nat 156) (String (Ascii.ascii_of_nat 151) "")).

Definition start_thread_for (tg : target) (arg : Z) (i : nat) : M unit :=
  emit (EvSpawn tg i arg).

(** Lines 132-143: the connectivity test. *)
Definition probe : M unit :=
  try_except
    (socket_socket ;;
     settimeout 5000 ;;
     connect SERVER_HOST SERVER_PORT ;;
     close ;;
     print (check_mark +:+ " Server is reachable"))
    is_Exception
    (fun e =>
       print (ballot_cross +:+ " Cannot connect to server: " +:+ env_str E e) ;;
       print "Make sure the server is running on port 9090" ;;
       do_return).

(** Lines 153-160: the client threads are created and started. *)
Definition launch_clients (cfg : Config) : M unit :=
  for_each (range (NUM_CLIENTS cfg))
    (fun i =>
       start_thread_for T_client_worker (MESSAGES_PER_CLIENT cfg) i ;;
       sleep 10).

(** [for t in threads: t.join()]. *)
Definition join_all (cfg : Config) : M unit :=
  for_each (range (NUM_CLIENTS cfg)) (fun i => emit (EvJoin i)).

(** Lines 174-186: the final report.  Its last two figures are quotients,
    by the duration (line 184) and by [TOTAL_MESSAGES] (line 185); a
    divisor that is 0 raises [ZeroDivisionError] before the line is printed,
    and nothing catches it. *)
Definition final_report (cfg : Config) (duration : Z) : M unit :=
  if bool_decide (duration = 0) then
    emit (EvReportCut 184) ;; raise ZeroDivisionError
  else if bool_decide (TOTAL_MESSAGES cfg = 0) then
    emit (EvReportCut 185) ;; raise ZeroDivisionError
  else emit EvReport.

Definition run_load_test (cfg : Config) : wstate -> wstate * completion unit :=
  def (
    print rule ;;
    print "Load Test Configuration:" ;;
    print ("  Server: " +:+ SERVER_HOST +:+ ":" +:+ pretty SERVER_PORT) ;;
    print ("  Total Messages: " +:+ pretty (TOTAL_MESSAGES cfg)) ;;
    print ("  Concurrent Clients: " +:+ pretty (NUM_CLIENTS cfg)) ;;
    print ("  Messages per Client: " +:+ pretty (MESSAGES_PER_CLIENT cfg)) ;;
    print rule ;;
    print "" ;;
    print "Testing server connectivity..." ;;
    probe ;;
    print (nl +:+ "Starting load test...") ;;
    start_time ← time_time;
    launch_clients cfg ;;
    start_thread_for T_monitor_progress 0 0 ;;
    join_all cfg ;;
    end_time ← time_time;
    final_report cfg (end_time - start_time)).

(** Lines 215-221. *)
Definition launch_sustained (cfg : Config) (end_time : Z) : M unit :=
  for_each (range (NUM_CLIENTS cfg))
    (start_thread_for T_sustained_client_worker end_time).

(** Lines 224-226. *)
Definition progress_loop (fuel : nat) (end_time : Z) : M unit :=
  while_loop fuel (before_deadline end_time)
    (call_print_progress ;; sleep 500).

(** Lines 194-243.  The rate of line 242 divides by the time elapsed
    since the first reading of the clock; the loop of lines 224-226 has by
    then seen the clock reach the deadline, and that time is taken not to
    be 0. *)
Definition run_sustained_load_test (fuel : nat) (cfg : Config)
    (duration_seconds : Z) : wstate -> wstate * completion unit :=
  def (
    print rule ;;
    print "Sustained Load Test Configuration:" ;;
    print ("  Server: " +:+ SERVER_HOST +:+ ":" +:+ pretty SERVER_PORT) ;;
    print ("  Duration: " +:+ pretty duration_seconds +:+ " seconds") ;;
    print ("  Concurrent Clients: " +:+ pretty (NUM_CLIENTS cfg)) ;;
    print rule ;;
    print (nl +:+ "Starting sustained load test...") ;;
    start_time ← time_time;
    let end_time := start_time + 1000 * duration_seconds in
    launch_sustained cfg end_time ;;
    progress_loop fuel end_time ;;
    join_all cfg ;;
    now ← time_time;
    emit EvReport).

End Calls.

(** ** Threads of a run *)

(** What a thread asks of the lock machine. *)
Definition trace_ops (tr : list event) : list op :=
  omap (fun e => match e with
                 | EvUpdate d => Some (OpUpdate d)
                 | EvPrintProgress => Some OpPrint
                 | _ => None
                 end) tr.

Definition thread_trace (body : wstate -> wstate * completion unit) : list event :=
  trace (fst (body w0)).

(** The program of the thread that an event of the controller starts;
    [envs i] is the world as client [i] meets it, [mon] as the monitor
    does. *)
Definition spawned (envs : nat -> env) (mon : env) (fuel : nat) (e : event)
    : option (list event) :=
  match e with
  | EvSpawn T_client_worker i n =>
      Some (thread_trace (client_worker (envs i) i n))
  | EvSpawn T_sustained_client_worker i end_time =>
      Some (thread_trace (sustained_client_worker (envs i) fuel i end_time))
  | EvSpawn T_monitor_progress _ _ =>
      Some (thread_trace (monitor_progress mon fuel))
  | _ => None
  end.

(** The threads that contend for [stats_lock] in a run whose controller
    left the trace [main]: the controller itself, then the threads it
    started. *)
Definition run_threads (envs : nat -> env) (mon : env) (fuel : nat)
    (main : list event) : list (list event) :=
  main :: omap (spawned envs mon fuel) main.

Definition run_machine (envs : nat -> env) (mon : env) (fuel : nat)
    (main : list event) : machine :=
  init_machine (map trace_ops (run_threads envs mon fuel main)).

(** The results that a trace puts on the queue. *)
Definition published (tr : list event) : list WorkerResult :=
  omap (fun e => match e with EvPut r => Some r | _ => None end) tr.

(** ** One iteration of the burst loop, in closed form *)

(** The five ways in which an iteration can go. *)
Inductive iter_kind :=
| SendFailed     (* [sendall] raised *)
| AckReceived    (* [recv] returned bytes *)
| AckEmpty       (* [recv] returned [b''] *)
| AckTimeout     (* [recv] raised [socket.timeout] *)
| AckError.      (* [recv] raised something else *)

(** Which way the iteration that starts in [s] goes. *)
Definition classify (E : env) (s : wstate) : iter_kind :=
  match env_send E (n_send s) with
  | Fails _ => SendFailed
  | Ok _ =>
      match env_recv E (n_recv s) with
      | Ok data => if bool_decide (data = "") then AckEmpty else AckReceived
      | Fails e => if is_socket_timeout e then AckTimeout else AckError
      end
  end.

Definition kind_locals (k : iter_kind) (l : Locals) : Locals :=
  match k with
  | SendFailed => mkLocals (sent l) (received l) (failed_send l + 1)
  | AckReceived => mkLocals (sent l + 1) (received l + 1) (failed_send l)
  | AckEmpty | AckTimeout => mkLocals (sent l + 1) (received l) (failed_send l)
  | AckError => mkLocals (sent l + 1) (received l) (failed_send l + 1)
  end.

(** What the iteration does after its call of [sendall]. *)
Definition kind_events (k : iter_kind) : list event :=
  match k with
  | SendFailed => [EvUpdate (mkDelta 0 0 0 1)]
  | AckReceived =>
      [EvUpdate (mkDelta 1 0 0 0); EvSetTimeout 500; EvRecv 1024;
       EvUpdate (mkDelta 0 1 0 0); EvSleep 1]
  | AckEmpty | AckTimeout =>
      [EvUpdate (mkDelta 1 0 0 0); EvSetTimeout 500; EvRecv 1024; EvSleep 1]
  | AckError =>
      [EvUpdate (mkDelta 1 0 0 0); EvSetTimeout 500; EvRecv 1024;
       EvUpdate (mkDelta 0 0 0 1)]
  end.

Definition kind_reads (k : iter_kind) : nat :=
  match k with SendFailed => 0 | _ => 1 end.

Definition iteration_events (E : env) (client_id i : nat) (s : wstate) : list event :=
  EvSendall (burst_frame client_id i (choice_at E (n_choice s)))
    :: kind_events (classify E s).

Definition after_iteration (E : env) (client_id i : nat) (s : wstate) : wstate :=
  mkW (kind_locals (classify E s) (locals s))
      (S (n_send s)) (kind_reads (classify E s) + n_recv s) (S (n_choice s))
      (n_clock s) (n_alive s)
      (trace s ++ iteration_events E client_id i s).

(** The whole loop: the iterations one after the other. *)
Fixpoint after_loop (E : env) (client_id : nat) (l : list nat) (s : wstate) : wstate :=
  match l with
  | [] => s
  | i :: l' => after_loop E client_id l' (after_iteration E client_id i s)
  end.

(** The state in which a worker that got its connection enters the loop. *)
Definition worker_start (s : wstate) : wstate :=
  mkW (mkLocals 0 0 0) (n_send s) (n_recv s) (n_choice s) (n_clock s) (n_alive s)
      (trace s ++ [EvSocket; EvSetTimeout 10000; EvConnect SERVER_HOST SERVER_PORT]).

(** The connection was established. *)
Definition connected (E : env) : Prop :=
  env_socket E = Ok tt /\ env_connect E = Ok tt.

(** Every [sendall] succeeds. *)
Definition writes_succeed (E : env) : Prop := forall k, env_send E k = Ok tt.

(** ** Observations on traces *)

Fixpoint count_ev (p : event -> bool) (tr : list event) : nat :=
  match tr with
  | [] => 0
  | e :: tr' => (if p e then 1 else 0) + count_ev p tr'
  end%nat.

Definition is_put (e : event) : bool :=
  match e with EvPut _ => true | _ => false end.
Definition is_sendall (e : event) : bool :=
  match e with EvSendall _ => true | _ => false end.
Definition is_recv (e : event) : bool :=
  match e with EvRecv _ => true | _ => false end.
Definition is_spawn (e : event) : bool :=
  match e with EvSpawn _ _ _ => true | _ => false end.
Definition is_connect (e : event) : bool :=
  match e with EvConnect _ _ => true | _ => false end.
Definition is_failure_update (e : event) : bool :=
  match e with
  | EvUpdate d => bool_decide (d_failed_conn d <> 0 \/ d_failed_send d <> 0)
  | _ => false
  end.

Definition result_field (f : field) (r : WorkerResult) : Z :=
  match f with
  | F_sent => r_sent r
  | F_received => r_received r
  | F_failed_conn => r_failed_connection r
  | F_failed_send => r_failed_send r
  end.

(** ** The controller of a burst run, in closed form *)

(** The connectivity test succeeds. *)
Definition probe_ok (E : env) : Prop :=
  env_socket E = Ok tt /\ env_connect E = Ok tt /\ env_close E = Ok tt.

(** The thread has made the calls [evs] since [s]. *)
Definition extend (s : wstate) (evs : list event) : wstate :=
  mkW (locals s) (n_send s) (n_recv s) (n_choice s) (n_clock s) (n_alive s)
      (trace s ++ evs).

Definition load_test_prelude (cfg : Config) : list event :=
  [EvPrint rule;
   EvPrint "Load Test Configuration:";
   EvPrint ("  Server: " +:+ SERVER_HOST +:+ ":" +:+ pretty SERVER_PORT);
   EvPrint ("  Total Messages: " +:+ pretty (TOTAL_MESSAGES cfg));
   EvPrint ("  Concurrent Clients: " +:+ pretty (NUM_CLIENTS cfg));
   EvPrint ("  Messages per Client: " +:+ pretty (MESSAGES_PER_CLIENT cfg));
   EvPrint rule;
   EvPrint "";
   EvPrint "Testing server connectivity..."].

Definition probe_events : list event :=
  [EvSocket; EvSetTimeout 5000; EvConnect SERVER_HOST SERVER_PORT; EvClose].

Definition probe_abort (E : env) (e : exn) : list event :=
  [EvPrint (ballot_cross +:+ " Cannot connect to server: " +:+ env_str E e);
   EvPrint "Make sure the server is running on port 9090"].

Definition client_spawns (cfg : Config) : list event :=
  flat_map (fun i => [EvSpawn T_client_worker i (MESSAGES_PER_CLIENT cfg); EvSleep 10])
           (range (NUM_CLIENTS cfg)).

Definition joins (cfg : Config) : list event := map EvJoin (range (NUM_CLIENTS cfg)).

(** The final report of a burst run is printed in full: the clock has
    advanced between its two readings and [TOTAL_MESSAGES] is not 0. *)
Definition report_ok (E : env) (cfg : Config) : Prop :=
  env_clock E 1 <> env_clock E 0 /\ TOTAL_MESSAGES cfg <> 0.

Definition report_event (E : env) (cfg : Config) : event :=
  if bool_decide (env_clock E 1 - env_clock E 0 = 0) then EvReportCut 184
  else if bool_decide (TOTAL_MESSAGES cfg = 0) then EvReportCut 185
  else EvReport.

(** What follows a successful connectivity test. *)
Definition load_test_body (E : env) (cfg : Config) : list event :=
  [EvPrint (check_mark +:+ " Server is reachable");
   EvPrint (nl +:+ "Starting load test..."); EvClock]
    ++ client_spawns cfg
    ++ [EvSpawn T_monitor_progress 0 0]
    ++ joins cfg
    ++ [EvClock; report_event E cfg].

Definition load_test_trace (E : env) (cfg : Config) : list event :=
  load_test_prelude cfg ++
  match env_socket E with
  | Fails e => EvSocket :: probe_abort E e
  | Ok _ =>
      match env_connect E with
      | Fails e =>
          [EvSocket; EvSetTimeout 5000; EvConnect SERVER_HOST SERVER_PORT]
            ++ probe_abort E e
      | Ok _ =>
          match env_close E with
          | Fails e => probe_events ++ probe_abort E e
          | Ok _ => probe_events ++ load_test_body E cfg
          end
      end
  end.

(** How a burst run ends: it returns when the connectivity test fails and
    when the report is printed in full; otherwise the exception of the
    report leaves it. *)
Definition load_test_completion (E : env) (cfg : Config) : completion unit :=
  match env_socket E, env_connect E, env_close E with
  | Ok _, Ok _, Ok _ =>
      match report_event E cfg with
      | EvReport => Normal tt
      | _ => Raise ZeroDivisionError
      end
  | _, _, _ => Normal tt
  end.

Definition is_socket (e : event) : bool :=
  match e with EvSocket => true | _ => false end.
Definition is_update (e : event) : bool :=
  match e with EvUpdate _ => true | _ => false end.

(** A test socket is opened before any thread is started. *)
Definition probes_before_launch (tr : list event) : Prop :=
  exists pre post,
    tr = pre ++ post /\ count_ev is_spawn pre = 0%nat /\
    (0 < count_ev is_socket pre)%nat.

(** No thread is started when the connectivity test fails. *)
Definition aborts_when_unreachable (E : env) (tr : list event) : Prop :=
  ~ probe_ok E -> count_ev is_spawn tr = 0%nat.

(** No thread ever stands at its [print] with the lock in hand. *)
Definition render_lock_free (codes : list (list op)) : Prop :=
  forall sched t th,
    threads (run sched (init_machine codes)) !! t = Some th ->
    pos th = AtPrint ->
    lock (run sched (init_machine codes)) <> Some t.

(** ** Invariant of the lock machine *)

#[global] Instance field_eq_dec : EqDecision field.
Proof. solve_decision. Defined.

Definition partial (f : field) (th : thread) : Z :=
  match code th !! ip th, pos th with
  | Some (OpUpdate d), AtLoad f' | Some (OpUpdate d), AtStore f' _ =>
      if (field_index f <? field_index f')%nat then delta_field f d else 0
  | Some (OpUpdate d), AtRelease => delta_field f d
  | _, _ => 0
  end.

Definition credited (f : field) (th : thread) : Z :=
  code_total f (take (ip th) (code th)) + partial f th.

Definition wf_thread (th : thread) : Prop :=
  match pos th with
  | AtAcquire => True
  | AtLoad _ | AtStore _ _ => exists d, code th !! ip th = Some (OpUpdate d)
  | AtClock | AtPrint => code th !! ip th = Some OpPrint
  | AtRelease => is_Some (code th !! ip th)
  end.

Record inv (m : machine) : Prop := mkInv {
  inv_excl : forall i th, threads m !! i = Some th -> pos th <> AtAcquire -> lock m = Some i;
  inv_lock : forall t, lock m = Some t ->
               exists th, threads m !! t = Some th /\ pos th <> AtAcquire;
  inv_wf : forall i th, threads m !! i = Some th -> wf_thread th;
  inv_tmp : forall i th f tmp, threads m !! i = Some th -> pos th = AtStore f tmp ->
               tmp = get_field f (globals m);
  inv_sum : forall f, get_field f (globals m) = sumZ (credited f) (threads m);
  inv_console : forall line, In line (console m) ->
               whole_calls (map code (threads m)) line
}.

#[global] Instance pc_eq_dec : EqDecision pc.
Proof. solve_decision. Defined.

(** Steps a call takes from the acquisition of the lock to its release. *)
Definition cost (o : op) : Z :=
  match o with OpUpdate _ => 10 | OpPrint => 4 end.

(** Steps left in the call in progress. *)
Definition rest (p : pc) (o : op) : Z :=
  match p with
  | AtAcquire => cost o
  | AtLoad f => 9 - 2 * Z.of_nat (field_index f)
  | AtStore f _ => 8 - 2 * Z.of_nat (field_index f)
  | AtClock => 3
  | AtPrint => 2
  | AtRelease => 1
  end.

Definition steps_left (th : thread) : Z :=
  match code th !! ip th with
  | None => 0
  | Some o => rest (pos th) o + sumZ cost (drop (S (ip th)) (code th))
  end.

Definition work (m : machine) : Z := sumZ steps_left (threads m).

(** A thread no longer matters to the counters when it has finished, or
    when all it ever does is print. *)
Definition is_print (o : op) : bool :=
  match o with OpPrint => true | OpUpdate _ => false end.

Definition settled (th : thread) : bool :=
  finished th || forallb is_print (code th).

(** Every worker has been joined. *)
Definition joined (m : machine) : bool := forallb settled (threads m).

(** The deltas of a program, and their application one call after the
    other. *)
Definition deltas_of (c : list op) : list Delta :=
  omap (fun o => match o with OpUpdate d => Some d | OpPrint => None end) c.

Definition apply_all (ds : list Delta) (s : Stats) : Stats :=
  fold_left (fun acc d => update_stats d acc) ds s.

(** The locals of a worker agree with the updates it has asked for. *)
Definition balanced (s : wstate) : Prop :=
  sent (locals s) = code_total F_sent (trace_ops (trace s)) /\
  received (locals s) = code_total F_received (trace_ops (trace s)) /\
  failed_send (locals s) = code_total F_failed_send (trace_ops (trace s)) /\
  code_total F_failed_conn (trace_ops (trace s)) = 0.

(** [c] makes no call that [p] selects. *)
Definition silent {A} (p : event -> bool) (c : M A) : Prop :=
  forall s, count_ev p (trace (fst (c s))) = count_ev p (trace s).

(** A thread body runs to its end and leaves exactly one result on the
    queue. *)
Definition publishes_exactly_one (body : wstate -> wstate * completion unit) : Prop :=
  snd (body w0) = Normal tt /\ length (published (thread_trace body)) = 1%nat.

(** The part of [f] in the updates of client [i]. *)
Definition worker_total (envs : nat -> env) (n : Z) (f : field) (i : nat) : Z :=
  code_total f (trace_ops (thread_trace (client_worker (envs i) i n))).

(** ** Sample worlds *)

(** [str(e)] as CPython gives it on Linux: the text of [socket.timeout] is
    fixed by the library, that of an [OSError] is made of the error number
    and of its description by the operating system. *)
Definition linux_str (e : exn) : string :=
  match e with
  | socket_timeout => "timed out"
  | ConnectionRefusedError => "[Errno 111] Connection refused"
  | ConnectionResetError => "[Errno 104] Connection reset by peer"
  | BrokenPipeError => "[Errno 32] Broken pipe"
  | OSError => "[Errno 24] Too many open files"
  | ValueError => "invalid literal for int() with base 10"
  | ZeroDivisionError => "division by zero"
  end.

(** A server that accepts everything and acknowledges every message; the
    clock advances by 10 ms at each reading; the monitor finds a thread
    alive once. *)
Definition env_server_up : env :=
  mkEnv (Ok tt) (Ok tt) (fun _ => Ok tt) (fun _ => Ok "ACK") (Ok tt)
        (fun k => k) (fun k => 10 * Z.of_nat k)
        (fun k => match k with O => true | _ => false end) linux_str.

(** No server listens. *)
Definition env_server_down : env :=
  mkEnv (Ok tt) (Fails ConnectionRefusedError) (fun _ => Ok tt) (fun _ => Ok "ACK")
        (Ok tt) (fun k => k) (fun k => 100000 * Z.of_nat k) (fun _ => false) linux_str.

(** A server that accepts the messages and never answers. *)
Definition env_server_mute : env :=
  mkEnv (Ok tt) (Ok tt) (fun _ => Ok tt) (fun _ => Fails socket_timeout) (Ok tt)
        (fun k => k) (fun k => 10 * Z.of_nat k) (fun _ => false) linux_str.

(** A server that resets the connection when the client reads. *)
Definition env_reset_on_read : env :=
  mkEnv (Ok tt) (Ok tt) (fun _ => Ok tt) (fun _ => Fails ConnectionResetError) (Ok tt)
        (fun k => k) (fun k => 10 * Z.of_nat k) (fun _ => false) linux_str.

(** A connection on which the first write fails. *)
Definition env_first_write_fails : env :=
  mkEnv (Ok tt) (Ok tt)
        (fun k => match k with O => Fails BrokenPipeError | _ => Ok tt end)
        (fun _ => Ok "ACK") (Ok tt)
        (fun k => k) (fun k => 10 * Z.of_nat k) (fun _ => false) linux_str.

(** ** Sample runs *)

(** Three threads: two that update the counters, one that prints them. *)
Definition sample_codes : list (list op) :=
  [[OpUpdate (mkDelta 1 0 0 0); OpUpdate (mkDelta 0 1 0 0)];
   [OpUpdate (mkDelta 1 0 0 1)];
   [OpPrint]].

(** The three threads take turns; a thread that waits loses its turn. *)
Definition round_robin : list nat := concat (replicate 40 [0; 1; 2]%nat).

(** A burst run of two clients and five messages: the controller is
    thread 0, the clients are threads 1 and 2, the monitor is thread 3. *)
Definition sample_run : machine :=
  run_machine (fun _ => env_server_up) env_server_up 2
    (thread_trace (run_load_test env_server_up (mkConfig 5 2 (5 / 2)))).

(** Client 1 runs to its end, then client 2 and the monitor alternate. *)
Definition sample_schedule : list nat :=
  replicate 40 1%nat ++ concat (replicate 50 [2; 3]%nat).

(** ** Further notions *)

(** A call that takes nothing away from any counter. *)
Definition nonneg_op (o : op) : Prop := forall f, 0 <= op_delta f o.

Definition nonneg_codes (codes : list (list op)) : Prop :=
  Forall (Forall nonneg_op) codes.

(** Counter by counter, [a] shows no more than [b]. *)
Definition stats_le (a b : Stats) : Prop :=
  forall f, get_field f a <= get_field f b.

(** The thread is inside a [with stats_lock:] block. *)
Definition inside (th : thread) : Prop := pos th <> AtAcquire.

(** An update that would take something away from a counter. *)
Definition is_negative_update (e : event) : bool :=
  match e with
  | EvUpdate d =>
      (d_sent d <? 0) || (d_received d <? 0) || (d_failed_conn d <? 0)
      || (d_failed_send d <? 0)
  | _ => false
  end.

(** The data that a trace hands to [sendall], in order. *)
Definition sent_data (tr : list event) : list string :=
  omap (fun e => match e with EvSendall d => Some d | _ => None end) tr.

Definition is_close (e : event) : bool :=
  match e with EvClose => true | _ => false end.

(** A server that accepts everything, and a socket whose [close] fails. *)
Definition env_close_fails : env :=
  mkEnv (Ok tt) (Ok tt) (fun _ => Ok tt) (fun _ => Ok "ACK") (Fails OSError)
        (fun k => k) (fun k => 10 * Z.of_nat k) (fun _ => false) linux_str.

(** The threads that a trace starts, with their arguments, and the
    threads it joins, in order. *)
Definition spawn_args (tr : list event) : list (target * nat * Z) :=
  omap (fun e => match e with EvSpawn tg i a => Some (tg, i, a) | _ => None end) tr.

Definition joined_ids (tr : list event) : list nat :=
  omap (fun e => match e with EvJoin i => Some i | _ => None end) tr.

(** An update that touches [total_received]. *)
Definition is_received_update (e : event) : bool :=
  match e with
  | EvUpdate d => negb (d_received d =? 0)
  | _ => false
  end.

(** The start of a thread that is not a sustained worker. *)
Definition is_foreign_spawn (e : event) : bool :=
  match e with
  | EvSpawn T_sustained_client_worker _ _ => false
  | EvSpawn _ _ _ => true
  | _ => false
  end.



(** Reading the calls of a thread in order, with [credit] messages sent
    and not yet acknowledged to start with: no call acknowledges a message
    that was not sent before. *)
Fixpoint acks_covered (credit : Z) (c : list op) : Prop :=
  match c with
  | [] => True
  | o :: c' =>
      0 <= credit + op_delta F_sent o - op_delta F_received o /\
      acks_covered (credit + op_delta F_sent o - op_delta F_received o) c'
  end.

(** The socket was created and the connection was refused. *)
Definition refused (E : env) : bool :=
  match env_socket E, env_connect E with
  | Ok _, Fails _ => true
  | _, _ => false
  end.

(** How many of the clients [l] have their connection refused. *)
Definition count_refused (envs : nat -> env) (l : list nat) : Z :=
  sumZ (fun i => if refused (envs i) then 1 else 0) l.

(** ** The menu (lines 275-299) *)

Definition menu_header : list event :=
  [EvPrint (nl +:+ "Server Load Testing Tool");
   EvPrint (String.concat "" (replicate 70 "-"));
   EvPrint "Options:";
   EvPrint "  1. Send 10,000 messages (burst test)";
   EvPrint "  2. Sustained load test (60 seconds)";
   EvPrint "  3. Custom configuration"].

(** [input(prompt)]: the prompt is written, and the user gives [answer]. *)
Definition input {A} (prompt : string) (answer : A) : M A :=
  emit (EvInput prompt) ;; mret answer.

(** [int(x)], where [x] is what [int] makes of the answer: [None] stands
    for an answer that is no integer, on which [int] raises [ValueError]. *)
Definition int (x : option Z) : M Z :=
  match x with
  | Some n => mret n
  | None => raise ValueError
  end.

(** [a // b]. *)
Definition floor_div (a b : Z) : M Z :=
  if bool_decide (b = 0) then raise ZeroDivisionError else mret (a / b).

(** The program.  [choice] is the answer to the first prompt, stripped;
    [total_in] and [num_in] are the answers to the prompts of option 3, as
    [int] reads them.  An exception that leaves [main] ends the program. *)
Definition main (E : env) (fuel : nat) (choice : string)
    (total_in num_in : option Z) : M unit :=
  print (nl +:+ "Server Load Testing Tool") ;;
  print (String.concat "" (replicate 70 "-")) ;;
  print "Options:" ;;
  print "  1. Send 10,000 messages (burst test)" ;;
  print "  2. Sustained load test (60 seconds)" ;;
  print "  3. Custom configuration" ;;
  choice ← input (nl +:+ "Select option (1-3): ") choice;
  if bool_decide (choice = "1") then run_load_test E default_config
  else if bool_decide (choice = "2") then
    run_sustained_load_test E fuel default_config 60
  else if bool_decide (choice = "3") then
    try_except
      (total ← input "Total messages: " total_in ≫= int;
       num ← input "Number of concurrent clients: " num_in ≫= int;
       per ← floor_div total num;
       run_load_test E (mkConfig total num per))
      is_ValueError
      (fun _ => print "Invalid input!")
  else
    print "Running default burst test..." ;;
    run_load_test E default_config.

(** What has been written when the answer to the menu is read. *)
Definition menu_events : list event :=
  menu_header ++ [EvInput (nl +:+ "Select option (1-3): ")].

(* ================================================================== *)
(** * Part II: properties *)
(* ================================================================== *)

(** ** The lock machine *)

Lemma sumZ_app {A} (g : A -> Z) l1 l2 : sumZ g (l1 ++ l2) = sumZ g l1 + sumZ g l2.
Proof. induction l1 as [|x l1 IH]; simpl; [|rewrite IH]; lia. Qed.

Lemma sumZ_insert {A} (g : A -> Z) (l : list A) i x y :
  l !! i = Some x -> sumZ g (<[i:=y]> l) = sumZ g l - g x + g y.
Proof.
  intros H. pose proof (lookup_lt_Some _ _ _ H) as Hlt.
  rewrite insert_take_drop by exact Hlt.
  pose proof (f_equal (sumZ g) (take_drop_middle l i x H)) as E.
  rewrite sumZ_app in E. rewrite sumZ_app. simpl in *. lia.
Qed.

Lemma sumZ_ext {A} (g h : A -> Z) l : (forall x, In x l -> g x = h x) -> sumZ g l = sumZ h l.
Proof.
  induction l as [|x l IH]; simpl; intros H; [reflexivity|].
  rewrite H by auto. rewrite IH; auto.
Qed.

Lemma code_total_take_S f c k o :
  c !! k = Some o -> code_total f (take (S k) c) = code_total f (take k c) + op_delta f o.
Proof.
  intros H. unfold code_total. rewrite (take_S_r _ _ _ H), sumZ_app. simpl. lia.
Qed.

Lemma get_set_field f f' v s :
  get_field f (set_field f' v s) = if decide (f = f') then v else get_field f s.
Proof. destruct f, f'; reflexivity. Qed.

Lemma map_code_insert (ths : list thread) t th th' :
  ths !! t = Some th -> code th' = code th -> map code (<[t:=th']> ths) = map code ths.
Proof.
  intros H E. rewrite list_fmap_insert. rewrite E.
  apply list_insert_id. rewrite list_lookup_fmap, H. reflexivity.
Qed.

Lemma inv_init codes : inv (init_machine codes).
Proof.
  split; simpl.
  - intros i th H. rewrite list_lookup_fmap in H.
    destruct (codes !! i); simplify_eq/=. congruence.
  - discriminate.
  - intros i th H. rewrite list_lookup_fmap in H.
    destruct (codes !! i); simplify_eq/=. exact I.
  - intros i th f tmp H. rewrite list_lookup_fmap in H.
    destruct (codes !! i); simplify_eq/=. discriminate.
  - intros f. induction codes as [|c cs IH]; simpl.
    + destruct f; reflexivity.
    + rewrite <- IH. unfold credited, partial; simpl.
      destruct (c !! 0%nat) as [[]|]; destruct f; reflexivity.
  - tauto.
Qed.

Lemma whole_calls_ips (ths : list thread) (s : Stats) :
  (forall f, get_field f s = sumZ (fun th => code_total f (take (ip th) (code th))) ths) ->
  whole_calls (map code ths) s.
Proof.
  intros H. exists (map ip ths). split.
  - rewrite !length_map. reflexivity.
  - intros f. rewrite H. clear H. induction ths as [|th ths IH]; simpl; [reflexivity|].
    rewrite IH. reflexivity.
Qed.

Lemma others_idle m t :
  inv m -> (lock m = None \/ lock m = Some t) ->
  forall i thi, i <> t -> threads m !! i = Some thi -> pos thi = AtAcquire.
Proof.
  intros Hinv Hen i thi Hne Hi.
  destruct (decide (pos thi = AtAcquire)) as [|Hn]; [assumption|].
  pose proof (inv_excl m Hinv i thi Hi Hn) as E.
  destruct Hen as [E'|E']; rewrite E' in E; congruence.
Qed.

Lemma inv_rebuild m t th th' L G C :
  inv m ->
  threads m !! t = Some th ->
  (lock m = None \/ lock m = Some t) ->
  code th' = code th ->
  L = (if decide (pos th' = AtAcquire) then None else Some t) ->
  wf_thread th' ->
  (forall f tmp, pos th' = AtStore f tmp -> tmp = get_field f G) ->
  (forall f, get_field f G = get_field f (globals m) - credited f th + credited f th') ->
  (forall line, In line C -> whole_calls (map code (threads m)) line) ->
  inv (mkMachine L G (<[t:=th']> (threads m)) C).
Proof.
  intros Hinv Ht Hen Hcode HL Hwf Htmp Hsum Hcon.
  pose proof (lookup_lt_Some _ _ _ Ht) as Hlt.
  pose proof (others_idle m t Hinv Hen) as Hidle.
  split; simpl.
  - intros i thi Hi Hn. destruct (decide (i = t)) as [->|Hne].
    + rewrite list_lookup_insert_eq in Hi by exact Hlt. simplify_eq.
      destruct (decide (pos thi = AtAcquire)); [contradiction|reflexivity].
    + rewrite list_lookup_insert_ne in Hi by congruence.
      specialize (Hidle i thi Hne Hi). contradiction.
  - intros t' E. subst L. destruct (decide (pos th' = AtAcquire)); [discriminate|].
    simplify_eq. exists th'. split; [|assumption].
    apply list_lookup_insert_eq. exact Hlt.
  - intros i thi Hi. destruct (decide (i = t)) as [->|Hne].
    + rewrite list_lookup_insert_eq in Hi by exact Hlt. simplify_eq. assumption.
    + rewrite list_lookup_insert_ne in Hi by congruence.
      exact (inv_wf m Hinv i thi Hi).
  - intros i thi f tmp Hi Hp. destruct (decide (i = t)) as [->|Hne].
    + rewrite list_lookup_insert_eq in Hi by exact Hlt. simplify_eq. eauto.
    + rewrite list_lookup_insert_ne in Hi by congruence.
      specialize (Hidle i thi Hne Hi). congruence.
  - intros f. rewrite (sumZ_insert _ _ _ _ _ Ht), Hsum, (inv_sum m Hinv f). reflexivity.
  - intros line Hl. rewrite (map_code_insert _ _ _ _ Ht Hcode). auto.
Qed.

Lemma partial_idle f th : pos th = AtAcquire -> partial f th = 0.
Proof. unfold partial. intros ->. destruct (code th !! ip th) as [[]|]; reflexivity. Qed.

Lemma partial_print f th : code th !! ip th = Some OpPrint -> partial f th = 0.
Proof. unfold partial. intros ->. reflexivity. Qed.

Lemma quiet_snapshot m :
  inv m ->
  (forall i th, threads m !! i = Some th -> forall f, partial f th = 0) ->
  whole_calls (map code (threads m)) (globals m).
Proof.
  intros Hinv Hq. apply whole_calls_ips. intros f.
  rewrite (inv_sum m Hinv f). apply sumZ_ext. intros th Hin.
  apply list_elem_of_In, list_elem_of_lookup in Hin. destruct Hin as [i Hi].
  unfold credited. rewrite (Hq i th Hi f). lia.
Qed.

Lemma inv_step m t m' : inv m -> step t m = Some m' -> inv m'.
Proof.
  intros Hinv Hs. unfold step in Hs.
  destruct (threads m !! t) as [th|] eqn:Ht; [|discriminate].
  destruct (code th !! ip th) as [o|] eqn:Ho; [|discriminate].
  assert (Hen : pos th <> AtAcquire -> lock m = None \/ lock m = Some t).
  { intros Hn. right. exact (inv_excl m Hinv t th Ht Hn). }
  pose proof (inv_console m Hinv) as Hcon.
  assert (Hrel : forall f0,
    pos th = AtRelease ->
    get_field f0 (globals m) =
    get_field f0 (globals m) - credited f0 th
    + credited f0 (mkThread (code th) (S (ip th)) AtAcquire)).
  { intros f0 Hp. unfold credited; simpl.
    rewrite (code_total_take_S _ _ _ _ Ho).
    rewrite (partial_idle f0 (mkThread _ _ _)) by reflexivity.
    unfold partial. rewrite ?Ho, ?Hp. destruct o; simpl; lia. }
  destruct o as [d|]; destruct (pos th) as [|f|f tmp| | |] eqn:Hp;
    try discriminate.
  - (* update_stats: acquire *)
    destruct (lock m) eqn:Hl; [discriminate|]. simplify_eq.
    apply (inv_rebuild m t th);
      [ exact Hinv | exact Ht | left; exact Hl | reflexivity | reflexivity
      | unfold wf_thread; simpl; eauto
      | simpl; intros; discriminate
      | | exact Hcon ].
    intros f. unfold credited, partial; simpl. rewrite ?Ho, ?Hp.
    destruct f; simpl; lia.
  - (* update_stats: load *)
    simplify_eq. unfold set_thread.
    apply (inv_rebuild m t th);
      [ exact Hinv | exact Ht | apply Hen; discriminate | reflexivity
      | simpl; apply (inv_excl m Hinv t th Ht); rewrite Hp; discriminate
      | unfold wf_thread; simpl; eauto
      | simpl; intros ? ? [= <- <-]; reflexivity
      | | exact Hcon ].
    intros f0. unfold credited, partial; simpl. rewrite ?Ho, ?Hp. lia.
  - (* update_stats: store *)
    simplify_eq.
    pose proof (inv_tmp m Hinv t th f tmp Ht Hp) as ->.
    apply (inv_rebuild m t th);
      [ exact Hinv | exact Ht | apply Hen; discriminate | reflexivity
      | rewrite (inv_excl m Hinv t th Ht) by (rewrite Hp; discriminate);
        destruct f; reflexivity
      | unfold wf_thread; simpl; destruct f; simpl; eauto
      | simpl; intros; destruct f; discriminate
      | | exact Hcon ].
    intros f0. rewrite get_set_field.
    unfold credited, partial; simpl. rewrite ?Ho, ?Hp.
    destruct f, f0; simpl; lia.
  - (* update_stats: release *)
    simplify_eq.
    apply (inv_rebuild m t th);
      [ exact Hinv | exact Ht | apply Hen; discriminate | reflexivity | reflexivity
      | exact I
      | simpl; intros; discriminate
      | intros f0; apply Hrel; reflexivity | exact Hcon ].
  - (* print_progress: acquire *)
    destruct (lock m) eqn:Hl; [discriminate|]. simplify_eq.
    apply (inv_rebuild m t th);
      [ exact Hinv | exact Ht | left; exact Hl | reflexivity | reflexivity
      | unfold wf_thread; simpl; eauto
      | simpl; intros; discriminate
      | | exact Hcon ].
    intros f. unfold credited, partial; simpl. rewrite ?Ho, ?Hp. lia.
  - (* print_progress: clock *)
    simplify_eq. unfold set_thread.
    apply (inv_rebuild m t th);
      [ exact Hinv | exact Ht | apply Hen; discriminate | reflexivity
      | simpl; apply (inv_excl m Hinv t th Ht); rewrite Hp; discriminate
      | unfold wf_thread; simpl; assumption
      | simpl; intros; discriminate
      | | exact Hcon ].
    intros f0. unfold credited, partial; simpl. rewrite ?Ho, ?Hp. lia.
  - (* print_progress: print *)
    simplify_eq.
    apply (inv_rebuild m t th);
      [ exact Hinv | exact Ht | apply Hen; discriminate | reflexivity
      | simpl; apply (inv_excl m Hinv t th Ht); rewrite Hp; discriminate
      | unfold wf_thread; simpl; eauto
      | simpl; intros; discriminate
      | | ].
    + intros f0. unfold credited, partial; simpl. rewrite ?Ho, ?Hp. lia.
    + intros line Hl. apply in_app_or in Hl. destruct Hl as [Hl|[<-|[]]]; [auto|].
      apply quiet_snapshot; [assumption|].
      intros i thi Hi f0. destruct (decide (i = t)) as [->|Hne].
      * simplify_eq. apply partial_print. assumption.
      * apply partial_idle. eapply (others_idle m t); eauto.
  - (* print_progress: release *)
    simplify_eq.
    apply (inv_rebuild m t th);
      [ exact Hinv | exact Ht | apply Hen; discriminate | reflexivity | reflexivity
      | exact I
      | simpl; intros; discriminate
      | intros f0; apply Hrel; reflexivity | exact Hcon ].
Qed.

Lemma inv_run sched : forall m, inv m -> inv (run sched m).
Proof.
  induction sched as [|t sched IH]; intros m Hinv; simpl; [assumption|].
  destruct (step t m) as [m'|] eqn:Hs; [|auto].
  apply IH. eapply inv_step; eauto.
Qed.

Lemma cost_pos o : 0 < cost o.
Proof. destruct o; simpl; lia. Qed.

Lemma sumZ_nonneg {A} (g : A -> Z) l : (forall x, 0 <= g x) -> 0 <= sumZ g l.
Proof. intros H. induction l as [|x l IH]; simpl; [lia|]. specialize (H x). lia. Qed.

Lemma rest_pos p o : 0 < rest p o.
Proof. destruct p as [|f|f ?| | |]; simpl; try lia; try (destruct f; simpl; lia). apply cost_pos. Qed.

Lemma steps_left_nonneg th : 0 <= steps_left th.
Proof.
  unfold steps_left. destruct (code th !! ip th) as [o|]; [|lia].
  pose proof (rest_pos (pos th) o).
  pose proof (sumZ_nonneg cost (drop (S (ip th)) (code th))
                (fun o => Z.lt_le_incl _ _ (cost_pos o))). lia.
Qed.

Lemma steps_left_0 th : steps_left th = 0 -> finished th = true.
Proof.
  unfold steps_left, finished. destruct (code th !! ip th) as [o|] eqn:E.
  - pose proof (rest_pos (pos th) o).
    pose proof (sumZ_nonneg cost (drop (S (ip th)) (code th))
                  (fun o => Z.lt_le_incl _ _ (cost_pos o))). lia.
  - intros _. apply bool_decide_eq_true. apply lookup_ge_None. exact E.
Qed.

Lemma steps_left_next c k o :
  c !! k = Some o ->
  steps_left (mkThread c (S k) AtAcquire) = sumZ cost (drop (S k) c).
Proof.
  intros H. unfold steps_left; simpl.
  destruct (c !! S k) as [o'|] eqn:E.
  - rewrite (drop_S _ _ _ E). reflexivity.
  - rewrite (drop_ge c (S k)); [reflexivity|]. apply lookup_ge_None. exact E.
Qed.

Lemma step_work m t m' : inv m -> step t m = Some m' -> work m = work m' + 1.
Proof.
  intros Hinv Hs. unfold step in Hs.
  destruct (threads m !! t) as [th|] eqn:Ht; [|discriminate].
  destruct (code th !! ip th) as [o|] eqn:Ho; [|discriminate].
  assert (Hth : forall th' L G C,
    m' = mkMachine L G (<[t:=th']> (threads m)) C ->
    steps_left th = steps_left th' + 1 -> work m = work m' + 1).
  { intros th' L G C -> E. unfold work; simpl.
    rewrite (sumZ_insert _ _ _ _ _ Ht). lia. }
  destruct o as [d|]; destruct (pos th) as [|f|f tmp| | |] eqn:Hp;
    try discriminate;
    try (destruct (lock m); [discriminate|]);
    injection Hs as Hs; symmetry in Hs; unfold set_thread in Hs;
    apply (Hth _ _ _ _ Hs);
    try (rewrite (steps_left_next _ _ _ Ho));
    unfold steps_left; simpl; rewrite Ho, ?Hp; simpl;
    try (destruct f; simpl); lia.
Qed.

Lemma sumZ_pos_elem {A} (g : A -> Z) (l : list A) :
  0 < sumZ g l -> exists i x, l !! i = Some x /\ 0 < g x.
Proof.
  induction l as [|x l IH]; simpl; [lia|]. intros H.
  destruct (Z_lt_le_dec 0 (g x)) as [Hx|Hx].
  - exists 0%nat, x. auto.
  - destruct IH as (i & y & Hi & Hy); [lia|]. exists (S i), y. auto.
Qed.

Lemma progress m : inv m -> 0 < work m -> exists t m', step t m = Some m'.
Proof.
  intros Hinv Hw. destruct (lock m) as [t|] eqn:Hl.
  - destruct (inv_lock m Hinv t Hl) as (th & Ht & Hn).
    pose proof (inv_wf m Hinv t th Ht) as Hwf. unfold wf_thread in Hwf.
    exists t. unfold step. rewrite Ht.
    destruct (pos th) as [|f|f tmp| | |] eqn:Hp; try congruence.
    + destruct Hwf as [d ->]. eauto.
    + destruct Hwf as [d ->]. eauto.
    + rewrite Hwf. eauto.
    + rewrite Hwf. eauto.
    + destruct Hwf as [o ->]. destruct o; eauto.
  - destruct (sumZ_pos_elem _ _ Hw) as (i & th & Hi & Hpos).
    exists i. unfold step. rewrite Hi.
    unfold steps_left in Hpos.
    destruct (code th !! ip th) as [o|] eqn:Ho; [|lia].
    destruct (decide (pos th = AtAcquire)) as [E|Hn].
    + rewrite E, Hl. destruct o; eauto.
    + pose proof (inv_excl m Hinv i th Hi Hn). congruence.
Qed.

Lemma work_nonneg m : 0 <= work m.
Proof. apply sumZ_nonneg, steps_left_nonneg. Qed.

Lemma work_0_done m : work m = 0 -> all_done m = true.
Proof.
  unfold work, all_done. induction (threads m) as [|th ths IH]; simpl; [reflexivity|].
  intros H. pose proof (steps_left_nonneg th).
  pose proof (sumZ_nonneg steps_left ths steps_left_nonneg).
  rewrite steps_left_0 by lia. apply IH. lia.
Qed.

Lemma machine_completes m : inv m -> exists sched, all_done (run sched m) = true.
Proof.
  remember (Z.to_nat (work m)) as n eqn:En. revert m En.
  induction n as [|n IH]; intros m En Hinv.
  - exists []. simpl. apply work_0_done. pose proof (work_nonneg m). lia.
  - destruct (progress m Hinv) as (t & m' & Hs); [lia|].
    pose proof (step_work m t m' Hinv Hs) as Hw.
    destruct (IH m') as [sched Hd]; [lia|eapply inv_step; eauto|].
    exists (t :: sched). simpl. rewrite Hs. exact Hd.
Qed.

Lemma run_app s1 s2 m : run (s1 ++ s2) m = run s2 (run s1 m).
Proof.
  revert m. induction s1 as [|t s1 IH]; intros m; simpl; [reflexivity|].
  destruct (step t m); apply IH.
Qed.

Lemma step_codes m t m' :
  step t m = Some m' -> map code (threads m') = map code (threads m).
Proof.
  unfold step. destruct (threads m !! t) as [th|] eqn:Ht; [|discriminate].
  destruct (code th !! ip th) as [o|]; [|discriminate].
  destruct o, (pos th); try discriminate;
    try (destruct (lock m); [discriminate|]);
    intros [= <-]; simpl; apply (map_code_insert _ _ th); auto.
Qed.

Lemma run_codes sched : forall m, map code (threads (run sched m)) = map code (threads m).
Proof.
  induction sched as [|t sched IH]; intros m; simpl; [reflexivity|].
  destruct (step t m) as [m'|] eqn:Hs; [|apply IH].
  rewrite IH. eapply step_codes; eauto.
Qed.

Lemma init_codes codes : map code (threads (init_machine codes)) = codes.
Proof.
  simpl. rewrite map_map. simpl. apply map_id.
Qed.

Lemma code_total_prints f c : forallb is_print c = true -> code_total f c = 0.
Proof.
  unfold code_total. induction c as [|o c IH]; simpl; [reflexivity|].
  destruct o; simpl; [discriminate|]. exact IH.
Qed.

Lemma forallb_take {A} (p : A -> bool) k l :
  forallb p l = true -> forallb p (take k l) = true.
Proof.
  revert k. induction l as [|x l IH]; intros [|k]; simpl; auto.
  intros H. apply andb_prop in H. destruct H as [-> H]. simpl. auto.
Qed.

Lemma forallb_lookup {A} (p : A -> bool) (l : list A) i x :
  forallb p l = true -> l !! i = Some x -> p x = true.
Proof.
  revert i. induction l as [|y l IH]; intros [|i]; simpl; try discriminate.
  - intros H [= ->]. apply andb_prop in H. tauto.
  - intros H Hi. apply andb_prop in H. destruct H. eauto.
Qed.

Lemma credited_settled f th : settled th = true -> credited f th = code_total f (code th).
Proof.
  unfold settled, credited, finished. intros H.
  apply orb_prop in H. destruct H as [H|H].
  - apply bool_decide_eq_true in H.
    rewrite take_ge by exact H.
    unfold partial. rewrite (proj2 (lookup_ge_None _ _) H). lia.
  - rewrite (code_total_prints f (code th) H).
    rewrite (code_total_prints f _ (forallb_take _ (ip th) _ H)).
    unfold partial. destruct (code th !! ip th) as [o|] eqn:E; [|reflexivity].
    pose proof (forallb_lookup _ _ _ _ H E) as Hp.
    destruct o; [discriminate|reflexivity].
Qed.

Lemma joined_totals m :
  inv m -> joined m = true ->
  forall f, get_field f (globals m) = grand_total f (map code (threads m)).
Proof.
  intros Hinv Hj f. rewrite (inv_sum m Hinv f). unfold grand_total, joined in *.
  induction (threads m) as [|th ths IH]; simpl in *; [reflexivity|].
  apply andb_prop in Hj. destruct Hj as [H1 H2].
  rewrite (credited_settled f th H1), IH by exact H2. reflexivity.
Qed.

Lemma all_done_joined m : all_done m = true -> joined m = true.
Proof.
  unfold all_done, joined, settled. induction (threads m) as [|th ths IH]; simpl; auto.
  intros H. apply andb_prop in H. destruct H as [-> H]. simpl. auto.
Qed.

Lemma free_lock_snapshot m :
  inv m -> lock m = None -> whole_calls (map code (threads m)) (globals m).
Proof.
  intros Hinv Hl. apply quiet_snapshot; [assumption|].
  intros i th Hi f. apply partial_idle.
  destruct (decide (pos th = AtAcquire)) as [|Hn]; [assumption|].
  pose proof (inv_excl m Hinv i th Hi Hn). congruence.
Qed.

Lemma stats_ext s1 s2 : (forall f, get_field f s1 = get_field f s2) -> s1 = s2.
Proof.
  intros H. destruct s1, s2.
  pose proof (H F_sent). pose proof (H F_received).
  pose proof (H F_failed_conn). pose proof (H F_failed_send).
  simpl in *. congruence.
Qed.

Lemma get_field_update f d s :
  get_field f (update_stats d s) = get_field f s + delta_field f d.
Proof. destruct f; reflexivity. Qed.

Lemma get_field_apply_all f ds : forall s,
  get_field f (apply_all ds s) = get_field f s + sumZ (delta_field f) ds.
Proof.
  unfold apply_all. induction ds as [|d ds IH]; intros s; simpl; [lia|].
  rewrite IH, get_field_update. lia.
Qed.

Lemma sumZ_deltas_of f c : sumZ (delta_field f) (deltas_of c) = code_total f c.
Proof.
  unfold code_total, deltas_of. induction c as [|o c IH]; [reflexivity|].
  destruct o; cbn; rewrite IH; reflexivity.
Qed.

Lemma sumZ_concat {A} (g : A -> Z) (ls : list (list A)) :
  sumZ g (concat ls) = sumZ (sumZ g) ls.
Proof.
  induction ls as [|l ls IH]; simpl; [reflexivity|].
  rewrite sumZ_app, IH. reflexivity.
Qed.

Lemma apply_all_totals codes f :
  get_field f (apply_all (concat (map deltas_of codes)) stats0) = grand_total f codes.
Proof.
  rewrite get_field_apply_all, sumZ_concat. unfold grand_total.
  induction codes as [|c cs IH]; simpl; [destruct f; reflexivity|].
  rewrite sumZ_deltas_of.
  assert (E : get_field f stats0 = 0) by (destruct f; reflexivity).
  rewrite E in *. lia.
Qed.

(** ** Counter atomicity *)

(** What the lock is for: without it, two threads that each add 1 to
    [total_sent] can both load 0 and both store 1. *)
Example lost_update_without_lock :
  let codes := [[OpUpdate (mkDelta 1 0 0 0)]; [OpUpdate (mkDelta 1 0 0 0)]] in
  let sched := [0; 0; 1; 1; 0; 1]%nat ++ replicate 7 0%nat ++ replicate 7 1%nat in
  all_done (run_unlocked sched (init_machine codes)) = true /\
  total_sent (globals (run_unlocked sched (init_machine codes))) = 1 /\
  grand_total F_sent codes = 2.
Proof. vm_compute. repeat split. Qed.

(** C1. Threads call [update_stats] (and [print_progress]) as they please
    and are interleaved step by step by an arbitrary schedule.  Once every
    thread has made all its calls, each counter holds exactly the sum of
    the deltas of all calls, which is also what applying the calls one after
    the other gives: no update is lost.  Whatever is read under the lock,
    by a [print] or when the lock is free, is the effect of whole calls
    only: no partial update is observable.  And every execution can be
    continued until all calls are made. *)
Theorem C1_counter_atomicity (codes : list (list op)) (sched : list nat) :
  let m := run sched (init_machine codes) in
  (all_done m = true ->
     (forall f, get_field f (globals m) = grand_total f codes) /\
     globals m = apply_all (concat (map deltas_of codes)) stats0)
  /\ (lock m = None -> whole_calls codes (globals m))
  /\ (forall line, In line (console m) -> whole_calls codes line)
  /\ (exists more, all_done (run (sched ++ more) (init_machine codes)) = true).
Proof.
  intros m.
  assert (Hinv : inv m) by apply inv_run, inv_init.
  assert (Hc : map code (threads m) = codes).
  { unfold m. rewrite run_codes. apply init_codes. }
  repeat split.
  - intros f. rewrite <- Hc. apply joined_totals; [assumption|].
    apply all_done_joined. assumption.
  - apply stats_ext. intros f. rewrite apply_all_totals, <- Hc.
    apply joined_totals; [assumption|]. apply all_done_joined. assumption.
  - intros Hl. rewrite <- Hc. apply free_lock_snapshot; assumption.
  - intros line Hl. rewrite <- Hc. apply (inv_console m Hinv). assumption.
  - destruct (machine_completes m Hinv) as [more Hd]. exists more.
    rewrite run_app. exact Hd.
Qed.

(** C1 holds of three threads that take turns: the two updates of [sent]
    add up to 2, and the line printed on the way shows whole calls only. *)
Lemma C1_counter_atomicity_witness :
  get_field F_sent (globals (run round_robin (init_machine sample_codes))) = 2 /\
  whole_calls sample_codes (mkStats 2 0 0 1).
Proof.
  pose proof (C1_counter_atomicity sample_codes round_robin) as (Hdone & _ & Hline & _).
  split.
  - apply (proj1 (Hdone eq_refl) F_sent).
  - apply Hline. vm_compute. left. reflexivity.
Defined.

(** ** The workers *)

Ltac run_monad :=
  unfold mbind, M_bind, mret, M_ret, try_except, def, emit, log, of_answer,
    set_locals, get_locals, do_return, do_break, sendall, recv, close, connect,
    socket_socket, settimeout, sleep, print, random_choice, time_time,
    call_update_stats, result_queue_put, call_print_progress, any_alive,
    start_thread_for; simpl.

Ltac monad_done :=
  repeat (progress (unfold log, emit; simpl));
  rewrite <- ?app_assoc; simpl; reflexivity.

Lemma burst_iteration_eq E client_id i s :
  burst_iteration E client_id i s = (after_iteration E client_id i s, Normal tt).
Proof.
  unfold burst_iteration, read_ack, after_iteration, iteration_events, classify.
  run_monad.
  destruct (env_send E (n_send s)) as [[]|e]; simpl.
  - destruct (env_recv E (n_recv s)) as [data|e]; simpl.
    + destruct (bool_decide (data = "")); monad_done.
    + destruct (is_socket_timeout e); monad_done.
  - monad_done.
Qed.

Lemma burst_loop_eq E client_id l : forall s,
  for_each l (burst_iteration E client_id) s = (after_loop E client_id l s, Normal tt).
Proof.
  induction l as [|i l IH]; intros s; simpl; [reflexivity|].
  rewrite burst_iteration_eq. apply IH.
Qed.

(** The three ways in which a burst worker can go, each with the state it
    ends in. *)
Lemma client_worker_no_socket E client_id n s e :
  env_socket E = Fails e ->
  client_worker E client_id n s =
    (mkW (mkLocals 0 0 0) (n_send s) (n_recv s) (n_choice s) (n_clock s) (n_alive s)
         (trace s ++
            [EvSocket;
             EvPrint (nl +:+ "Client " +:+ pretty client_id +:+ " error: " +:+ env_str E e);
             EvPut (mkResult client_id 0 0 0 0)]),
     Normal tt).
Proof.
  intros H. unfold client_worker. run_monad. rewrite H. monad_done.
Qed.

Lemma client_worker_no_connection E client_id n s e :
  env_socket E = Ok tt -> env_connect E = Fails e ->
  client_worker E client_id n s =
    (mkW (mkLocals 0 0 0) (n_send s) (n_recv s) (n_choice s) (n_clock s) (n_alive s)
         (trace s ++
            [EvSocket; EvSetTimeout 10000; EvConnect SERVER_HOST SERVER_PORT;
             EvUpdate (mkDelta 0 0 1 0);
             EvPut (mkResult client_id 0 0 1 0)]),
     Normal tt).
Proof.
  intros H1 H2. unfold client_worker. run_monad. rewrite H1. simpl. rewrite H2.
  monad_done.
Qed.

Lemma client_worker_connected E client_id n s :
  connected E ->
  let s2 := after_loop E client_id (range n) (worker_start s) in
  client_worker E client_id n s =
    (mkW (locals s2) (n_send s2) (n_recv s2) (n_choice s2) (n_clock s2) (n_alive s2)
         (trace s2 ++
            EvClose ::
            match env_close E with
            | Ok _ => []
            | Fails e =>
                [EvPrint (nl +:+ "Client " +:+ pretty client_id +:+ " error: "
                            +:+ env_str E e)]
            end ++
            [EvPut (mkResult client_id (sent (locals s2)) (received (locals s2)) 0
                      (failed_send (locals s2)))]),
     Normal tt).
Proof.
  intros [H1 H2] s2. unfold client_worker. run_monad. rewrite H1. simpl. rewrite H2.
  simpl.
  match goal with
  | |- context [for_each _ _ ?s0] =>
      replace s0 with (worker_start s) by (unfold worker_start; monad_done)
  end.
  rewrite burst_loop_eq. fold s2. simpl.
  destruct (env_close E) as [[]|e]; monad_done.
Qed.

(** *** What the loop of the burst worker preserves *)

Lemma trace_ops_app tr1 tr2 : trace_ops (tr1 ++ tr2) = trace_ops tr1 ++ trace_ops tr2.
Proof. apply omap_app. Qed.

Lemma published_app tr1 tr2 : published (tr1 ++ tr2) = published tr1 ++ published tr2.
Proof. apply omap_app. Qed.

Lemma count_ev_app p tr1 tr2 :
  count_ev p (tr1 ++ tr2) = (count_ev p tr1 + count_ev p tr2)%nat.
Proof. induction tr1 as [|e tr1 IH]; simpl; [reflexivity|]. rewrite IH. lia. Qed.

Lemma tally_app f tr1 tr2 :
  code_total f (trace_ops (tr1 ++ tr2)) =
  code_total f (trace_ops tr1) + code_total f (trace_ops tr2).
Proof. rewrite trace_ops_app. apply sumZ_app. Qed.

Lemma after_iteration_trace E client_id i s :
  trace (after_iteration E client_id i s) = trace s ++ iteration_events E client_id i s.
Proof. reflexivity. Qed.

Lemma after_iteration_balanced E client_id i s :
  balanced s -> balanced (after_iteration E client_id i s).
Proof.
  unfold balanced. rewrite after_iteration_trace, !tally_app.
  unfold after_iteration, iteration_events. simpl.
  destruct (classify E s); cbn; lia.
Qed.

Lemma after_loop_balanced E client_id l : forall s,
  balanced s -> balanced (after_loop E client_id l s).
Proof.
  induction l as [|i l IH]; intros s H; simpl; [assumption|].
  apply IH, after_iteration_balanced, H.
Qed.

Lemma after_loop_ordered E client_id l : forall s,
  received (locals s) <= sent (locals s) ->
  received (locals (after_loop E client_id l s))
    <= sent (locals (after_loop E client_id l s)).
Proof.
  induction l as [|i l IH]; intros s H; simpl; [assumption|].
  apply IH. unfold after_iteration; simpl. destruct (classify E s); simpl; lia.
Qed.

Lemma after_loop_sent_bounds E client_id l : forall s,
  sent (locals s) <= sent (locals (after_loop E client_id l s))
    <= sent (locals s) + Z.of_nat (length l).
Proof.
  induction l as [|i l IH]; intros s; [simpl; lia|].
  cbn [after_loop length]. specialize (IH (after_iteration E client_id i s)).
  assert (sent (locals s) <= sent (locals (after_iteration E client_id i s))
            <= sent (locals s) + 1).
  { unfold after_iteration; simpl. destruct (classify E s); simpl; lia. }
  lia.
Qed.

Lemma after_loop_sent_all E client_id l : forall s,
  writes_succeed E ->
  sent (locals (after_loop E client_id l s)) = sent (locals s) + Z.of_nat (length l).
Proof.
  induction l as [|i l IH]; intros s H; [simpl; lia|].
  cbn [after_loop length]. rewrite IH by assumption.
  assert (sent (locals (after_iteration E client_id i s)) = sent (locals s) + 1).
  { unfold after_iteration, classify; simpl. rewrite (H (n_send s)).
    destruct (env_recv E (n_recv s)) as [data|e];
      [destruct (bool_decide (data = ""))|destruct (is_socket_timeout e)];
      reflexivity. }
  lia.
Qed.

Lemma after_loop_published E client_id l : forall s,
  published (trace (after_loop E client_id l s)) = published (trace s).
Proof.
  induction l as [|i l IH]; intros s; simpl; [reflexivity|].
  rewrite IH, after_iteration_trace, published_app.
  unfold iteration_events. destruct (classify E s); cbn; apply app_nil_r.
Qed.

Lemma after_loop_sendalls E client_id l : forall s,
  count_ev is_sendall (trace (after_loop E client_id l s)) =
  (count_ev is_sendall (trace s) + length l)%nat.
Proof.
  induction l as [|i l IH]; intros s; simpl; [lia|].
  rewrite IH, after_iteration_trace, count_ev_app.
  unfold iteration_events. destruct (classify E s); simpl; lia.
Qed.

Lemma length_range n : Z.of_nat (length (range n)) = Z.max 0 n.
Proof. unfold range. rewrite length_seq. lia. Qed.

Lemma worker_start_balanced : balanced (worker_start w0).
Proof. unfold balanced; cbn. lia. Qed.

(** What a burst worker leaves behind, whatever the world answers. *)
Lemma client_worker_summary E client_id n :
  exists r,
    snd (client_worker E client_id n w0) = Normal tt /\
    published (thread_trace (client_worker E client_id n)) = [r] /\
    r_client_id r = client_id /\
    r_received r <= r_sent r /\
    0 <= r_sent r <= Z.max 0 n /\
    (forall f, code_total f (trace_ops (thread_trace (client_worker E client_id n)))
               = result_field f r) /\
    (connected E -> writes_succeed E -> r_sent r = Z.max 0 n) /\
    (connected E ->
       count_ev is_sendall (thread_trace (client_worker E client_id n))
       = Z.to_nat n).
Proof.
  unfold thread_trace.
  destruct (env_socket E) as [[]|e] eqn:Hs.
  - destruct (env_connect E) as [[]|e] eqn:Hc.
    + assert (Hcon : connected E) by (split; assumption).
      rewrite (client_worker_connected E client_id n w0 Hcon).
      set (s2 := after_loop E client_id (range n) (worker_start w0)).
      pose proof (after_loop_balanced E client_id (range n) _ worker_start_balanced)
        as (B1 & B2 & B3 & B4). fold s2 in B1, B2, B3, B4.
      pose proof (after_loop_ordered E client_id (range n) (worker_start w0)) as Ho.
      pose proof (after_loop_sent_bounds E client_id (range n) (worker_start w0)) as Hb.
      pose proof (after_loop_published E client_id (range n) (worker_start w0)) as Hp.
      pose proof (after_loop_sendalls E client_id (range n) (worker_start w0)) as Hn.
      fold s2 in Ho, Hb, Hp, Hn. rewrite length_range in Hb.
      eexists. cbn [fst snd trace].
      split; [reflexivity|]. split.
      { rewrite published_app, Hp. destruct (env_close E) as [[]|e']; reflexivity. }
      split; [reflexivity|]. cbn [r_sent r_received].
      split; [apply Ho; simpl; lia|].
      split; [simpl in Hb; lia|].
      split.
      { intros f. rewrite tally_app.
        assert (Ht : code_total f (trace_ops
                       (EvClose :: match env_close E with
                                   | Ok _ => []
                                   | Fails e0 =>
                                       [EvPrint (nl +:+ "Client " +:+ pretty client_id
                                                   +:+ " error: " +:+ env_str E e0)]
                                   end ++
                        [EvPut (mkResult client_id (sent (locals s2))
                                  (received (locals s2)) 0 (failed_send (locals s2)))]))
                     = 0).
        { destruct (env_close E) as [[]|e']; reflexivity. }
        rewrite Ht. destruct f; simpl; lia. }
      split.
      { intros _ Hw.
        pose proof (after_loop_sent_all E client_id (range n) (worker_start w0) Hw) as Ha.
        fold s2 in Ha. rewrite length_range in Ha. simpl in Ha. lia. }
      { intros _. rewrite count_ev_app, Hn.
        assert (Hz : count_ev is_sendall
                       (EvClose :: match env_close E with
                                   | Ok _ => []
                                   | Fails e0 =>
                                       [EvPrint (nl +:+ "Client " +:+ pretty client_id
                                                   +:+ " error: " +:+ env_str E e0)]
                                   end ++
                        [EvPut (mkResult client_id (sent (locals s2))
                                  (received (locals s2)) 0 (failed_send (locals s2)))])
                     = 0%nat).
        { destruct (env_close E) as [[]|e']; reflexivity. }
        rewrite Hz. unfold range. rewrite length_seq. simpl. lia. }
    + rewrite (client_worker_no_connection E client_id n w0 e Hs Hc).
      eexists. cbn [fst snd trace].
      repeat split; try reflexivity; cbn; try lia.
      * intros f; destruct f; reflexivity.
      * intros [_ H]; congruence.
      * intros [_ H]; congruence.
  - rewrite (client_worker_no_socket E client_id n w0 e Hs).
    eexists. cbn [fst snd trace].
    repeat split; try reflexivity; cbn; try lia.
    * intros f; destruct f; reflexivity.
    * intros [H _]; congruence.
    * intros [H _]; congruence.
Qed.

(** *** Blocks that never make a call of a given kind *)

Section Silent.
Context (p : event -> bool).

Lemma silent_ret {A} (a : A) : silent p (mret a).
Proof. intros s. reflexivity. Qed.

Lemma silent_bind {A B} (c : M A) (k : A -> M B) :
  silent p c -> (forall a, silent p (k a)) -> silent p (c ≫= k).
Proof.
  intros Hc Hk s. unfold mbind, M_bind. specialize (Hc s).
  destruct (c s) as [s' [a|e| | |]]; simpl in *; try assumption.
  rewrite Hk. assumption.
Qed.

Lemma silent_try {A} (c : M A) catches (h : exn -> M A) :
  silent p c -> (forall e, silent p (h e)) -> silent p (try_except c catches h).
Proof.
  intros Hc Hh s. unfold try_except. specialize (Hc s).
  destruct (c s) as [s' [a|e| | |]]; simpl in *; try assumption.
  destruct (catches e); simpl; [|assumption]. rewrite Hh. assumption.
Qed.

Lemma silent_for l (body : nat -> M unit) :
  (forall i, silent p (body i)) -> silent p (for_each l body).
Proof.
  intros Hb. induction l as [|i l IH]; intros s; simpl; [reflexivity|].
  specialize (Hb i s).
  destruct (body i s) as [s' [a|e| | |]]; simpl in *; try assumption.
  rewrite IH. assumption.
Qed.

Lemma silent_while fuel (cond : M bool) (body : M unit) :
  silent p cond -> silent p body -> silent p (while_loop fuel cond body).
Proof.
  intros Hc Hb. induction fuel as [|fuel IH]; intros s; simpl; [reflexivity|].
  specialize (Hc s).
  destruct (cond s) as [s1 [[|]|e| | |]]; simpl in *; try assumption.
  specialize (Hb s1).
  destruct (body s1) as [s2 [a|e| | |]]; simpl in *;
    [rewrite IH; congruence | congruence ..].
Qed.

Lemma silent_def {A} (c : M A) : silent p c -> silent p (def c).
Proof.
  intros Hc s. unfold def. specialize (Hc s).
  destruct (c s) as [s' [a|e| | |]]; simpl in *; assumption.
Qed.

Lemma silent_emit e : p e = false -> silent p (emit e).
Proof.
  intros H s. unfold emit, log; simpl. rewrite count_ev_app. simpl. rewrite H. lia.
Qed.

Lemma silent_answer {A} (a : answer A) e :
  p e = false -> silent p (fun s => of_answer a (log e s)).
Proof.
  intros H s. unfold of_answer, log. destruct a; simpl;
    rewrite count_ev_app; simpl; rewrite H; lia.
Qed.

Lemma silent_sendall E data : p (EvSendall data) = false -> silent p (sendall E data).
Proof.
  intros H s. unfold sendall, of_answer. destruct (env_send E (n_send s)); simpl;
    rewrite count_ev_app; simpl; rewrite H; lia.
Qed.

Lemma silent_recv E n : p (EvRecv n) = false -> silent p (recv E n).
Proof.
  intros H s. unfold recv, of_answer. destruct (env_recv E (n_recv s)); simpl;
    rewrite count_ev_app; simpl; rewrite H; lia.
Qed.

Lemma silent_time E : p EvClock = false -> silent p (time_time E).
Proof.
  intros H s. unfold time_time; simpl. rewrite count_ev_app. simpl. rewrite H. lia.
Qed.

Lemma silent_choice E : silent p (random_choice E).
Proof. intros s. reflexivity. Qed.

Lemma silent_alive E : silent p (any_alive E).
Proof. intros s. reflexivity. Qed.

Lemma silent_get_locals : silent p get_locals.
Proof. intros s. reflexivity. Qed.

Lemma silent_set_locals l : silent p (set_locals l).
Proof. intros s. reflexivity. Qed.

Lemma silent_raise {A} e : silent p (@raise A e).
Proof. intros s. reflexivity. Qed.

Lemma silent_return {A} : silent p (@do_return A).
Proof. intros s. reflexivity. Qed.

Lemma silent_break {A} : silent p (@do_break A).
Proof. intros s. reflexivity. Qed.

End Silent.

Ltac silence :=
  repeat first
    [ apply silent_def
    | apply silent_bind
    | apply silent_try
    | apply silent_for
    | apply silent_while
    | apply silent_ret
    | apply silent_get_locals
    | apply silent_set_locals
    | apply silent_return
    | apply silent_raise
    | apply silent_break
    | apply silent_choice
    | apply silent_alive
    | apply silent_sendall; reflexivity
    | apply silent_recv; reflexivity
    | apply silent_time; reflexivity
    | apply silent_answer; reflexivity
    | apply silent_emit; reflexivity
    | intro ].

Lemma sustained_worker_publishes_nothing E fuel client_id end_time :
  silent is_put (sustained_client_worker E fuel client_id end_time).
Proof.
  unfold sustained_client_worker, sustained_iteration, before_deadline,
    socket_socket, connect, close, settimeout, sleep, call_update_stats.
  silence.
Qed.

Lemma count_put_published tr : count_ev is_put tr = length (published tr).
Proof.
  induction tr as [|e tr IH]; [reflexivity|].
  destruct e; cbn; rewrite ?IH; reflexivity.
Qed.

(** ** Results on the queue *)

(** C2, as the program has it.  A burst worker runs to its end and leaves
    exactly one result on the queue, whatever the world answers: no socket,
    no connection, failed writes, failed reads, a failing [close].  A
    sustained worker leaves none, on any path. *)
Theorem C2_results_published :
  (forall E client_id n, publishes_exactly_one (client_worker E client_id n)) /\
  (forall E fuel client_id end_time,
     published (thread_trace (sustained_client_worker E fuel client_id end_time)) = []).
Proof.
  split.
  - intros E client_id n.
    destruct (client_worker_summary E client_id n) as (r & Hn & Hp & _).
    split; [assumption|]. rewrite Hp. reflexivity.
  - intros E fuel client_id end_time. unfold thread_trace.
    pose proof (sustained_worker_publishes_nothing E fuel client_id end_time w0) as H.
    rewrite !count_put_published in H. simpl in H.
    destruct (published _); [reflexivity|discriminate].
Qed.

(** C2 fails for the sustained mode: against a server that accepts
    everything, a sustained worker sends until the deadline, closes its
    socket and returns without having put anything on the queue. *)
Lemma C2_sustained_worker_publishes_none :
  snd (sustained_client_worker env_server_up 5 0 25 w0) = Normal tt /\
  count_ev is_sendall (thread_trace (sustained_client_worker env_server_up 5 0 25)) = 3%nat /\
  published (thread_trace (sustained_client_worker env_server_up 5 0 25)) = [] /\
  ~ publishes_exactly_one (sustained_client_worker env_server_up 5 0 25).
Proof.
  repeat split; try (vm_compute; reflexivity).
  intros [_ H]. vm_compute in H. discriminate.
Qed.

(** ** Failures of [sendall] *)

Lemma sustained_iteration_fails E client_id s e :
  env_send E (n_send s) = Fails e ->
  sustained_iteration E client_id s =
    (mkW (locals s) (S (n_send s)) (n_recv s) (S (n_choice s)) (n_clock s) (n_alive s)
         (trace s ++
            [EvSendall (sustained_frame client_id (choice_at E (n_choice s)));
             EvUpdate (mkDelta 0 0 0 1)]),
     Break).
Proof.
  intros H. unfold sustained_iteration. run_monad. rewrite H. monad_done.
Qed.

Lemma sustained_iteration_ok E client_id s :
  env_send E (n_send s) = Ok tt ->
  sustained_iteration E client_id s =
    (mkW (mkLocals (sent (locals s) + 1) (received (locals s)) (failed_send (locals s)))
         (S (n_send s)) (n_recv s) (S (n_choice s)) (n_clock s) (n_alive s)
         (trace s ++
            [EvSendall (sustained_frame client_id (choice_at E (n_choice s)));
             EvUpdate (mkDelta 1 0 0 0); EvSleep 10]),
     Normal tt).
Proof.
  intros H. unfold sustained_iteration. run_monad. rewrite H. monad_done.
Qed.

Lemma before_deadline_eq E end_time s :
  before_deadline E end_time s =
    (mkW (locals s) (n_send s) (n_recv s) (n_choice s) (S (n_clock s)) (n_alive s)
         (trace s ++ [EvClock]),
     Normal (bool_decide (env_clock E (n_clock s) < end_time))).
Proof. reflexivity. Qed.

Lemma sustained_loop_breaks E client_id fuel end_time s e :
  env_send E (n_send s) = Fails e ->
  env_clock E (n_clock s) < end_time ->
  while_loop (S fuel) (before_deadline E end_time) (sustained_iteration E client_id) s =
    (mkW (locals s) (S (n_send s)) (n_recv s) (S (n_choice s)) (S (n_clock s))
         (n_alive s)
         (trace s ++
            [EvClock;
             EvSendall (sustained_frame client_id (choice_at E (n_choice s)));
             EvUpdate (mkDelta 0 0 0 1)]),
     Normal tt).
Proof.
  intros Hsend Hclock. cbn [while_loop].
  rewrite before_deadline_eq, bool_decide_eq_true_2 by exact Hclock.
  rewrite sustained_iteration_fails with (e := e) by exact Hsend.
  cbn [locals n_send n_recv n_choice n_clock n_alive trace].
  rewrite <- app_assoc. reflexivity.
Qed.

(** C5. When [sendall] raises, the burst worker adds 1 to its
    [failed_send], asks for [update_stats(failed_send=1)] and nothing else,
    and the loop goes on with the remaining iterations, each of which
    attempts its write; the sustained worker asks for the same update and
    leaves its loop: the failed write is the last one.  That update adds
    exactly 1 to [failed_sends] and leaves the other counters alone. *)
Theorem C5_send_failure (E : env) (client_id i : nat) (more : list nat)
    (fuel : nat) (end_time : Z) (s : wstate) (e : exn) :
  env_send E (n_send s) = Fails e ->
  env_clock E (n_clock s) < end_time ->
  (let s' := fst (burst_iteration E client_id i s) in
   snd (burst_iteration E client_id i s) = Normal tt /\
   locals s' = mkLocals (sent (locals s)) (received (locals s))
                        (failed_send (locals s) + 1) /\
   trace s' = trace s ++
                [EvSendall (burst_frame client_id i (choice_at E (n_choice s)));
                 EvUpdate (mkDelta 0 0 0 1)] /\
   for_each (i :: more) (burst_iteration E client_id) s =
     for_each more (burst_iteration E client_id) s' /\
   count_ev is_sendall
     (trace (fst (for_each (i :: more) (burst_iteration E client_id) s))) =
     (count_ev is_sendall (trace s) + 1 + length more)%nat)
  /\
  (let s' := fst (while_loop (S fuel) (before_deadline E end_time)
                    (sustained_iteration E client_id) s) in
   snd (while_loop (S fuel) (before_deadline E end_time)
          (sustained_iteration E client_id) s) = Normal tt /\
   locals s' = locals s /\
   trace s' = trace s ++
                [EvClock;
                 EvSendall (sustained_frame client_id (choice_at E (n_choice s)));
                 EvUpdate (mkDelta 0 0 0 1)])
  /\
  (forall g, update_stats (mkDelta 0 0 0 1) g =
             mkStats (total_sent g) (total_received g) (failed_connections g)
                     (failed_sends g + 1)).
Proof.
  intros Hsend Hclock. split; [|split].
  - assert (Hk : classify E s = SendFailed) by (unfold classify; rewrite Hsend; reflexivity).
    cbn zeta. rewrite burst_iteration_eq. cbn [fst snd].
    split; [reflexivity|]. split.
    { unfold after_iteration; simpl. rewrite Hk. reflexivity. }
    split.
    { rewrite after_iteration_trace. unfold iteration_events. rewrite Hk. reflexivity. }
    split.
    { cbn [for_each]. rewrite burst_iteration_eq. reflexivity. }
    { rewrite burst_loop_eq. cbn [fst]. rewrite after_loop_sendalls. simpl. lia. }
  - cbn zeta. rewrite (sustained_loop_breaks E client_id fuel end_time s e Hsend Hclock).
    repeat split; reflexivity.
  - intros g. unfold update_stats; simpl. rewrite !Z.add_0_r. reflexivity.
Qed.

(** C5 holds of a connection whose first write fails. *)
Lemma C5_send_failure_witness :
  count_ev is_sendall
    (trace (fst (for_each [0; 1; 2]%nat (burst_iteration env_first_write_fails 7) w0)))
  = 3%nat.
Proof.
  pose proof (C5_send_failure env_first_write_fails 7 0 [1; 2]%nat 0 5 w0 BrokenPipeError
                eq_refl eq_refl) as [(_ & _ & _ & _ & H) _].
  exact H.
Defined.

(** ** The acknowledgment read *)

(** C6. After a successful write the iteration makes exactly one call of
    [recv] and ends normally, so that the loop goes on.  When the read
    returns bytes, [received] grows by 1 and [update_stats(received=1)] is
    asked for; when it times out, nothing is counted: the only update of
    the iteration is the [sent=1] of the write. *)
Theorem C6_ack_read (E : env) (client_id i : nat) (more : list nat) (s : wstate) :
  env_send E (n_send s) = Ok tt ->
  let s' := fst (burst_iteration E client_id i s) in
  let frame := EvSendall (burst_frame client_id i (choice_at E (n_choice s))) in
  snd (burst_iteration E client_id i s) = Normal tt /\
  for_each (i :: more) (burst_iteration E client_id) s =
    for_each more (burst_iteration E client_id) s' /\
  count_ev is_recv (trace s') = S (count_ev is_recv (trace s)) /\
  (forall data, env_recv E (n_recv s) = Ok data -> data <> "" ->
     locals s' = mkLocals (sent (locals s) + 1) (received (locals s) + 1)
                          (failed_send (locals s)) /\
     trace s' = trace s ++
       [frame; EvUpdate (mkDelta 1 0 0 0); EvSetTimeout 500; EvRecv 1024;
        EvUpdate (mkDelta 0 1 0 0); EvSleep 1]) /\
  (env_recv E (n_recv s) = Fails socket_timeout ->
     locals s' = mkLocals (sent (locals s) + 1) (received (locals s))
                          (failed_send (locals s)) /\
     trace s' = trace s ++
       [frame; EvUpdate (mkDelta 1 0 0 0); EvSetTimeout 500; EvRecv 1024; EvSleep 1] /\
     count_ev is_failure_update (trace s') = count_ev is_failure_update (trace s)).
Proof.
  intros Hsend. cbn zeta. rewrite burst_iteration_eq. cbn [fst snd].
  split; [reflexivity|]. split.
  { cbn [for_each]. rewrite burst_iteration_eq. reflexivity. }
  rewrite after_iteration_trace. unfold after_iteration, iteration_events.
  cbn [locals]. unfold classify. rewrite Hsend.
  split.
  { rewrite count_ev_app.
    destruct (env_recv E (n_recv s)) as [data|e];
      [destruct (bool_decide (data = ""))|destruct (is_socket_timeout e)];
      simpl; lia. }
  split.
  - intros data Hr Hne. rewrite Hr, bool_decide_eq_false_2 by exact Hne.
    split; reflexivity.
  - intros Hr. rewrite Hr. cbn [is_socket_timeout].
    repeat split. rewrite count_ev_app. simpl. lia.
Qed.

(** C6 holds of a server that acknowledges and of a server that stays
    mute. *)
Lemma C6_ack_read_witness :
  locals (fst (burst_iteration env_server_up 0 0 w0)) = mkLocals 1 1 0 /\
  locals (fst (burst_iteration env_server_mute 0 0 w0)) = mkLocals 1 0 0.
Proof.
  split.
  - pose proof (C6_ack_read env_server_up 0 0 [] w0 eq_refl) as (_ & _ & _ & H & _).
    destruct (H "ACK" eq_refl) as [Hl _]; [discriminate|]. exact Hl.
  - pose proof (C6_ack_read env_server_mute 0 0 [] w0 eq_refl) as (_ & _ & _ & _ & H).
    destruct (H eq_refl) as [Hl _]. exact Hl.
Defined.

(** C8. A result published by a burst worker never reports more
    acknowledgments than messages sent. *)
Theorem C8_received_le_sent (E : env) (client_id : nat) (n : Z) (r : WorkerResult) :
  In r (published (thread_trace (client_worker E client_id n))) ->
  r_received r <= r_sent r.
Proof.
  destruct (client_worker_summary E client_id n) as (r0 & _ & Hp & _ & Hle & _).
  rewrite Hp. intros [<-|[]]. exact Hle.
Qed.

(** C8 holds of the result of a worker that sends three messages to a
    server that acknowledges them. *)
Lemma C8_received_le_sent_witness :
  In (mkResult 4 3 3 0 0) (published (thread_trace (client_worker env_server_up 4 3))) /\
  r_received (mkResult 4 3 3 0 0) <= r_sent (mkResult 4 3 3 0 0).
Proof.
  assert (H : In (mkResult 4 3 3 0 0)
                (published (thread_trace (client_worker env_server_up 4 3))))
    by (vm_compute; left; reflexivity).
  split; [exact H|].
  exact (C8_received_le_sent env_server_up 4 3 (mkResult 4 3 3 0 0) H).
Defined.

(** ** Failures of the acknowledgment read *)

(** C10. When the write succeeds and the read raises anything but
    [socket.timeout], the iteration counts the message as sent and as a
    failed send: both locals grow by 1 and both updates are asked for.  A
    worker can therefore report more than its number of messages in
    [sent + failed_send]: against a server that resets the connection on
    every read, one message gives 1 + 1. *)
Theorem C10_read_error_counts_twice (E : env) (client_id i : nat) (s : wstate) (e : exn) :
  env_send E (n_send s) = Ok tt ->
  env_recv E (n_recv s) = Fails e ->
  is_socket_timeout e = false ->
  (let s' := fst (burst_iteration E client_id i s) in
   snd (burst_iteration E client_id i s) = Normal tt /\
   locals s' = mkLocals (sent (locals s) + 1) (received (locals s))
                        (failed_send (locals s) + 1) /\
   trace s' = trace s ++
     [EvSendall (burst_frame client_id i (choice_at E (n_choice s)));
      EvUpdate (mkDelta 1 0 0 0); EvSetTimeout 500; EvRecv 1024;
      EvUpdate (mkDelta 0 0 0 1)])
  /\
  (exists E0 r, published (thread_trace (client_worker E0 0 1)) = [r] /\
                1 < r_sent r + r_failed_send r).
Proof.
  intros Hsend Hrecv Hne. split.
  - cbn zeta. rewrite burst_iteration_eq. cbn [fst snd].
    rewrite after_iteration_trace. unfold after_iteration, iteration_events.
    cbn [locals]. unfold classify. rewrite Hsend, Hrecv, Hne.
    repeat split.
  - exists env_reset_on_read, (mkResult 0 1 0 0 1). split; [vm_compute|simpl; lia].
    reflexivity.
Qed.

(** C10 holds of a server that resets the connection on the read. *)
Lemma C10_read_error_counts_twice_witness :
  locals (fst (burst_iteration env_reset_on_read 0 0 w0)) = mkLocals 1 0 1.
Proof.
  pose proof (C10_read_error_counts_twice env_reset_on_read 0 0 w0 ConnectionResetError
                eq_refl eq_refl eq_refl) as [(_ & H & _) _].
  exact H.
Defined.

(** ** The controllers *)

Lemma extend_nil s : extend s [] = s.
Proof. destruct s. unfold extend; simpl. rewrite app_nil_r. reflexivity. Qed.

Lemma extend_extend s a b : extend (extend s a) b = extend s (a ++ b).
Proof. unfold extend; simpl. rewrite <- app_assoc. reflexivity. Qed.

Lemma for_each_emits (g : nat -> list event) (body : nat -> M unit) :
  (forall i s, body i s = (extend s (g i), Normal tt)) ->
  forall l s, for_each l body s = (extend s (flat_map g l), Normal tt).
Proof.
  intros Hb. induction l as [|i l IH]; intros s; simpl.
  - rewrite extend_nil. reflexivity.
  - rewrite Hb, IH, extend_extend. reflexivity.
Qed.

Lemma launch_clients_eq cfg s :
  launch_clients cfg s = (extend s (client_spawns cfg), Normal tt).
Proof.
  unfold launch_clients, client_spawns. apply for_each_emits.
  intros i s0. unfold extend. run_monad. monad_done.
Qed.

Lemma flat_map_singleton {A B} (g : A -> B) l : flat_map (fun x => [g x]) l = map g l.
Proof. induction l as [|x l IH]; simpl; [reflexivity|]. rewrite IH. reflexivity. Qed.

Lemma join_all_eq cfg s : join_all cfg s = (extend s (joins cfg), Normal tt).
Proof.
  unfold join_all, joins. rewrite <- flat_map_singleton. apply for_each_emits.
  intros i s0. reflexivity.
Qed.

Lemma launch_sustained_eq cfg end_time s :
  launch_sustained cfg end_time s =
    (extend s (map (fun i => EvSpawn T_sustained_client_worker i end_time)
                   (range (NUM_CLIENTS cfg))),
     Normal tt).
Proof.
  unfold launch_sustained. rewrite <- flat_map_singleton. apply for_each_emits.
  intros i s0. reflexivity.
Qed.

Lemma run_load_test_trace E cfg :
  thread_trace (run_load_test E cfg) = load_test_trace E cfg.
Proof.
  unfold thread_trace, run_load_test, probe, load_test_trace, load_test_body,
    probe_events, probe_abort, load_test_prelude.
  run_monad.
  destruct (env_socket E) as [[]|e]; simpl; [|reflexivity].
  destruct (env_connect E) as [[]|e]; simpl; [|reflexivity].
  destruct (env_close E) as [[]|e]; simpl; [|reflexivity].
  rewrite launch_clients_eq. simpl. rewrite join_all_eq. simpl.
  unfold final_report, report_event.
  destruct (bool_decide (env_clock E 1 - env_clock E 0 = 0));
    [|destruct (bool_decide (TOTAL_MESSAGES cfg = 0))];
    run_monad; rewrite <- ?app_assoc; reflexivity.
Qed.

Lemma bind_normal {A B} (c : M A) (k : A -> M B) s s' a :
  c s = (s', Normal a) -> (c ≫= k) s = k a s'.
Proof. intros H. unfold mbind, M_bind. rewrite H. reflexivity. Qed.

Lemma def_bind_normal {A B} (c : M A) (k : A -> M B) s s' a :
  c s = (s', Normal a) -> def (c ≫= k) s = def (k a) s'.
Proof. intros H. unfold def. rewrite (bind_normal _ _ _ _ _ H). reflexivity. Qed.

Lemma count_spawn_map tg arg l :
  count_ev is_spawn (map (fun i => EvSpawn tg i arg) l) = length l.
Proof. induction l as [|i l IH]; simpl; [reflexivity|]. rewrite IH. reflexivity. Qed.

Lemma count_spawn_clients cfg :
  count_ev is_spawn (client_spawns cfg) = Z.to_nat (NUM_CLIENTS cfg).
Proof.
  unfold client_spawns, range.
  transitivity (length (seq 0 (Z.to_nat (NUM_CLIENTS cfg)))); [|apply length_seq].
  induction (seq 0 (Z.to_nat (NUM_CLIENTS cfg))) as [|i l IH]; simpl; [reflexivity|].
  rewrite IH. reflexivity.
Qed.

Lemma count_spawn_joins cfg : count_ev is_spawn (joins cfg) = 0%nat.
Proof.
  unfold joins. induction (range (NUM_CLIENTS cfg)) as [|i l IH]; simpl; auto.
Qed.

(** The sustained controller opens no socket of its own, and starts its
    workers whatever the state of the server. *)
Lemma sustained_controller_silent p E fuel cfg d :
  p EvClock = false -> p EvPrintProgress = false -> p EvReport = false ->
  (forall t, p (EvPrint t) = false) -> (forall ms, p (EvSleep ms) = false) ->
  (forall i, p (EvJoin i) = false) -> (forall tg i a, p (EvSpawn tg i a) = false) ->
  silent p (run_sustained_load_test E fuel cfg d).
Proof.
  intros H1 H2 H3 H4 H5 H6 H7.
  unfold run_sustained_load_test, launch_sustained, progress_loop, join_all,
    before_deadline, print, sleep, call_print_progress, start_thread_for.
  repeat first
    [ apply silent_def | apply silent_bind | apply silent_for | apply silent_while
    | apply silent_ret | apply silent_time; assumption
    | apply silent_emit; auto | intro ].
Qed.

Lemma sustained_controller_spawns E fuel cfg d :
  count_ev is_spawn (thread_trace (run_sustained_load_test E fuel cfg d))
  = Z.to_nat (NUM_CLIENTS cfg).
Proof.
  unfold thread_trace, run_sustained_load_test.
  do 7 (erewrite def_bind_normal by reflexivity).
  erewrite def_bind_normal by reflexivity. cbn zeta.
  erewrite def_bind_normal by apply launch_sustained_eq.
  match goal with
  | |- count_ev _ (trace (fst (def ?c ?s0))) = _ =>
      assert (Hs : silent is_spawn c)
  end.
  { unfold progress_loop, join_all, before_deadline, sleep, call_print_progress.
    silence. }
  rewrite (silent_def _ _ Hs). unfold extend. cbn [trace].
  rewrite count_ev_app, count_spawn_map. unfold range. rewrite length_seq.
  reflexivity.
Qed.

(** *** The threads of a burst run *)

Lemma omap_spawned_clients envs mon fuel cfg :
  omap (spawned envs mon fuel) (client_spawns cfg) =
  map (fun i => thread_trace (client_worker (envs i) i (MESSAGES_PER_CLIENT cfg)))
      (range (NUM_CLIENTS cfg)).
Proof.
  unfold client_spawns. induction (range (NUM_CLIENTS cfg)) as [|i l IH]; [reflexivity|].
  cbn [flat_map map app]. rewrite <- IH. reflexivity.
Qed.

Lemma omap_spawned_joins envs mon fuel cfg :
  omap (spawned envs mon fuel) (joins cfg) = [].
Proof.
  unfold joins. induction (range (NUM_CLIENTS cfg)) as [|i l IH]; [reflexivity|].
  simpl. exact IH.
Qed.

Lemma report_event_cases E cfg :
  report_event E cfg = EvReport \/ exists line, report_event E cfg = EvReportCut line.
Proof.
  unfold report_event.
  destruct (bool_decide _); [right; eexists; reflexivity|].
  destruct (bool_decide _); [right; eexists; reflexivity|left; reflexivity].
Qed.

Lemma spawned_when_reachable E envs mon fuel cfg :
  probe_ok E ->
  omap (spawned envs mon fuel) (load_test_trace E cfg) =
  map (fun i => thread_trace (client_worker (envs i) i (MESSAGES_PER_CLIENT cfg)))
      (range (NUM_CLIENTS cfg))
  ++ [thread_trace (monitor_progress mon fuel)].
Proof.
  intros (H1 & H2 & H3). unfold load_test_trace, load_test_body.
  rewrite H1, H2, H3. rewrite !omap_app.
  rewrite omap_spawned_clients, omap_spawned_joins.
  destruct (report_event_cases E cfg) as [->|[line ->]]; reflexivity.
Qed.

Lemma spawned_when_unreachable E envs mon fuel cfg :
  ~ probe_ok E -> omap (spawned envs mon fuel) (load_test_trace E cfg) = [].
Proof.
  intros Hn. unfold load_test_trace.
  destruct (env_socket E) as [[]|e1] eqn:H1; [|reflexivity].
  destruct (env_connect E) as [[]|e2] eqn:H2; [|reflexivity].
  destruct (env_close E) as [[]|e3] eqn:H3; [|reflexivity].
  exfalso. apply Hn. repeat split; assumption.
Qed.

Lemma trace_ops_clients cfg : trace_ops (client_spawns cfg) = [].
Proof.
  unfold client_spawns. induction (range (NUM_CLIENTS cfg)) as [|i l IH]; [reflexivity|].
  simpl. exact IH.
Qed.

Lemma trace_ops_joins cfg : trace_ops (joins cfg) = [].
Proof.
  unfold joins. induction (range (NUM_CLIENTS cfg)) as [|i l IH]; [reflexivity|].
  simpl. exact IH.
Qed.

Lemma published_clients cfg : published (client_spawns cfg) = [].
Proof.
  unfold client_spawns. induction (range (NUM_CLIENTS cfg)) as [|i l IH]; [reflexivity|].
  simpl. exact IH.
Qed.

Lemma published_joins cfg : published (joins cfg) = [].
Proof.
  unfold joins. induction (range (NUM_CLIENTS cfg)) as [|i l IH]; [reflexivity|].
  simpl. exact IH.
Qed.

(** The controller of a burst run asks nothing of the lock machine before
    its final report, and puts nothing on the queue. *)
Lemma load_test_trace_quiet E cfg :
  trace_ops (load_test_trace E cfg) = [] /\ published (load_test_trace E cfg) = [].
Proof.
  unfold load_test_trace, load_test_body.
  destruct (env_socket E) as [[]|e1]; [|split; reflexivity].
  destruct (env_connect E) as [[]|e2]; [|split; reflexivity].
  destruct (env_close E) as [[]|e3]; [|split; reflexivity].
  split.
  - rewrite !trace_ops_app, trace_ops_clients, trace_ops_joins.
    destruct (report_event_cases E cfg) as [->|[line ->]]; reflexivity.
  - rewrite !published_app, published_clients, published_joins.
    destruct (report_event_cases E cfg) as [->|[line ->]]; reflexivity.
Qed.

Lemma run_stuck sched m : (forall t, step t m = None) -> run sched m = m.
Proof.
  intros H. induction sched as [|t sched IH]; simpl; [reflexivity|].
  rewrite H. exact IH.
Qed.

Lemma nothing_to_run sched : run sched (init_machine [[]]) = init_machine [[]].
Proof.
  apply run_stuck. intros [|t]; reflexivity.
Qed.

(** ** A burst run from any state *)

Lemma log_extend e s : log e s = extend s [e].
Proof. reflexivity. Qed.

Lemma def_bind_return {A B} (c : M A) (k : A -> M B) s s' :
  c s = (s', Return) -> def (c ≫= k) s = (s', Normal tt).
Proof. intros H. unfold def, mbind, M_bind. rewrite H. reflexivity. Qed.

Lemma probe_from E s :
  probe E s =
    match env_socket E with
    | Fails e => (extend s (EvSocket :: probe_abort E e), Return)
    | Ok _ =>
        match env_connect E with
        | Fails e =>
            (extend s ([EvSocket; EvSetTimeout 5000; EvConnect SERVER_HOST SERVER_PORT]
                         ++ probe_abort E e), Return)
        | Ok _ =>
            match env_close E with
            | Fails e => (extend s (probe_events ++ probe_abort E e), Return)
            | Ok _ => (extend s (probe_events ++ [EvPrint (check_mark +:+ " Server is reachable")]),
                       Normal tt)
            end
        end
    end.
Proof.
  unfold probe, probe_events, probe_abort, extend. run_monad.
  destruct (env_socket E) as [[]|e1]; simpl; [|monad_done].
  destruct (env_connect E) as [[]|e2]; simpl; [|monad_done].
  destruct (env_close E) as [[]|e3]; simpl; monad_done.
Qed.

Ltac norm_state :=
  cbn [extend log locals n_send n_recv n_choice n_clock n_alive trace].

Lemma final_report_from E cfg s :
  def (final_report cfg (env_clock E 1 - env_clock E 0)) s =
    (extend s [report_event E cfg],
     match report_event E cfg with
     | EvReport => Normal tt
     | _ => Raise ZeroDivisionError
     end).
Proof.
  unfold final_report, report_event.
  destruct (bool_decide (env_clock E 1 - env_clock E 0 = 0)); [reflexivity|].
  destruct (bool_decide (TOTAL_MESSAGES cfg = 0)); reflexivity.
Qed.

Lemma run_load_test_from E cfg s :
  n_clock s = 0%nat ->
  trace (fst (run_load_test E cfg s)) = trace s ++ load_test_trace E cfg /\
  snd (run_load_test E cfg s) = load_test_completion E cfg.
Proof.
  intros Hs. unfold run_load_test.
  do 9 (erewrite def_bind_normal by reflexivity; rewrite log_extend, ?extend_extend;
        cbn [app]).
  unfold load_test_trace, load_test_completion, load_test_body, load_test_prelude.
  match goal with |- context [def _ ?s1] => pose proof (probe_from E s1) as Hp end.
  destruct (env_socket E) as [[]|e1];
    [|erewrite def_bind_return by exact Hp; rewrite extend_extend;
      split; reflexivity].
  destruct (env_connect E) as [[]|e2];
    [|erewrite def_bind_return by exact Hp; rewrite extend_extend;
      split; reflexivity].
  destruct (env_close E) as [[]|e3];
    [|erewrite def_bind_return by exact Hp; rewrite extend_extend;
      split; reflexivity].
  erewrite def_bind_normal by exact Hp. rewrite extend_extend.
  erewrite def_bind_normal by reflexivity. rewrite log_extend, extend_extend.
  erewrite def_bind_normal by reflexivity. norm_state.
  erewrite def_bind_normal by apply launch_clients_eq. norm_state.
  erewrite def_bind_normal by reflexivity. norm_state.
  erewrite def_bind_normal by apply join_all_eq. norm_state.
  erewrite def_bind_normal by reflexivity. norm_state.
  rewrite Hs, final_report_from. cbn [fst snd]. unfold probe_events. norm_state.
  split; [|reflexivity].
  rewrite <- ?app_assoc. cbn [app]. reflexivity.
Qed.

(** ** The connectivity test *)

(** C4, as the program has it.  A burst run opens its test socket before
    it starts any thread; when the test fails the run prints its
    diagnostic (the text of the exception, then the advice to start the
    server on port 9090) and returns there: it starts no thread, and the
    counters stay at 0 under every schedule; when it starts threads, the
    whole test (socket, 5 s timeout, connect, close) has succeeded first.  A sustained run makes no
    test: its controller opens no socket and makes no connection, and it
    starts one worker per client whatever the state of the server. *)
Theorem C4_connectivity_test (E : env) (cfg : Config) :
  (probes_before_launch (thread_trace (run_load_test E cfg)) /\
   aborts_when_unreachable E (thread_trace (run_load_test E cfg)) /\
   ((0 < count_ev is_spawn (thread_trace (run_load_test E cfg)))%nat ->
    probe_ok E /\
    exists post,
      thread_trace (run_load_test E cfg) = load_test_prelude cfg ++ probe_events ++ post) /\
   (forall envs mon fuel sched,
      ~ probe_ok E ->
      globals (run sched (run_machine envs mon fuel (thread_trace (run_load_test E cfg))))
      = stats0) /\
   (~ probe_ok E ->
    snd (run_load_test E cfg w0) = Normal tt /\
    exists done e,
      done `prefix_of` probe_events /\
      (env_socket E = Fails e \/ env_connect E = Fails e \/ env_close E = Fails e) /\
      thread_trace (run_load_test E cfg) =
        load_test_prelude cfg ++ done ++
        [EvPrint (ballot_cross +:+ " Cannot connect to server: " +:+ env_str E e);
         EvPrint "Make sure the server is running on port 9090"]))
  /\
  (forall fuel d,
     count_ev is_socket (thread_trace (run_sustained_load_test E fuel cfg d)) = 0%nat /\
     count_ev is_connect (thread_trace (run_sustained_load_test E fuel cfg d)) = 0%nat /\
     count_ev is_spawn (thread_trace (run_sustained_load_test E fuel cfg d))
       = Z.to_nat (NUM_CLIENTS cfg)).
Proof.
  split.
  - pose proof (proj2 (run_load_test_from E cfg w0 eq_refl)) as Hend.
    rewrite run_load_test_trace. split; [|split; [|split; [|split]]].
    + unfold load_test_trace, probe_events.
      destruct (env_socket E) as [[]|e1];
        [destruct (env_connect E) as [[]|e2];
           [destruct (env_close E) as [[]|e3]|]|];
        exists (load_test_prelude cfg ++ [EvSocket]); eexists;
        (split; [rewrite <- app_assoc; reflexivity|split; [reflexivity|simpl; lia]]).
    + intros Hn. unfold load_test_trace.
      destruct (env_socket E) as [[]|e1] eqn:H1; [|reflexivity].
      destruct (env_connect E) as [[]|e2] eqn:H2; [|reflexivity].
      destruct (env_close E) as [[]|e3] eqn:H3; [|reflexivity].
      exfalso. apply Hn. repeat split; assumption.
    + unfold load_test_trace.
      destruct (env_socket E) as [[]|e1] eqn:H1;
        [|rewrite count_ev_app; cbn; lia].
      destruct (env_connect E) as [[]|e2] eqn:H2;
        [|rewrite count_ev_app; cbn; lia].
      destruct (env_close E) as [[]|e3] eqn:H3;
        [|rewrite count_ev_app; cbn; lia].
      intros _. split; [repeat split; assumption|]. eexists. reflexivity.
    + intros envs mon fuel sched Hn. unfold run_machine, run_threads.
      rewrite (spawned_when_unreachable E envs mon fuel cfg Hn).
      cbn [map]. rewrite (proj1 (load_test_trace_quiet E cfg)).
      rewrite nothing_to_run. reflexivity.
    + intros Hn. rewrite Hend. unfold load_test_completion, load_test_trace, probe_abort.
      destruct (env_socket E) as [[]|e1] eqn:H1.
      2: { split; [reflexivity|]. exists [EvSocket], e1.
           split; [eexists; reflexivity|]. split; [auto|reflexivity]. }
      destruct (env_connect E) as [[]|e2] eqn:H2.
      2: { split; [reflexivity|].
           exists [EvSocket; EvSetTimeout 5000; EvConnect SERVER_HOST SERVER_PORT], e2.
           split; [eexists; reflexivity|]. split; [auto|reflexivity]. }
      destruct (env_close E) as [[]|e3] eqn:H3.
      2: { split; [reflexivity|]. exists probe_events, e3.
           split; [exists []; rewrite app_nil_r; reflexivity|].
           split; [auto|reflexivity]. }
      exfalso. apply Hn. split; [|split]; assumption.
  - intros fuel d. split; [|split].
    + apply (sustained_controller_silent is_socket E fuel cfg d); reflexivity.
    + apply (sustained_controller_silent is_connect E fuel cfg d); reflexivity.
    + apply sustained_controller_spawns.
Qed.

(** C4 holds of a burst run with no server listening: the run says that
    the connection was refused and returns, no thread is started and the
    counters stay at 0. *)
Lemma C4_connectivity_test_witness :
  ~ probe_ok env_server_down /\
  count_ev is_spawn (thread_trace (run_load_test env_server_down default_config)) = 0%nat /\
  globals (run [1; 2; 1; 0]%nat
             (run_machine (fun _ => env_server_down) env_server_down 3
                (thread_trace (run_load_test env_server_down default_config))))
  = stats0 /\
  snd (run_load_test env_server_down default_config w0) = Normal tt /\
  In (EvPrint (ballot_cross +:+
               " Cannot connect to server: [Errno 111] Connection refused"))
     (thread_trace (run_load_test env_server_down default_config)).
Proof.
  assert (Hd : ~ probe_ok env_server_down) by (intros (_ & H & _); discriminate).
  destruct (C4_connectivity_test env_server_down default_config)
    as [(_ & Ha & _ & Hg & Hdiag) _].
  destruct (Hdiag Hd) as (Hend & done & e & _ & He & Ht).
  split; [exact Hd|]. split; [exact (Ha Hd)|]. split; [apply Hg; exact Hd|].
  split; [exact Hend|].
  assert (e = ConnectionRefusedError) as ->.
  { destruct He as [He|[He|He]]; [discriminate He|injection He; auto|discriminate He]. }
  rewrite Ht. apply in_or_app. right. apply in_or_app. right. left. reflexivity.
Defined.

(** C4 fails for the sustained mode: with no server listening, the
    sustained run makes no test (its trace cannot be cut after a test socket
    and before the first thread) and starts its hundred workers. *)
Lemma C4_sustained_run_starts_unprobed :
  let tr := thread_trace (run_sustained_load_test env_server_down 3 default_config 60) in
  ~ probe_ok env_server_down /\
  count_ev is_spawn tr = 100%nat /\
  ~ aborts_when_unreachable env_server_down tr /\
  ~ probes_before_launch tr.
Proof.
  cbn zeta.
  assert (Hd : ~ probe_ok env_server_down) by (intros (_ & H & _); discriminate).
  assert (Hn : count_ev is_spawn
                 (thread_trace (run_sustained_load_test env_server_down 3 default_config 60))
               = 100%nat) by (vm_compute; reflexivity).
  repeat split; try assumption.
  - intros H. specialize (H Hd). rewrite Hn in H. discriminate.
  - intros (pre & post & Ht & _ & Hs).
    assert (Hz : count_ev is_socket
                   (thread_trace (run_sustained_load_test env_server_down 3 default_config 60))
                 = 0%nat) by (vm_compute; reflexivity).
    rewrite Ht, count_ev_app in Hz. lia.
Qed.

(** ** The lock during the rendering of the progress line *)

(** C7, as the program has it.  [print_progress] prints inside its
    [with stats_lock:] block.  Whenever a thread stands at its [print], it
    holds the lock; every other thread is then unable to move, so that a
    worker that wants to update the counters waits for the end of the
    rendering; the values about to be printed are the effect of whole calls
    of [update_stats]; and the [print] itself leaves the lock held. *)
Theorem C7_render_under_lock (codes : list (list op)) (sched : list nat)
    (t : nat) (th : thread) :
  let m := run sched (init_machine codes) in
  threads m !! t = Some th ->
  pos th = AtPrint ->
  lock m = Some t /\
  (forall u, u <> t -> step u m = None) /\
  whole_calls codes (globals m) /\
  (exists m', step t m = Some m' /\ lock m' = Some t /\
              console m' = console m ++ [globals m]).
Proof.
  intros m Ht Hp.
  assert (Hinv : inv m) by apply inv_run, inv_init.
  assert (Hc : map code (threads m) = codes).
  { unfold m. rewrite run_codes. apply init_codes. }
  assert (Hl : lock m = Some t).
  { apply (inv_excl m Hinv t th Ht). rewrite Hp. discriminate. }
  pose proof (inv_wf m Hinv t th Ht) as Hwf. unfold wf_thread in Hwf.
  rewrite Hp in Hwf.
  split; [assumption|]. split; [|split].
  - intros u Hu. unfold step.
    destruct (threads m !! u) as [thu|] eqn:Htu; [|reflexivity].
    rewrite (others_idle m t Hinv (or_intror Hl) u thu Hu Htu), Hl.
    destruct (code thu !! ip thu) as [[]|]; reflexivity.
  - rewrite <- Hc. apply quiet_snapshot; [assumption|].
    intros i thi Hi f. destruct (decide (i = t)) as [->|Hne].
    + simplify_eq. apply partial_print. assumption.
    + apply partial_idle. apply (others_idle m t Hinv (or_intror Hl) i thi Hne Hi).
  - unfold step. rewrite Ht, Hwf, Hp. eexists. split; [reflexivity|].
    split; [exact Hl|reflexivity].
Qed.

(** C7 holds of a monitor and a worker, after the monitor has taken the
    lock and read the clock. *)
Lemma C7_render_under_lock_witness :
  lock (run [0; 0]%nat (init_machine [[OpPrint]; [OpUpdate (mkDelta 1 0 0 0)]])) = Some 0%nat
  /\ step 1 (run [0; 0]%nat (init_machine [[OpPrint]; [OpUpdate (mkDelta 1 0 0 0)]])) = None.
Proof.
  pose proof (C7_render_under_lock [[OpPrint]; [OpUpdate (mkDelta 1 0 0 0)]]
                [0; 0]%nat 0 (mkThread [OpPrint] 0 AtPrint) eq_refl eq_refl)
    as (Hl & Hb & _).
  split; [exact Hl|]. apply Hb. discriminate.
Defined.

(** C7 fails for the program: the monitor of a run and one of its workers, the
    monitor scheduled twice.  The monitor stands at its [print] with the
    lock in hand, and the worker cannot start its [update_stats]. *)
Lemma C7_monitor_prints_under_lock :
  let codes := [trace_ops (thread_trace (monitor_progress env_server_up 2));
                trace_ops (thread_trace (client_worker env_server_up 0 1))] in
  let m := run [0; 0]%nat (init_machine codes) in
  codes = [[OpPrint]; [OpUpdate (mkDelta 1 0 0 0); OpUpdate (mkDelta 0 1 0 0)]] /\
  threads m !! 0%nat = Some (mkThread [OpPrint] 0 AtPrint) /\
  lock m = Some 0%nat /\
  step 1 m = None /\
  ~ render_lock_free codes.
Proof.
  cbn zeta. repeat split; try (vm_compute; reflexivity).
  intros H.
  apply (H [0; 0]%nat 0%nat (mkThread [OpPrint] 0 AtPrint)); vm_compute; reflexivity.
Qed.

(** ** Totals of a burst run *)

Lemma probe_ok_dec E : {probe_ok E} + {~ probe_ok E}.
Proof.
  unfold probe_ok.
  destruct (env_socket E) as [[]|e1]; [|right; intros (H & _); discriminate].
  destruct (env_connect E) as [[]|e2]; [|right; intros (_ & H & _); discriminate].
  destruct (env_close E) as [[]|e3]; [|right; intros (_ & _ & H); discriminate].
  left. repeat split.
Qed.

Lemma no_update_total f tr :
  count_ev is_update tr = 0%nat -> code_total f (trace_ops tr) = 0.
Proof.
  unfold code_total. induction tr as [|e tr IH]; [reflexivity|].
  destruct e; cbn; try exact IH; discriminate.
Qed.

Lemma monitor_quiet E fuel :
  (forall f, code_total f (trace_ops (thread_trace (monitor_progress E fuel))) = 0) /\
  published (thread_trace (monitor_progress E fuel)) = [].
Proof.
  split.
  - intros f. apply no_update_total. unfold thread_trace.
    assert (H : silent is_update (monitor_progress E fuel)).
    { unfold monitor_progress, call_print_progress, sleep. silence. }
    rewrite H. reflexivity.
  - assert (H : silent is_put (monitor_progress E fuel)).
    { unfold monitor_progress, call_print_progress, sleep. silence. }
    specialize (H w0). rewrite !count_put_published in H. unfold thread_trace.
    destruct (published _); [reflexivity|discriminate].
Qed.

Lemma workers_grand_total envs n f l :
  grand_total f (map trace_ops
                   (map (fun i => thread_trace (client_worker (envs i) i n)) l))
  = sumZ (worker_total envs n f) l.
Proof.
  unfold grand_total. induction l as [|i l IH]; simpl; [reflexivity|].
  rewrite IH. reflexivity.
Qed.

Lemma workers_results envs n f l :
  sumZ (result_field f)
       (concat (map published
                  (map (fun i => thread_trace (client_worker (envs i) i n)) l)))
  = sumZ (worker_total envs n f) l.
Proof.
  induction l as [|i l IH]; simpl; [reflexivity|].
  rewrite sumZ_app, IH. unfold worker_total at 2.
  destruct (client_worker_summary (envs i) i n) as (r & _ & Hp & _ & _ & _ & Hf & _).
  rewrite Hp, Hf. simpl. lia.
Qed.

Lemma grand_total_app f c1 c2 :
  grand_total f (c1 ++ c2) = grand_total f c1 + grand_total f c2.
Proof. apply sumZ_app. Qed.

(** The counters of a burst run add up to what the clients asked for. *)
Lemma burst_grand_total E envs mon fuel cfg f :
  grand_total f (map trace_ops (run_threads envs mon fuel (load_test_trace E cfg)))
  = if probe_ok_dec E
    then sumZ (worker_total envs (MESSAGES_PER_CLIENT cfg) f) (range (NUM_CLIENTS cfg))
    else 0.
Proof.
  unfold run_threads. cbn [map].
  change (grand_total f (?c :: ?cs)) with (code_total f c + grand_total f cs).
  rewrite (proj1 (load_test_trace_quiet E cfg)).
  destruct (probe_ok_dec E) as [Hok|Hn].
  - rewrite (spawned_when_reachable E envs mon fuel cfg Hok).
    rewrite map_app, grand_total_app, workers_grand_total.
    cbn [map]. unfold grand_total at 1. cbn [sumZ].
    rewrite (proj1 (monitor_quiet mon fuel) f). unfold code_total. simpl. lia.
  - rewrite (spawned_when_unreachable E envs mon fuel cfg Hn). reflexivity.
Qed.

Lemma burst_results_total E envs mon fuel cfg f :
  sumZ (result_field f)
       (concat (map published (run_threads envs mon fuel (load_test_trace E cfg))))
  = if probe_ok_dec E
    then sumZ (worker_total envs (MESSAGES_PER_CLIENT cfg) f) (range (NUM_CLIENTS cfg))
    else 0.
Proof.
  unfold run_threads. cbn [map concat].
  rewrite (proj2 (load_test_trace_quiet E cfg)). cbn [app].
  destruct (probe_ok_dec E) as [Hok|Hn].
  - rewrite (spawned_when_reachable E envs mon fuel cfg Hok).
    rewrite map_app, concat_app, sumZ_app, workers_results.
    cbn [map concat]. rewrite (proj2 (monitor_quiet mon fuel)). simpl. lia.
  - rewrite (spawned_when_unreachable E envs mon fuel cfg Hn). reflexivity.
Qed.

Lemma run_machine_totals envs mon fuel main sched f :
  joined (run sched (run_machine envs mon fuel main)) = true ->
  get_field f (globals (run sched (run_machine envs mon fuel main)))
  = grand_total f (map trace_ops (run_threads envs mon fuel main)).
Proof.
  intros Hj. rewrite joined_totals; [|apply inv_run, inv_init|assumption].
  unfold run_machine. rewrite run_codes, init_codes. reflexivity.
Qed.

Lemma run_machine_joins envs mon fuel main sched :
  exists more, joined (run (sched ++ more) (run_machine envs mon fuel main)) = true.
Proof.
  destruct (machine_completes (run sched (run_machine envs mon fuel main)))
    as [more Hd]; [apply inv_run, inv_init|].
  exists more. rewrite run_app. apply all_done_joined. exact Hd.
Qed.

(** ** Counters and results *)

(** C9. In a burst run, once the workers have made all their calls, each
    counter equals the sum of the corresponding field of the results on
    the queue; and every execution reaches such a state. *)
Theorem C9_counters_match_results (E : env) (envs : nat -> env) (mon : env)
    (fuel : nat) (cfg : Config) (sched : list nat) :
  let main := thread_trace (run_load_test E cfg) in
  let m := run sched (run_machine envs mon fuel main) in
  let results := concat (map published (run_threads envs mon fuel main)) in
  (exists more, joined (run (sched ++ more) (run_machine envs mon fuel main)) = true) /\
  (joined m = true ->
   total_sent (globals m) = sumZ r_sent results /\
   total_received (globals m) = sumZ r_received results /\
   failed_connections (globals m) = sumZ r_failed_connection results /\
   failed_sends (globals m) = sumZ r_failed_send results).
Proof.
  cbn zeta. split; [apply run_machine_joins|].
  intros Hj.
  assert (H : forall f,
    get_field f (globals (run sched (run_machine envs mon fuel
                                       (thread_trace (run_load_test E cfg)))))
    = sumZ (result_field f)
        (concat (map published
                   (run_threads envs mon fuel (thread_trace (run_load_test E cfg)))))).
  { intros f. rewrite run_machine_totals by assumption.
    rewrite run_load_test_trace, burst_grand_total, burst_results_total. reflexivity. }
  repeat split.
  - exact (H F_sent).
  - exact (H F_received).
  - exact (H F_failed_conn).
  - exact (H F_failed_send).
Qed.

(** C9 holds of a run of two clients and five messages: two results, each
    with two messages sent. *)
Lemma C9_counters_match_results_witness :
  total_sent (globals (run sample_schedule sample_run)) = 4 /\
  total_received (globals (run sample_schedule sample_run)) = 4.
Proof.
  pose proof (C9_counters_match_results env_server_up (fun _ => env_server_up)
                env_server_up 2 (mkConfig 5 2 (5 / 2)) sample_schedule) as [_ H].
  destruct (H eq_refl) as (Hs & Hr & _). split.
  - etransitivity; [exact Hs|]. vm_compute. reflexivity.
  - etransitivity; [exact Hr|]. vm_compute. reflexivity.
Defined.

(** ** The bound on a burst run *)

Lemma worker_sent_bounds envs n i :
  0 <= worker_total envs n F_sent i <= Z.max 0 n.
Proof.
  unfold worker_total.
  destruct (client_worker_summary (envs i) i n) as (r & _ & _ & _ & _ & Hb & Hf & _).
  rewrite (Hf F_sent). exact Hb.
Qed.

Lemma worker_sent_all envs n i :
  connected (envs i) -> writes_succeed (envs i) ->
  worker_total envs n F_sent i = Z.max 0 n.
Proof.
  intros Hc Hw. unfold worker_total.
  destruct (client_worker_summary (envs i) i n) as (r & _ & _ & _ & _ & _ & Hf & Ha & _).
  rewrite (Hf F_sent). exact (Ha Hc Hw).
Qed.

Lemma sumZ_bounds {A} (g : A -> Z) (b : Z) (l : list A) :
  (forall x, 0 <= g x <= b) -> 0 <= sumZ g l <= Z.of_nat (length l) * b.
Proof.
  intros H. induction l as [|x l IH]; [simpl; lia|].
  cbn [sumZ length]. specialize (H x). nia.
Qed.

Lemma sumZ_const (g : nat -> Z) (b : Z) (l : list nat) :
  (forall x, In x l -> g x = b) -> sumZ g l = Z.of_nat (length l) * b.
Proof.
  intros H. induction l as [|x l IH]; [simpl; lia|].
  cbn [sumZ length]. rewrite (H x) by (left; reflexivity).
  rewrite IH by (intros y Hy; apply H; right; exact Hy). lia.
Qed.

Lemma in_range i n : In i (range n) -> (i < Z.to_nat n)%nat.
Proof. unfold range. intros H. apply in_seq in H. lia. Qed.

(** C3. A burst run configured with [total] messages for [num] clients:
    each client is given [total // num] messages.  Once the workers have
    made all their calls, [total_sent] is at most [num * (total // num)],
    and is exactly that when the connectivity test, every connection and
    every write succeed.  A worker that got its connection attempts exactly
    [total // num] writes, one per iteration, and an iteration adds at most
    1 to [sent].  Every execution reaches a state in which the workers have
    made all their calls. *)
Theorem C3_burst_bound (E : env) (envs : nat -> env) (mon : env) (fuel : nat)
    (total num : Z) (cfg : Config) (sched : list nat) :
  0 < num -> 0 <= total ->
  custom_config total num = Some cfg ->
  let N := NUM_CLIENTS cfg in
  let M := MESSAGES_PER_CLIENT cfg in
  let main := thread_trace (run_load_test E cfg) in
  let m := run sched (run_machine envs mon fuel main) in
  (N = num /\ M = total / num) /\
  (exists more, joined (run (sched ++ more) (run_machine envs mon fuel main)) = true) /\
  (joined m = true ->
     total_sent (globals m) <= N * M /\
     (probe_ok E ->
      (forall i, (i < Z.to_nat N)%nat -> connected (envs i) /\ writes_succeed (envs i)) ->
      total_sent (globals m) = N * M)) /\
  (forall i, connected (envs i) ->
     count_ev is_sendall (thread_trace (client_worker (envs i) i M)) = Z.to_nat M) /\
  (forall E' client_id i s,
     sent (locals s) <= sent (locals (fst (burst_iteration E' client_id i s)))
       <= sent (locals s) + 1 /\
     count_ev is_sendall (trace (fst (burst_iteration E' client_id i s)))
       = S (count_ev is_sendall (trace s))).
Proof.
  intros Hnum Htotal Hcfg. unfold custom_config in Hcfg.
  destruct (num =? 0) eqn:Hz; [apply Z.eqb_eq in Hz; lia|].
  injection Hcfg as <-.
  cbn zeta. cbn [NUM_CLIENTS MESSAGES_PER_CLIENT].
  assert (HM : 0 <= total / num) by (apply Z.div_pos; lia).
  split; [split; reflexivity|].
  split; [apply run_machine_joins|]. split; [|split].
  - intros Hj.
    pose proof (run_machine_totals envs mon fuel _ sched F_sent Hj) as Ht.
    cbn [get_field] in Ht. rewrite Ht, run_load_test_trace, burst_grand_total.
    cbn [NUM_CLIENTS MESSAGES_PER_CLIENT].
    destruct (probe_ok_dec E) as [Hok|Hn].
    + split.
      * pose proof (sumZ_bounds (worker_total envs (total / num) F_sent)
                      (Z.max 0 (total / num)) (range num)
                      (worker_sent_bounds envs (total / num))) as Hb.
        rewrite length_range in Hb. nia.
      * intros _ Hall.
        rewrite (sumZ_const _ (Z.max 0 (total / num))).
        { rewrite length_range. nia. }
        intros i Hi. apply in_range in Hi.
        destruct (Hall i Hi) as [Hc Hw]. apply worker_sent_all; assumption.
    + split; [nia|]. intros Hok. contradiction.
  - intros i Hc.
    destruct (client_worker_summary (envs i) i (total / num))
      as (r & _ & _ & _ & _ & _ & _ & _ & Hn).
    exact (Hn Hc).
  - intros E' client_id i s. rewrite burst_iteration_eq. cbn [fst].
    rewrite after_iteration_trace, count_ev_app.
    unfold after_iteration, iteration_events. cbn [locals sent].
    destruct (classify E' s); simpl; lia.
Qed.

(** C3 holds of a run of two clients and five messages against a server
    that accepts everything: 4 messages are sent, the fifth is never
    planned. *)
Lemma C3_burst_bound_witness :
  0 < 2 /\ 0 <= 5 /\
  joined (run sample_schedule sample_run) = true /\
  total_sent (globals (run sample_schedule sample_run)) = 2 * (5 / 2).
Proof.
  assert (H1 : 0 < 2) by lia. assert (H2 : 0 <= 5) by lia.
  assert (Hj : joined (run sample_schedule sample_run) = true)
    by (vm_compute; reflexivity).
  split; [exact H1|]. split; [exact H2|]. split; [exact Hj|].
  pose proof (C3_burst_bound env_server_up (fun _ => env_server_up) env_server_up 2
                5 2 (mkConfig 5 2 (5 / 2)) sample_schedule H1 H2 eq_refl)
    as (_ & _ & H & _).
  apply (H Hj).
  - repeat split.
  - intros i _. repeat split.
Defined.

(* ================================================================== *)
(** * Part III: further properties of the program *)
(* ================================================================== *)

(** ** The lock *)

Lemma reachable_inv codes sched : inv (run sched (init_machine codes)).
Proof. apply inv_run, inv_init. Qed.

Lemma reachable_codes codes sched :
  map code (threads (run sched (init_machine codes))) = codes.
Proof. rewrite run_codes. apply init_codes. Qed.

(** X1. Mutual exclusion.  In every state that a schedule can reach, a
    thread that is inside a [with stats_lock:] block, of [update_stats] or
    of [print_progress], holds the lock; every other thread stands before
    its own block and cannot move. *)
Theorem X1_mutual_exclusion (codes : list (list op)) (sched : list nat)
    (i : nat) (thi : thread) :
  let m := run sched (init_machine codes) in
  threads m !! i = Some thi ->
  inside thi ->
  lock m = Some i /\
  (forall j thj, threads m !! j = Some thj -> inside thj -> j = i) /\
  (forall j, j <> i -> step j m = None).
Proof.
  intros m Hi Hin. pose proof (reachable_inv codes sched) as Hinv. fold m in Hinv.
  assert (Hl : lock m = Some i) by exact (inv_excl m Hinv i thi Hi Hin).
  split; [exact Hl|]. split.
  - intros j thj Hj Hjn. pose proof (inv_excl m Hinv j thj Hj Hjn). congruence.
  - intros j Hne. unfold step.
    destruct (threads m !! j) as [thj|] eqn:Hj; [|reflexivity].
    rewrite (others_idle m i Hinv (or_intror Hl) j thj Hne Hj), Hl.
    destruct (code thj !! ip thj) as [[]|]; reflexivity.
Qed.

(** X1 holds of three threads after the first has taken the lock and
    loaded a counter: the second cannot enter. *)
Lemma X1_mutual_exclusion_witness :
  lock (run [0; 0; 1; 2]%nat (init_machine sample_codes)) = Some 0%nat /\
  step 1 (run [0; 0; 1; 2]%nat (init_machine sample_codes)) = None.
Proof.
  pose proof (X1_mutual_exclusion sample_codes [0; 0; 1; 2]%nat 0
                (mkThread [OpUpdate (mkDelta 1 0 0 0); OpUpdate (mkDelta 0 1 0 0)]
                          0 (AtStore F_sent 0))
                eq_refl) as H.
  destruct H as (Hl & _ & Hb); [discriminate|].
  split; [exact Hl|]. apply Hb. discriminate.
Defined.

(** ** Counters that only grow *)

Lemma sumZ_nonneg_Forall {A} (g : A -> Z) (l : list A) :
  Forall (fun x => 0 <= g x) l -> 0 <= sumZ g l.
Proof. induction 1; simpl; lia. Qed.

Lemma sumZ_le {A} (g h : A -> Z) (l : list A) :
  Forall (fun x => g x <= h x) l -> sumZ g l <= sumZ h l.
Proof. induction 1; simpl; lia. Qed.

Lemma code_total_nonneg f c : Forall nonneg_op c -> 0 <= code_total f c.
Proof.
  intros H. apply sumZ_nonneg_Forall.
  eapply Forall_impl; [exact H|]. intros o Ho. apply Ho.
Qed.

Lemma partial_bounds f th o :
  code th !! ip th = Some o -> nonneg_op o -> 0 <= partial f th <= op_delta f o.
Proof.
  intros Ho Hn. unfold partial. rewrite Ho. specialize (Hn f).
  destruct o as [d|]; simpl in *; [|destruct (pos th); lia].
  destruct (pos th) as [|f'|f' tmp| | |]; try lia;
    destruct (field_index f <? field_index f')%nat; lia.
Qed.

Lemma credited_bounds f th :
  Forall nonneg_op (code th) -> 0 <= credited f th <= code_total f (code th).
Proof.
  intros Hn. unfold credited.
  pose proof (code_total_nonneg f _ (Forall_take _ (ip th) _ Hn)) as H1.
  pose proof (code_total_nonneg f _ (Forall_drop _ (ip th) _ Hn)) as H2.
  assert (Hs : code_total f (code th)
               = code_total f (take (ip th) (code th))
                 + code_total f (drop (ip th) (code th))).
  { rewrite <- (take_drop (ip th) (code th)) at 1. apply sumZ_app. }
  destruct (code th !! ip th) as [o|] eqn:Ho.
  - assert (Hno : nonneg_op o).
    { eapply Forall_lookup_1; eauto. }
    pose proof (partial_bounds f th o Ho Hno) as Hp.
    rewrite (drop_S _ _ _ Ho) in Hs, H2.
    pose proof (code_total_nonneg f _ (Forall_drop _ (S (ip th)) _ Hn)) as H3.
    unfold code_total in *. simpl in Hs. lia.
  - unfold partial. rewrite Ho. lia.
Qed.

Lemma Forall_codes_threads (P : list op -> Prop) codes sched :
  Forall P codes -> Forall (fun th => P (code th)) (threads (run sched (init_machine codes))).
Proof.
  intros H. rewrite <- (reachable_codes codes sched) in H.
  exact (proj1 (List.Forall_map code P _) H).
Qed.

Lemma credited_sum_bounds f (ths : list thread) :
  Forall (fun th => Forall nonneg_op (code th)) ths ->
  0 <= sumZ (credited f) ths <= grand_total f (map code ths).
Proof.
  unfold grand_total. induction 1 as [|th ths Hh Ht IH]; simpl; [lia|].
  pose proof (credited_bounds f th Hh). lia.
Qed.

(** Every counter lies between 0 and the sum of all the deltas. *)
Lemma counters_bounded codes sched f :
  nonneg_codes codes ->
  0 <= get_field f (globals (run sched (init_machine codes))) <= grand_total f codes.
Proof.
  intros Hn. pose proof (reachable_inv codes sched) as Hinv.
  rewrite (inv_sum _ Hinv f).
  pose proof (credited_sum_bounds f _ (Forall_codes_threads _ codes sched Hn)) as H.
  rewrite reachable_codes in H. exact H.
Qed.

Lemma step_grows m t m' :
  inv m -> Forall (fun th => Forall nonneg_op (code th)) (threads m) ->
  step t m = Some m' ->
  stats_le (globals m) (globals m') /\
  (console m' = console m \/ console m' = console m ++ [globals m]).
Proof.
  intros Hinv Hn Hs. unfold step in Hs.
  destruct (threads m !! t) as [th|] eqn:Ht; [|discriminate].
  destruct (code th !! ip th) as [o|] eqn:Ho; [|discriminate].
  assert (Hno : nonneg_op o).
  { eapply Forall_lookup_1; [|exact Ho].
    eapply (Forall_lookup_1 _ _ _ _ Hn Ht). }
  assert (Hrefl : stats_le (globals m) (globals m)) by (intros f; lia).
  destruct o as [d|]; destruct (pos th) as [|f|f tmp| | |] eqn:Hp;
    try discriminate;
    try (destruct (lock m); [discriminate|]);
    injection Hs as <-; simpl; try (split; [exact Hrefl|auto]).
  pose proof (inv_tmp m Hinv t th f tmp Ht Hp) as ->.
  split; [|auto]. intros f0. rewrite get_set_field.
  destruct (decide (f0 = f)) as [->|]; [|lia].
  specialize (Hno f). simpl in Hno. lia.
Qed.

Lemma run_grows sched : forall m,
  inv m -> Forall (fun th => Forall nonneg_op (code th)) (threads m) ->
  stats_le (globals m) (globals (run sched m)) /\
  exists extra, console (run sched m) = console m ++ extra /\
                Forall (stats_le (globals m)) extra.
Proof.
  induction sched as [|t sched IH]; intros m Hinv Hn; simpl.
  - split; [intros f; lia|]. exists []. rewrite app_nil_r. auto.
  - destruct (step t m) as [m'|] eqn:Hs; [|apply IH; assumption].
    destruct (step_grows m t m' Hinv Hn Hs) as [Hle Hc].
    assert (Hinv' : inv m') by (eapply inv_step; eauto).
    assert (Hn' : Forall (fun th => Forall nonneg_op (code th)) (threads m')).
    { apply (proj1 (List.Forall_map code (Forall nonneg_op) _)).
      rewrite (step_codes m t m' Hs).
      exact (proj2 (List.Forall_map code (Forall nonneg_op) _) Hn). }
    destruct (IH m' Hinv' Hn') as [Hle' (extra & He & Hf)].
    split; [intros f; specialize (Hle f); specialize (Hle' f); lia|].
    assert (Hf' : Forall (stats_le (globals m)) extra).
    { eapply Forall_impl; [exact Hf|]. intros l Hl f.
      specialize (Hle f); specialize (Hl f); lia. }
    destruct Hc as [Hc|Hc]; rewrite Hc in He.
    + exists extra. auto.
    + exists (globals m :: extra). rewrite <- app_assoc in He. split; [exact He|].
      constructor; [intros f; lia|exact Hf'].
Qed.

Lemma run_console_below sched : forall m,
  inv m -> Forall (fun th => Forall nonneg_op (code th)) (threads m) ->
  Forall (fun l => stats_le l (globals m)) (console m) ->
  Forall (fun l => stats_le l (globals (run sched m))) (console (run sched m)).
Proof.
  induction sched as [|t sched IH]; intros m Hinv Hn Hc; simpl; [assumption|].
  destruct (step t m) as [m'|] eqn:Hs; [|apply IH; assumption].
  destruct (step_grows m t m' Hinv Hn Hs) as [Hle Hcm].
  apply IH.
  - eapply inv_step; eauto.
  - apply (proj1 (List.Forall_map code (Forall nonneg_op) _)).
    rewrite (step_codes m t m' Hs).
    exact (proj2 (List.Forall_map code (Forall nonneg_op) _) Hn).
  - assert (Hold : Forall (fun l => stats_le l (globals m')) (console m)).
    { eapply Forall_impl; [exact Hc|]. intros l Hl f.
      specialize (Hl f); specialize (Hle f); lia. }
    destruct Hcm as [->| ->]; [exact Hold|].
    apply Forall_app. split; [exact Hold|]. constructor; [exact Hle|constructor].
Qed.

(** X2. When no call takes anything away (as in the program, where every
    delta is 0 or 1), the counters only grow: at every instant each counter
    lies between 0 and the sum of all deltas, a longer execution shows
    counters at least as large, and the progress lines it prints show at
    least what the earlier lines showed. *)
Theorem X2_counters_only_grow (codes : list (list op)) (s1 s2 : list nat) :
  nonneg_codes codes ->
  let m1 := run s1 (init_machine codes) in
  let m2 := run (s1 ++ s2) (init_machine codes) in
  (forall f, 0 <= get_field f (globals m1) <= grand_total f codes) /\
  stats_le (globals m1) (globals m2) /\
  (exists later,
     console m2 = console m1 ++ later /\
     forall old new, In old (console m1) -> In new later -> stats_le old new).
Proof.
  intros Hn m1 m2.
  pose proof (reachable_inv codes s1) as Hinv. fold m1 in Hinv.
  pose proof (Forall_codes_threads _ codes s1 Hn) as Hth. fold m1 in Hth.
  split; [intros f; apply counters_bounded; assumption|].
  unfold m2. rewrite run_app. fold m1.
  destruct (run_grows s2 m1 Hinv Hth) as [Hle (later & Hc & Hl)].
  split; [exact Hle|]. exists later. split; [exact Hc|].
  intros old new Ho Hnew f.
  assert (Hb : Forall (fun l => stats_le l (globals m1)) (console m1)).
  { unfold m1. apply run_console_below.
    - apply inv_init.
    - pose proof (Forall_codes_threads _ codes [] Hn) as H0. exact H0.
    - constructor. }
  rewrite List.Forall_forall in Hb, Hl.
  specialize (Hb old Ho f). specialize (Hl new Hnew f). lia.
Qed.

(** X2 holds of three threads that take turns: after ten steps
    [total_sent] is 1, and at the end it is 2. *)
Lemma X2_counters_only_grow_witness :
  nonneg_codes sample_codes /\
  stats_le (globals (run (take 10 round_robin) (init_machine sample_codes)))
           (globals (run (take 10 round_robin ++ drop 10 round_robin)
                         (init_machine sample_codes))).
Proof.
  assert (Hn : nonneg_codes sample_codes).
  { repeat constructor; intros f; destruct f; simpl; lia. }
  split; [exact Hn|].
  exact (proj1 (proj2 (X2_counters_only_grow sample_codes (take 10 round_robin)
                         (drop 10 round_robin) Hn))).
Defined.

(** ** The progress of a burst run *)

Ltac silence_all :=
  repeat first
    [ apply silent_def
    | apply silent_bind
    | apply silent_try
    | apply silent_for
    | apply silent_while
    | apply silent_ret
    | apply silent_get_locals
    | apply silent_set_locals
    | apply silent_return
    | apply silent_raise
    | apply silent_break
    | apply silent_choice
    | apply silent_alive
    | apply silent_sendall; reflexivity
    | apply silent_recv; reflexivity
    | apply silent_time; reflexivity
    | apply silent_answer; reflexivity
    | apply silent_emit; reflexivity
    | match goal with
      | |- silent _ (if ?b then _ else _) => destruct b
      end
    | intro ].

Ltac unfold_program :=
  unfold client_worker, burst_iteration, read_ack, sustained_client_worker,
    sustained_iteration, monitor_progress, run_load_test, run_sustained_load_test,
    probe, final_report, launch_clients, launch_sustained, join_all, progress_loop,
    before_deadline, socket_socket, connect, close, settimeout, sleep, print,
    call_update_stats, call_print_progress, result_queue_put, start_thread_for.

Lemma count_zero_In p tr e : count_ev p tr = 0%nat -> In e tr -> p e = false.
Proof.
  induction tr as [|e0 tr IH]; simpl; [tauto|].
  intros H [<-|Hin].
  - destruct (p e0); [discriminate|reflexivity].
  - apply IH; [|exact Hin]. destruct (p e0); [discriminate|exact H].
Qed.

Lemma thread_trace_silent p (body : wstate -> wstate * completion unit) :
  silent p body -> count_ev p (thread_trace body) = 0%nat.
Proof. intros H. unfold thread_trace. rewrite H. reflexivity. Qed.

Lemma no_negative_nonneg tr :
  count_ev is_negative_update tr = 0%nat -> Forall nonneg_op (trace_ops tr).
Proof.
  induction tr as [|e tr IH]; [constructor|].
  destruct e; cbn; try exact IH.
  - destruct (_ || _) eqn:Hb; [discriminate|]. intros H.
    constructor; [|exact (IH H)].
    apply orb_false_elim in Hb as [Hb H4].
    apply orb_false_elim in Hb as [Hb H3].
    apply orb_false_elim in Hb as [H1 H2].
    apply Z.ltb_ge in H1, H2, H3, H4.
    intros f; destruct f; simpl; assumption.
  - intros H. constructor; [|exact (IH H)]. intros f; simpl; lia.
Qed.

Lemma client_worker_never_negative E client_id n :
  silent is_negative_update (client_worker E client_id n).
Proof. unfold_program. silence_all. Qed.

Lemma sustained_worker_never_negative E fuel client_id end_time :
  silent is_negative_update (sustained_client_worker E fuel client_id end_time).
Proof. unfold_program. silence_all. Qed.

Lemma monitor_never_negative E fuel : silent is_negative_update (monitor_progress E fuel).
Proof. unfold_program. silence_all. Qed.

Lemma run_load_test_never_negative E cfg : silent is_negative_update (run_load_test E cfg).
Proof. unfold_program. silence_all. Qed.

Lemma run_sustained_never_negative E fuel cfg d :
  silent is_negative_update (run_sustained_load_test E fuel cfg d).
Proof. unfold_program. silence_all. Qed.

(** Whatever the controller starts, no thread of a run ever asks for a
    negative update. *)
Lemma run_threads_nonneg envs mon fuel main :
  count_ev is_negative_update main = 0%nat ->
  nonneg_codes (map trace_ops (run_threads envs mon fuel main)).
Proof.
  intros Hm. unfold nonneg_codes, run_threads. cbn [map]. constructor.
  - apply no_negative_nonneg, Hm.
  - apply List.Forall_map. apply List.Forall_forall. intros tr Htr.
    apply list_elem_of_In, list_elem_of_omap in Htr. destruct Htr as (e & _ & He).
    apply no_negative_nonneg.
    destruct e as [| | | | | | | | | | | |tg i a| | | |]; try discriminate.
    destruct tg; injection He as <-; apply thread_trace_silent.
    + apply client_worker_never_negative.
    + apply sustained_worker_never_negative.
    + apply monitor_never_negative.
Qed.

Lemma burst_sent_total_bound E envs mon fuel total num :
  0 < num -> 0 <= total ->
  grand_total F_sent
    (map trace_ops
       (run_threads envs mon fuel (load_test_trace E (mkConfig total num (total / num)))))
  <= num * (total / num).
Proof.
  intros Hnum Htotal. rewrite burst_grand_total. cbn [NUM_CLIENTS MESSAGES_PER_CLIENT].
  assert (HM : 0 <= total / num) by (apply Z.div_pos; lia).
  destruct (probe_ok_dec E); [|nia].
  pose proof (sumZ_bounds (worker_total envs (total / num) F_sent)
                (Z.max 0 (total / num)) (range num)
                (worker_sent_bounds envs (total / num))) as Hb.
  rewrite length_range in Hb. nia.
Qed.

Lemma console_nonneg codes sched :
  nonneg_codes codes ->
  Forall (stats_le stats0) (console (run sched (init_machine codes))).
Proof.
  intros Hn.
  destruct (run_grows sched (init_machine codes) (inv_init codes)
              (Forall_codes_threads _ codes [] Hn)) as [_ (extra & He & Hf)].
  rewrite He. exact Hf.
Qed.

(** X3. A burst run configured with [total] messages for [num] clients
    plans [num * (total // num)] messages, which is [total] less the
    remainder of the division; at every instant of the run, under every
    schedule and whatever the network does, [total_sent] stays within that
    plan, and so does the [Sent] figure of every progress line printed. *)
Theorem X3_progress_within_plan (E : env) (envs : nat -> env) (mon : env)
    (fuel : nat) (total num : Z) (cfg : Config) (sched : list nat) :
  0 < num -> 0 <= total ->
  custom_config total num = Some cfg ->
  let plan := NUM_CLIENTS cfg * MESSAGES_PER_CLIENT cfg in
  let m := run sched (run_machine envs mon fuel (thread_trace (run_load_test E cfg))) in
  plan = total - total mod num /\
  plan <= total /\
  0 <= total_sent (globals m) <= plan /\
  (forall line, In line (console m) -> 0 <= total_sent line <= plan).
Proof.
  intros Hnum Htotal Hcfg. unfold custom_config in Hcfg.
  destruct (num =? 0) eqn:Hz; [apply Z.eqb_eq in Hz; lia|].
  injection Hcfg as <-. cbn zeta. cbn [NUM_CLIENTS MESSAGES_PER_CLIENT].
  pose proof (Z.div_mod total num ltac:(lia)) as Hdm.
  pose proof (Z.mod_pos_bound total num Hnum) as Hmod.
  split; [lia|]. split; [lia|].
  set (cfg := mkConfig total num (total / num)).
  set (codes := map trace_ops
                  (run_threads envs mon fuel (thread_trace (run_load_test E cfg)))).
  assert (Hn : nonneg_codes codes).
  { apply run_threads_nonneg, thread_trace_silent, run_load_test_never_negative. }
  assert (Hg : grand_total F_sent codes <= num * (total / num)).
  { unfold codes. rewrite run_load_test_trace.
    apply burst_sent_total_bound; assumption. }
  pose proof (counters_bounded codes sched F_sent Hn) as Hb. cbn [get_field] in Hb.
  unfold run_machine. fold codes.
  split; [lia|].
  intros line Hl.
  assert (Hbelow : Forall (fun l => stats_le l (globals (run sched (init_machine codes))))
                          (console (run sched (init_machine codes)))).
  { apply run_console_below.
    - apply inv_init.
    - exact (Forall_codes_threads _ codes [] Hn).
    - constructor. }
  rewrite List.Forall_forall in Hbelow. specialize (Hbelow line Hl F_sent).
  cbn [get_field] in Hbelow.
  pose proof (console_nonneg codes sched Hn) as Hpos.
  rewrite List.Forall_forall in Hpos. specialize (Hpos line Hl F_sent).
  unfold stats0 in Hpos. simpl in Hpos, Hbelow. lia.
Qed.

(** X3 holds of a run of two clients and five messages: four messages
    are planned. *)
Lemma X3_progress_within_plan_witness :
  0 < 2 /\ 0 <= 5 /\
  0 <= total_sent (globals (run (take 30 sample_schedule) sample_run)) <= 2 * (5 / 2).
Proof.
  assert (H1 : 0 < 2) by lia. assert (H2 : 0 <= 5) by lia.
  split; [exact H1|]. split; [exact H2|].
  exact (proj1 (proj2 (proj2
           (X3_progress_within_plan env_server_up (fun _ => env_server_up) env_server_up
              2 5 2 (mkConfig 5 2 (5 / 2)) (take 30 sample_schedule) H1 H2 eq_refl)))).
Defined.

(** ** The burst worker on the wire *)

Lemma sent_data_app tr1 tr2 : sent_data (tr1 ++ tr2) = sent_data tr1 ++ sent_data tr2.
Proof. apply omap_app. Qed.

Lemma sent_data_kind k : sent_data (kind_events k) = [].
Proof. destruct k; reflexivity. Qed.

Lemma after_loop_frames E client_id n : forall a s,
  sent_data (trace (after_loop E client_id (seq a n) s)) =
  sent_data (trace s) ++
  map (fun j => burst_frame client_id (a + j) (choice_at E (n_choice s + j))) (seq 0 n).
Proof.
  induction n as [|n IH]; intros a s; simpl.
  - rewrite app_nil_r. reflexivity.
  - rewrite IH, after_iteration_trace, sent_data_app. unfold iteration_events.
    change (sent_data (EvSendall ?d :: ?l)) with (d :: sent_data l).
    rewrite sent_data_kind, <- app_assoc. simpl. f_equal. f_equal.
    + rewrite !Nat.add_0_r. reflexivity.
    + rewrite <- seq_shift, map_map. apply map_ext. intros j.
      rewrite !Nat.add_succ_r. reflexivity.
Qed.

Lemma choice_in_catalog E k : In (choice_at E k) SAMPLE_MESSAGES.
Proof.
  unfold choice_at. apply nth_In. apply Nat.mod_upper_bound. discriminate.
Qed.

(** X4. A burst worker that got its connection hands to [sendall], in
    this order and once each, the frames of the messages 0, 1, ..., up to
    its number of messages: a message whose write failed is not sent again,
    and none is skipped.  The text of each frame is one of the ten sample
    messages. *)
Theorem X4_frames_in_order (E : env) (client_id : nat) (n : Z) :
  connected E ->
  sent_data (thread_trace (client_worker E client_id n)) =
    map (fun i => burst_frame client_id i (choice_at E i)) (range n) /\
  (forall i, In (choice_at E i) SAMPLE_MESSAGES).
Proof.
  intros Hc. split; [|intros i; apply choice_in_catalog].
  unfold thread_trace. rewrite (client_worker_connected E client_id n w0 Hc).
  cbn [fst trace]. rewrite sent_data_app. unfold range.
  rewrite (after_loop_frames E client_id (Z.to_nat n) 0 (worker_start w0)).
  assert (Ht : sent_data
                 (EvClose ::
                  match env_close E with
                  | Ok _ => []
                  | Fails e =>
                      [EvPrint (nl +:+ "Client " +:+ pretty client_id +:+ " error: "
                                  +:+ env_str E e)]
                  end ++
                  [EvPut (mkResult client_id
                            (sent (locals (after_loop E client_id (seq 0 (Z.to_nat n))
                                             (worker_start w0))))
                            (received (locals (after_loop E client_id (seq 0 (Z.to_nat n))
                                                 (worker_start w0))))
                            0
                            (failed_send (locals (after_loop E client_id
                                                    (seq 0 (Z.to_nat n))
                                                    (worker_start w0)))))]) = []).
  { destruct (env_close E) as [[]|e]; reflexivity. }
  rewrite Ht, app_nil_r. reflexivity.
Qed.

(** X4 holds of a worker with two messages and a connection on which the
    first write fails: both frames are handed over, in order. *)
Lemma X4_frames_in_order_witness :
  sent_data (thread_trace (client_worker env_first_write_fails 7 2)) =
    [burst_frame 7 0 "Hello from client"; burst_frame 7 1 "Testing message priority"].
Proof.
  exact (proj1 (X4_frames_in_order env_first_write_fails 7 2 (conj eq_refl eq_refl))).
Defined.

(** ** The accounts of a burst worker *)

Lemma after_loop_accounts E client_id l : forall s,
  let s' := after_loop E client_id l s in
  sent (locals s) + failed_send (locals s) + Z.of_nat (length l)
    <= sent (locals s') + failed_send (locals s') /\
  failed_send (locals s) <= failed_send (locals s')
    <= failed_send (locals s) + Z.of_nat (length l) /\
  Z.of_nat (count_ev is_recv (trace s')) - Z.of_nat (count_ev is_recv (trace s))
    = sent (locals s') - sent (locals s).
Proof.
  induction l as [|i l IH]; intros s; cbn zeta; [simpl; lia|].
  cbn [after_loop length]. specialize (IH (after_iteration E client_id i s)).
  cbn zeta in IH. destruct IH as (I1 & I2 & I3).
  assert (Hstep :
    sent (locals (after_iteration E client_id i s))
      + failed_send (locals (after_iteration E client_id i s))
      >= sent (locals s) + failed_send (locals s) + 1 /\
    failed_send (locals s) <= failed_send (locals (after_iteration E client_id i s))
      <= failed_send (locals s) + 1 /\
    Z.of_nat (count_ev is_recv (trace (after_iteration E client_id i s)))
      - Z.of_nat (count_ev is_recv (trace s))
      = sent (locals (after_iteration E client_id i s)) - sent (locals s)).
  { rewrite after_iteration_trace, count_ev_app.
    unfold after_iteration, iteration_events. cbn [locals].
    destruct (classify E s); simpl; lia. }
  lia.
Qed.

(** X5. The result of a burst worker that got its connection reports no
    failed connection and accounts for every message: with [m] messages to
    send, [m <= sent + failed_send <= 2 * m] and [failed_send <= m]; and the
    worker has called [recv] exactly [sent] times, once after each
    successful write. *)
Theorem X5_connected_worker_accounts (E : env) (client_id : nat) (n : Z)
    (r : WorkerResult) :
  connected E ->
  In r (published (thread_trace (client_worker E client_id n))) ->
  let m := Z.max 0 n in
  r_failed_connection r = 0 /\
  m <= r_sent r + r_failed_send r <= 2 * m /\
  0 <= r_failed_send r <= m /\
  Z.of_nat (count_ev is_recv (thread_trace (client_worker E client_id n))) = r_sent r.
Proof.
  intros Hc. unfold thread_trace.
  rewrite (client_worker_connected E client_id n w0 Hc). cbn [fst trace].
  set (s2 := after_loop E client_id (range n) (worker_start w0)).
  pose proof (after_loop_accounts E client_id (range n) (worker_start w0)) as H.
  cbn zeta in H. fold s2 in H. rewrite length_range in H. simpl in H.
  pose proof (after_loop_sent_bounds E client_id (range n) (worker_start w0)) as Hb.
  fold s2 in Hb. rewrite length_range in Hb. simpl in Hb.
  pose proof (after_loop_published E client_id (range n) (worker_start w0)) as Hp.
  fold s2 in Hp. simpl in Hp.
  rewrite published_app, Hp, count_ev_app.
  assert (Hr : forall tail,
    tail = match env_close E with
           | Ok _ => []
           | Fails e =>
               [EvPrint (nl +:+ "Client " +:+ pretty client_id +:+ " error: "
                           +:+ env_str E e)]
           end ->
    published (EvClose :: tail ++
                 [EvPut (mkResult client_id (sent (locals s2)) (received (locals s2)) 0
                           (failed_send (locals s2)))])
      = [mkResult client_id (sent (locals s2)) (received (locals s2)) 0
           (failed_send (locals s2))] /\
    count_ev is_recv (EvClose :: tail ++
                 [EvPut (mkResult client_id (sent (locals s2)) (received (locals s2)) 0
                           (failed_send (locals s2)))]) = 0%nat).
  { intros tail ->. destruct (env_close E) as [[]|e]; split; reflexivity. }
  destruct (Hr _ eq_refl) as [Hr1 Hr2]. rewrite Hr1, Hr2.
  intros [<-|[]]. cbn zeta. cbn [r_failed_connection r_sent r_failed_send]. lia.
Qed.

(** X5 holds of a worker with one message and a server that resets the
    connection on the read: the one message is counted twice. *)
Lemma X5_connected_worker_accounts_witness :
  1 <= r_sent (mkResult 0 1 0 0 1) + r_failed_send (mkResult 0 1 0 0 1) <= 2 * 1.
Proof.
  assert (Hin : In (mkResult 0 1 0 0 1)
                  (published (thread_trace (client_worker env_reset_on_read 0 1))))
    by (vm_compute; left; reflexivity).
  exact (proj1 (proj2 (X5_connected_worker_accounts env_reset_on_read 0 1
                         (mkResult 0 1 0 0 1) (conj eq_refl eq_refl) Hin))).
Defined.

(** X6. A burst worker that gets no connection sends nothing and never
    closes its socket; its result is all zeros but for
    [failed_connection].  A refused connection is counted once, in the
    result and by one [update_stats(failed_conn=1)]; a failure of
    [socket.socket()] itself is only printed: the result shows 0 failed
    connections and no counter is updated. *)
Theorem X6_unconnected_worker (E : env) (client_id : nat) (n : Z) :
  ~ connected E ->
  let tr := thread_trace (client_worker E client_id n) in
  exists fc,
    published tr = [mkResult client_id 0 0 fc 0] /\
    trace_ops tr = (if bool_decide (fc = 1) then [OpUpdate (mkDelta 0 0 1 0)] else []) /\
    count_ev is_sendall tr = 0%nat /\
    count_ev is_close tr = 0%nat /\
    (fc = 1 /\ env_socket E = Ok tt \/ fc = 0 /\ exists e, env_socket E = Fails e).
Proof.
  intros Hn. cbn zeta. unfold thread_trace.
  destruct (env_socket E) as [[]|e] eqn:Hs.
  - destruct (env_connect E) as [[]|e] eqn:Hc.
    + exfalso. apply Hn. split; assumption.
    + rewrite (client_worker_no_connection E client_id n w0 e Hs Hc).
      exists 1. cbn. repeat split. left. split; reflexivity.
  - rewrite (client_worker_no_socket E client_id n w0 e Hs).
    exists 0. cbn. repeat split. right. split; [reflexivity|]. exists e. reflexivity.
Qed.

(** X6 holds of a worker that finds no server listening. *)
Lemma X6_unconnected_worker_witness :
  ~ connected env_server_down /\
  published (thread_trace (client_worker env_server_down 3 100)) = [mkResult 3 0 0 1 0].
Proof.
  assert (Hn : ~ connected env_server_down) by (intros [_ H]; discriminate).
  split; [exact Hn|].
  destruct (X6_unconnected_worker env_server_down 3 100 Hn) as (fc & Hp & _ & _ & _ & Hfc).
  rewrite Hp. destruct Hfc as [[-> _]|[_ [e He]]]; [reflexivity|discriminate].
Defined.

(** ** The sustained worker *)

Lemma sustained_loop_step E client_id end_time fuel s :
  while_loop (S fuel) (before_deadline E end_time) (sustained_iteration E client_id) s =
  if bool_decide (env_clock E (n_clock s) < end_time) then
    match env_send E (n_send s) with
    | Ok _ =>
        while_loop fuel (before_deadline E end_time) (sustained_iteration E client_id)
          (mkW (mkLocals (sent (locals s) + 1) (received (locals s))
                         (failed_send (locals s)))
               (S (n_send s)) (n_recv s) (S (n_choice s)) (S (n_clock s)) (n_alive s)
               (trace s ++
                  [EvClock;
                   EvSendall (sustained_frame client_id (choice_at E (n_choice s)));
                   EvUpdate (mkDelta 1 0 0 0); EvSleep 10]))
    | Fails _ =>
        (mkW (locals s) (S (n_send s)) (n_recv s) (S (n_choice s)) (S (n_clock s))
             (n_alive s)
             (trace s ++
                [EvClock;
                 EvSendall (sustained_frame client_id (choice_at E (n_choice s)));
                 EvUpdate (mkDelta 0 0 0 1)]),
         Normal tt)
    end
  else
    (mkW (locals s) (n_send s) (n_recv s) (n_choice s) (S (n_clock s)) (n_alive s)
         (trace s ++ [EvClock]),
     Normal tt).
Proof.
  cbn [while_loop]. rewrite before_deadline_eq.
  destruct (bool_decide (env_clock E (n_clock s) < end_time)); [|reflexivity].
  destruct (env_send E (n_send s)) as [[]|e] eqn:Hs.
  - rewrite sustained_iteration_ok by exact Hs.
    cbn [locals n_send n_recv n_choice n_clock n_alive trace].
    rewrite <- app_assoc. reflexivity.
  - rewrite sustained_iteration_fails with (e := e) by exact Hs.
    cbn [locals n_send n_recv n_choice n_clock n_alive trace].
    rewrite <- app_assoc. reflexivity.
Qed.

(** The loop ends once the clock has reached the deadline. *)
Lemma sustained_loop_deadline E client_id end_time : forall fuel j s,
  (j < fuel)%nat ->
  end_time <= env_clock E (n_clock s + j) ->
  let r := while_loop fuel (before_deadline E end_time)
             (sustained_iteration E client_id) s in
  snd r = Normal tt /\
  (count_ev is_sendall (trace (fst r)) <= count_ev is_sendall (trace s) + j)%nat /\
  (n_clock (fst r) <= n_clock s + j + 1)%nat.
Proof.
  induction fuel as [|fuel IH]; intros j s Hj Hend; [lia|].
  cbn zeta. rewrite sustained_loop_step.
  destruct (bool_decide (env_clock E (n_clock s) < end_time)) eqn:Hb.
  - apply bool_decide_eq_true in Hb.
    destruct j as [|j]; [rewrite Nat.add_0_r in Hend; lia|].
    destruct (env_send E (n_send s)) as [[]|e].
    + match goal with
      | |- context [while_loop fuel _ _ ?s1] =>
          specialize (IH j s1 ltac:(lia))
      end.
      cbn [n_clock trace] in IH. rewrite count_ev_app in IH. simpl in IH.
      destruct IH as (I1 & I2 & I3);
        [rewrite <- Nat.add_succ_r; exact Hend|].
      split; [exact I1|]. split; lia.
    + cbn [fst snd trace n_clock]. rewrite count_ev_app. simpl.
      split; [reflexivity|]. split; lia.
  - cbn [fst snd trace n_clock]. rewrite count_ev_app. simpl.
    split; [reflexivity|]. split; lia.
Qed.

(** What the loop asks of the counters. *)
Lemma sustained_loop_accounts E client_id end_time : forall fuel s,
  let r := while_loop fuel (before_deadline E end_time)
             (sustained_iteration E client_id) s in
  (snd r = Normal tt \/ snd r = OutOfFuel) /\
  exists evs,
    trace (fst r) = trace s ++ evs /\
    code_total F_received (trace_ops evs) = 0 /\
    code_total F_failed_conn (trace_ops evs) = 0 /\
    0 <= code_total F_failed_send (trace_ops evs) <= 1 /\
    code_total F_sent (trace_ops evs) = sent (locals (fst r)) - sent (locals s) /\
    0 <= code_total F_sent (trace_ops evs) /\
    Z.of_nat (count_ev is_sendall evs)
      = code_total F_sent (trace_ops evs) + code_total F_failed_send (trace_ops evs) /\
    count_ev is_close evs = 0%nat /\
    count_ev is_connect evs = 0%nat.
Proof.
  induction fuel as [|fuel IH]; intros s; cbn zeta.
  - simpl. split; [right; reflexivity|]. exists []. rewrite app_nil_r.
    cbn. repeat split; lia.
  - rewrite sustained_loop_step.
    destruct (bool_decide (env_clock E (n_clock s) < end_time)).
    + destruct (env_send E (n_send s)) as [[]|e].
      * match goal with
        | |- context [while_loop fuel _ _ ?s1] => specialize (IH s1)
        end.
        cbn zeta in IH.
        match goal with
        | |- context [while_loop fuel ?c ?b ?s1] =>
            set (r := while_loop fuel c b s1) in *
        end.
        destruct IH as (Hc & evs & Ht & H1 & H2 & H3 & H4 & H5 & H6 & H7 & H8).
        split; [exact Hc|].
        eexists. split; [rewrite Ht; cbn [trace]; rewrite <- app_assoc; reflexivity|].
        cbn [locals sent] in H4.
        rewrite !tally_app, !count_ev_app.
        change (code_total F_received (trace_ops [EvClock; EvSendall ?d; EvUpdate ?u; EvSleep 10]))
          with (d_received u + 0).
        change (code_total F_failed_conn (trace_ops [EvClock; EvSendall ?d; EvUpdate ?u; EvSleep 10]))
          with (d_failed_conn u + 0).
        change (code_total F_failed_send (trace_ops [EvClock; EvSendall ?d; EvUpdate ?u; EvSleep 10]))
          with (d_failed_send u + 0).
        change (code_total F_sent (trace_ops [EvClock; EvSendall ?d; EvUpdate ?u; EvSleep 10]))
          with (d_sent u + 0).
        cbn [d_sent d_received d_failed_conn d_failed_send count_ev is_sendall is_close
               is_connect].
        repeat split; lia.
      * split; [left; reflexivity|]. eexists. split; [reflexivity|].
        cbn. repeat split; lia.
    + split; [left; reflexivity|]. eexists. split; [reflexivity|].
      cbn. repeat split; lia.
Qed.

Lemma sustained_worker_unconnected E fuel client_id end_time s :
  ~ connected E ->
  exists evs,
    sustained_client_worker E fuel client_id end_time s
      = (mkW (mkLocals 0 0 0) (n_send s) (n_recv s) (n_choice s) (n_clock s) (n_alive s)
             (trace s ++ evs), Normal tt) /\
    trace_ops evs = [OpUpdate (mkDelta 0 0 1 0)] /\
    count_ev is_sendall evs = 0%nat /\
    count_ev is_close evs = 0%nat.
Proof.
  intros Hn. unfold sustained_client_worker. run_monad.
  destruct (env_socket E) as [[]|e1] eqn:H1; simpl.
  - destruct (env_connect E) as [[]|e2] eqn:H2; simpl.
    + exfalso. apply Hn. split; assumption.
    + eexists. split; [repeat (unfold log; simpl); rewrite <- !app_assoc; reflexivity|].
      repeat split.
  - eexists. split; [repeat (unfold log; simpl); rewrite <- !app_assoc; reflexivity|].
    repeat split.
Qed.

Lemma sustained_worker_connected E fuel client_id end_time s :
  connected E ->
  let r := while_loop fuel (before_deadline E end_time)
             (sustained_iteration E client_id) (worker_start s) in
  sustained_client_worker E fuel client_id end_time s =
    match snd r with
    | Normal _ =>
        (extend (fst r)
           (EvClose :: match env_close E with
                       | Ok _ => []
                       | Fails _ => [EvUpdate (mkDelta 0 0 1 0)]
                       end),
         Normal tt)
    | c => (fst r, c)
    end.
Proof.
  intros [H1 H2] r. unfold sustained_client_worker. run_monad.
  rewrite H1. simpl. rewrite H2. simpl.
  match goal with
  | |- context [while_loop fuel _ _ ?s0] =>
      replace s0 with (worker_start s) by (unfold worker_start; monad_done)
  end.
  fold r.
  pose proof (proj1 (sustained_loop_accounts E client_id end_time fuel (worker_start s)))
    as Hc. cbn zeta in Hc. fold r in Hc.
  destruct r as [s' [[]|e| | |]]; simpl in *;
    try (destruct Hc; discriminate); try reflexivity.
  unfold extend. destruct (env_close E) as [[]|e]; monad_done.
Qed.

Lemma connected_dec E : {connected E} + {~ connected E}.
Proof.
  unfold connected.
  destruct (env_socket E) as [[]|e1]; [|right; intros [H _]; discriminate].
  destruct (env_connect E) as [[]|e2]; [|right; intros [_ H]; discriminate].
  left. split; reflexivity.
Qed.

(** X7. A sustained worker that got its connection stops at the deadline:
    if the [k]-th reading of the clock is at or past [end_time], the worker
    returns, having called [sendall] at most [k] times and read the clock at
    most [k + 1] times, and it has closed its socket once. *)
Theorem X7_sustained_deadline (E : env) (fuel client_id : nat) (end_time : Z) (k : nat) :
  connected E ->
  (k < fuel)%nat ->
  end_time <= env_clock E k ->
  let r := sustained_client_worker E fuel client_id end_time w0 in
  snd r = Normal tt /\
  (count_ev is_sendall (trace (fst r)) <= k)%nat /\
  (n_clock (fst r) <= k + 1)%nat /\
  count_ev is_close (trace (fst r)) = 1%nat.
Proof.
  intros Hc Hk Hend. cbn zeta.
  rewrite (sustained_worker_connected E fuel client_id end_time w0 Hc). cbn zeta.
  pose proof (sustained_loop_deadline E client_id end_time fuel k (worker_start w0) Hk Hend)
    as (Hn & Hs & Hclk).
  destruct (sustained_loop_accounts E client_id end_time fuel (worker_start w0))
    as (_ & evs & Ht & _ & _ & _ & _ & _ & _ & Hcl & _).
  cbn zeta in Ht.
  set (r := while_loop fuel (before_deadline E end_time)
              (sustained_iteration E client_id) (worker_start w0)) in *.
  rewrite Hn. cbn [fst snd]. unfold extend. cbn [trace n_clock].
  simpl in Hs, Hclk.
  split; [reflexivity|]. split; [|split].
  - rewrite count_ev_app. destruct (env_close E) as [[]|e]; simpl; lia.
  - lia.
  - rewrite Ht, !count_ev_app, Hcl.
    destruct (env_close E) as [[]|e]; reflexivity.
Qed.

(** X7 holds of a worker whose clock shows 0, 10, 20, 30 against a deadline
    of 25: three messages at most. *)
Lemma X7_sustained_deadline_witness :
  (count_ev is_sendall (trace (fst (sustained_client_worker env_server_up 5 0 25 w0))) <= 3)%nat.
Proof.
  refine (proj1 (proj2 (X7_sustained_deadline env_server_up 5 0 25 3
                          (conj eq_refl eq_refl) _ _))).
  - lia.
  - vm_compute. discriminate.
Defined.

Lemma sustained_worker_accounts (E : env) (fuel client_id : nat) (end_time : Z) :
  let tr := thread_trace (sustained_client_worker E fuel client_id end_time) in
  code_total F_received (trace_ops tr) = 0 /\
  0 <= code_total F_failed_send (trace_ops tr) <= 1 /\
  0 <= code_total F_failed_conn (trace_ops tr) <= 1 /\
  0 <= code_total F_sent (trace_ops tr) /\
  Z.of_nat (count_ev is_sendall tr)
    = code_total F_sent (trace_ops tr) + code_total F_failed_send (trace_ops tr).
Proof.
  cbn zeta. unfold thread_trace.
  destruct (connected_dec E) as [Hc|Hn].
  - rewrite (sustained_worker_connected E fuel client_id end_time w0 Hc). cbn zeta.
    destruct (sustained_loop_accounts E client_id end_time fuel (worker_start w0))
      as (Hr & evs & Ht & H1 & H2 & H3 & _ & H5 & H6 & _).
    cbn zeta in Ht, Hr.
    set (r := while_loop fuel (before_deadline E end_time)
                (sustained_iteration E client_id) (worker_start w0)) in *.
    assert (Hstart : forall f, code_total f (trace_ops (trace (worker_start w0))) = 0)
      by (intros f; destruct f; reflexivity).
    assert (Hs0 : count_ev is_sendall (trace (worker_start w0)) = 0%nat) by reflexivity.
    destruct Hr as [Hr|Hr]; rewrite Hr; cbn [fst]; unfold extend; cbn [trace].
    + rewrite !tally_app, count_ev_app, Ht, !tally_app, count_ev_app, !Hstart, Hs0.
      destruct (env_close E) as [[]|e]; cbn; lia.
    + rewrite Ht, !tally_app, count_ev_app, !Hstart, Hs0. lia.
  - destruct (sustained_worker_unconnected E fuel client_id end_time w0 Hn)
      as (evs & -> & Ho & Hs & _).
    cbn [fst trace]. unfold w0. cbn [trace app]. rewrite Ho, Hs. cbn. lia.
Qed.

(** X8. The accounts of a sustained worker, whatever the world answers
    and wherever it is cut: it never asks for [received]; it asks for at
    most one failed send and at most one failed connection; and every call
    of [sendall] is counted once, as sent or as a failed send. *)
Theorem X8_sustained_worker_accounts (E : env) (fuel client_id : nat) (end_time : Z) :
  let tr := thread_trace (sustained_client_worker E fuel client_id end_time) in
  code_total F_received (trace_ops tr) = 0 /\
  0 <= code_total F_failed_send (trace_ops tr) <= 1 /\
  0 <= code_total F_failed_conn (trace_ops tr) <= 1 /\
  0 <= code_total F_sent (trace_ops tr) /\
  Z.of_nat (count_ev is_sendall tr)
    = code_total F_sent (trace_ops tr) + code_total F_failed_send (trace_ops tr).
Proof. exact (sustained_worker_accounts E fuel client_id end_time). Qed.

(** X9. What [failed_connections] means in the sustained mode.  A worker
    that gets no connection asks for one failed connection and sends
    nothing.  A worker that got its connection and ran to the deadline asks
    for a failed connection exactly when the [close] of its socket raises:
    such a worker is counted as a failed connection although it connected
    and may have sent messages. *)
Theorem X9_sustained_failed_connection (E : env) (fuel client_id : nat)
    (end_time : Z) (k : nat) :
  (k < fuel)%nat ->
  end_time <= env_clock E k ->
  let tr := thread_trace (sustained_client_worker E fuel client_id end_time) in
  (~ connected E ->
     code_total F_failed_conn (trace_ops tr) = 1 /\ count_ev is_sendall tr = 0%nat) /\
  (connected E ->
     code_total F_failed_conn (trace_ops tr)
       = match env_close E with Ok _ => 0 | Fails _ => 1 end).
Proof.
  intros Hk Hend. cbn zeta. unfold thread_trace. split.
  - intros Hn.
    destruct (sustained_worker_unconnected E fuel client_id end_time w0 Hn)
      as (evs & -> & Ho & Hs & _).
    cbn [fst trace]. unfold w0. cbn [trace app]. rewrite Ho, Hs. split; reflexivity.
  - intros Hc.
    rewrite (sustained_worker_connected E fuel client_id end_time w0 Hc). cbn zeta.
    pose proof (sustained_loop_deadline E client_id end_time fuel k (worker_start w0)
                  Hk Hend) as (Hn & _).
    destruct (sustained_loop_accounts E client_id end_time fuel (worker_start w0))
      as (_ & evs & Ht & _ & H2 & _).
    cbn zeta in Ht, Hn.
    set (r := while_loop fuel (before_deadline E end_time)
                (sustained_iteration E client_id) (worker_start w0)) in *.
    rewrite Hn. cbn [fst]. unfold extend. cbn [trace].
    rewrite tally_app, Ht, tally_app, H2.
    destruct (env_close E) as [[]|e]; reflexivity.
Qed.

(** X9 holds of a worker whose socket fails to close after two messages
    were sent. *)
Lemma X9_sustained_failed_connection_witness :
  code_total F_sent
    (trace_ops (thread_trace (sustained_client_worker env_close_fails 5 0 15))) = 2 /\
  code_total F_failed_conn
    (trace_ops (thread_trace (sustained_client_worker env_close_fails 5 0 15))) = 1.
Proof.
  split; [vm_compute; reflexivity|].
  assert (Hk : (2 < 5)%nat) by lia.
  assert (Hend : 15 <= env_clock env_close_fails 2) by (vm_compute; discriminate).
  exact (proj2 (X9_sustained_failed_connection env_close_fails 5 0 15 2 Hk Hend)
               (conj eq_refl eq_refl)).
Defined.

(** ** The monitor *)

Lemma progress_round_eq s :
  (call_print_progress ;; sleep 500) s
    = (extend s [EvPrintProgress; EvSleep 500], Normal tt).
Proof. unfold extend. run_monad. monad_done. Qed.

Lemma any_alive_eq E s :
  any_alive E s =
    (mkW (locals s) (n_send s) (n_recv s) (n_choice s) (n_clock s) (S (n_alive s))
         (trace s), Normal (env_alive E (n_alive s))).
Proof. reflexivity. Qed.

Lemma monitor_loop E : forall fuel k s,
  (k < fuel)%nat ->
  (forall j, (j < k)%nat -> env_alive E (n_alive s + j) = true) ->
  env_alive E (n_alive s + k) = false ->
  while_loop fuel (any_alive E) (call_print_progress ;; sleep 500) s =
    (mkW (locals s) (n_send s) (n_recv s) (n_choice s) (n_clock s) (S (n_alive s + k))
         (trace s ++ concat (replicate k [EvPrintProgress; EvSleep 500])),
     Normal tt).
Proof.
  induction fuel as [|fuel IH]; intros k s Hk Ht Hf; [lia|].
  cbn [while_loop]. rewrite any_alive_eq.
  destruct k as [|k].
  - rewrite Nat.add_0_r in Hf. rewrite Hf, Nat.add_0_r. simpl.
    rewrite app_nil_r. reflexivity.
  - pose proof (Ht 0%nat ltac:(lia)) as H0. rewrite Nat.add_0_r in H0. rewrite H0.
    rewrite progress_round_eq.
    unfold extend. cbn [locals n_send n_recv n_choice n_clock n_alive trace].
    rewrite (IH k); cbn [locals n_send n_recv n_choice n_clock n_alive trace].
    + rewrite <- !app_assoc.
      replace (S (n_alive s) + k)%nat with (n_alive s + S k)%nat by lia.
      reflexivity.
    + lia.
    + intros j Hj.
      replace (S (n_alive s) + j)%nat with (n_alive s + S j)%nat by lia.
      apply Ht. lia.
    + replace (S (n_alive s) + k)%nat with (n_alive s + S k)%nat by lia. exact Hf.
Qed.

(** X10. The monitor prints one progress line for each check that finds a
    thread alive, sleeps half a second after each, and returns at the first
    check that finds none: with [k] checks that succeed it asks for exactly
    [k] calls of [print_progress], none when the workers are already done. *)
Theorem X10_monitor_rounds (E : env) (fuel k : nat) :
  (k < fuel)%nat ->
  (forall j, (j < k)%nat -> env_alive E j = true) ->
  env_alive E k = false ->
  snd (monitor_progress E fuel w0) = Normal tt /\
  thread_trace (monitor_progress E fuel) = concat (replicate k [EvPrintProgress; EvSleep 500]) /\
  trace_ops (thread_trace (monitor_progress E fuel)) = replicate k OpPrint.
Proof.
  intros Hk Ht Hf.
  assert (Hm : monitor_progress E fuel w0 =
               (mkW (mkLocals 0 0 0) 0 0 0 0 (S k)
                    (concat (replicate k [EvPrintProgress; EvSleep 500])), Normal tt)).
  { unfold monitor_progress, def. rewrite (monitor_loop E fuel k w0 Hk); auto. }
  unfold thread_trace. rewrite Hm. cbn [fst snd trace].
  split; [reflexivity|]. split; [reflexivity|].
  clear. induction k as [|k IH]; [reflexivity|]. cbn. rewrite <- IH. reflexivity.
Qed.

(** X10 holds of a monitor that finds a thread alive once. *)
Lemma X10_monitor_rounds_witness :
  trace_ops (thread_trace (monitor_progress env_server_up 2)) = [OpPrint].
Proof.
  refine (proj2 (proj2 (X10_monitor_rounds env_server_up 2 1 _ _ _))).
  - lia.
  - intros [|j] Hj; [reflexivity|lia].
  - reflexivity.
Defined.

(** ** The controller of a sustained run *)



Lemma spawn_args_app tr1 tr2 : spawn_args (tr1 ++ tr2) = spawn_args tr1 ++ spawn_args tr2.
Proof. apply omap_app. Qed.

Lemma joined_ids_app tr1 tr2 : joined_ids (tr1 ++ tr2) = joined_ids tr1 ++ joined_ids tr2.
Proof. apply omap_app. Qed.


Lemma joins_summary cfg :
  spawn_args (joins cfg) = [] /\ joined_ids (joins cfg) = range (NUM_CLIENTS cfg).
Proof.
  unfold joins. induction (range (NUM_CLIENTS cfg)) as [|i l [I1 I2]]; [split; reflexivity|].
  split; cbn; [exact I1|rewrite <- I2 at 2; reflexivity].
Qed.




(** ** Acknowledgments in a sustained run *)

Lemma no_received_total tr :
  count_ev is_received_update tr = 0%nat -> code_total F_received (trace_ops tr) = 0.
Proof.
  unfold code_total. induction tr as [|e tr IH]; [reflexivity|].
  destruct e as [| | | | | | | |u| | | | | | | |]; cbn [count_ev is_received_update];
    try exact IH.
  - destruct (d_received u =? 0) eqn:Hz; cbn [negb]; [|discriminate].
    intros H. apply Z.eqb_eq in Hz.
    change (sumZ (op_delta F_received) (trace_ops (EvUpdate u :: tr)))
      with (d_received u + sumZ (op_delta F_received) (trace_ops tr)).
    rewrite (IH H). lia.
Qed.

Lemma sustained_worker_no_received E fuel client_id end_time :
  silent is_received_update (sustained_client_worker E fuel client_id end_time).
Proof. unfold_program. silence_all. Qed.

Lemma run_sustained_no_received E fuel cfg d :
  silent is_received_update (run_sustained_load_test E fuel cfg d).
Proof. unfold_program. silence_all. Qed.

Lemma run_sustained_no_foreign_spawn E fuel cfg d :
  silent is_foreign_spawn (run_sustained_load_test E fuel cfg d).
Proof. unfold_program. silence_all. Qed.

Lemma spawned_total_cons envs mon fuel f e main :
  sumZ (code_total f) (map trace_ops (omap (spawned envs mon fuel) (e :: main)))
  = match spawned envs mon fuel e with
    | Some tr => code_total f (trace_ops tr)
    | None => 0
    end
    + sumZ (code_total f) (map trace_ops (omap (spawned envs mon fuel) main)).
Proof.
  change (omap (spawned envs mon fuel) (e :: main))
    with (match spawned envs mon fuel e with
          | Some tr => tr :: omap (spawned envs mon fuel) main
          | None => omap (spawned envs mon fuel) main
          end).
  destruct (spawned envs mon fuel e); reflexivity.
Qed.

Lemma sustained_run_received_total E envs mon fuel fuel' cfg d :
  grand_total F_received
    (map trace_ops
       (run_threads envs mon fuel (thread_trace (run_sustained_load_test E fuel' cfg d))))
  = 0.
Proof.
  unfold run_threads. cbn [map].
  change (grand_total F_received (?c :: ?cs))
    with (code_total F_received c + grand_total F_received cs).
  rewrite (no_received_total _
             (thread_trace_silent _ _ (run_sustained_no_received E fuel' cfg d))).
  pose proof (thread_trace_silent _ _ (run_sustained_no_foreign_spawn E fuel' cfg d)) as Hf.
  revert Hf. generalize (thread_trace (run_sustained_load_test E fuel' cfg d)).
  intros main. unfold grand_total.
  induction main as [|e main IH]; [reflexivity|].
  intros Hf. cbn [count_ev] in Hf.
  destruct (is_foreign_spawn e) eqn:He; [discriminate|]. specialize (IH Hf).
  rewrite spawned_total_cons.
  destruct e as [| | | | | | | | | | | |tg i a| | | |]; try exact IH.
  destruct tg; try discriminate.
  cbn [spawned].
  rewrite (no_received_total _
             (thread_trace_silent _ _ (sustained_worker_no_received (envs i) fuel i a))).
  exact IH.
Qed.

(** X12. In a sustained run no thread ever asks for [received]: under
    every schedule and whatever the network does, [total_received] is 0 at
    every instant, and so is the figure of acknowledgments in every
    progress line. *)
Theorem X12_sustained_run_receives_nothing (E : env) (envs : nat -> env) (mon : env)
    (fuel fuel' : nat) (cfg : Config) (d : Z) (sched : list nat) :
  let m := run sched (run_machine envs mon fuel
                        (thread_trace (run_sustained_load_test E fuel' cfg d))) in
  total_received (globals m) = 0 /\
  (forall line, In line (console m) -> total_received line = 0).
Proof.
  cbn zeta. unfold run_machine.
  set (codes := map trace_ops
                  (run_threads envs mon fuel
                     (thread_trace (run_sustained_load_test E fuel' cfg d)))).
  assert (Hn : nonneg_codes codes).
  { apply run_threads_nonneg, thread_trace_silent, run_sustained_never_negative. }
  assert (Hg : grand_total F_received codes = 0) by apply sustained_run_received_total.
  pose proof (counters_bounded codes sched F_received Hn) as Hb. cbn [get_field] in Hb.
  split; [lia|]. intros line Hl.
  assert (Hbelow : Forall (fun l => stats_le l (globals (run sched (init_machine codes))))
                          (console (run sched (init_machine codes)))).
  { apply run_console_below; [apply inv_init|exact (Forall_codes_threads _ codes [] Hn)|].
    constructor. }
  pose proof (console_nonneg codes sched Hn) as Hpos.
  rewrite List.Forall_forall in Hbelow, Hpos.
  specialize (Hbelow line Hl F_received). specialize (Hpos line Hl F_received).
  unfold stats0 in Hpos. simpl in Hpos, Hbelow. lia.
Qed.

(** ** The menu *)

Lemma client_spawns_summary cfg :
  spawn_args (client_spawns cfg)
    = map (fun i => (T_client_worker, i, MESSAGES_PER_CLIENT cfg)) (range (NUM_CLIENTS cfg))
  /\ joined_ids (client_spawns cfg) = [].
Proof.
  unfold client_spawns.
  induction (range (NUM_CLIENTS cfg)) as [|i l [I1 I2]]; [split; reflexivity|].
  split; cbn; [rewrite <- I1; reflexivity|exact I2].
Qed.

Lemma load_test_summary E cfg :
  spawn_args (load_test_trace E cfg)
    = (if probe_ok_dec E
       then map (fun i => (T_client_worker, i, MESSAGES_PER_CLIENT cfg))
                (range (NUM_CLIENTS cfg))
            ++ [(T_monitor_progress, 0%nat, 0)]
       else []) /\
  joined_ids (load_test_trace E cfg)
    = (if probe_ok_dec E then range (NUM_CLIENTS cfg) else []) /\
  (probe_ok E -> last (load_test_trace E cfg) = Some (report_event E cfg)).
Proof.
  unfold load_test_trace, load_test_body.
  destruct (client_spawns_summary cfg) as [C1 C2].
  destruct (joins_summary cfg) as [J1 J2].
  destruct (probe_ok_dec E) as [(H1 & H2 & H3)|Hn].
  - rewrite H1, H2, H3.
    rewrite !spawn_args_app, !joined_ids_app, C1, C2, J1, J2.
    split; [|split].
    + destruct (report_event_cases E cfg) as [->|[line ->]];
        cbn; rewrite ?app_nil_r; reflexivity.
    + destruct (report_event_cases E cfg) as [->|[line ->]];
        cbn; rewrite ?app_nil_r; reflexivity.
    + intros _.
      change [EvClock; report_event E cfg] with ([EvClock] ++ [report_event E cfg]).
      rewrite !app_assoc. rewrite last_app. reflexivity.
  - destruct (env_socket E) as [[]|e1] eqn:H1;
      [|split; [reflexivity|split; [reflexivity|intros Hok; contradiction]]].
    destruct (env_connect E) as [[]|e2] eqn:H2;
      [|split; [reflexivity|split; [reflexivity|intros Hok; contradiction]]].
    destruct (env_close E) as [[]|e3] eqn:H3;
      [|split; [reflexivity|split; [reflexivity|intros Hok; contradiction]]].
    exfalso. apply Hn. split; [|split]; assumption.
Qed.

Lemma report_event_full E cfg : report_ok E cfg -> report_event E cfg = EvReport.
Proof.
  intros [Hc Ht]. unfold report_event.
  rewrite bool_decide_eq_false_2 by lia.
  rewrite bool_decide_eq_false_2 by exact Ht. reflexivity.
Qed.

Lemma report_event_no_time E cfg :
  env_clock E 1 = env_clock E 0 -> report_event E cfg = EvReportCut 184.
Proof. intros Hc. unfold report_event. rewrite bool_decide_eq_true_2 by lia. reflexivity. Qed.

Lemma report_event_no_messages E cfg :
  env_clock E 1 <> env_clock E 0 -> TOTAL_MESSAGES cfg = 0 ->
  report_event E cfg = EvReportCut 185.
Proof.
  intros Hc Ht. unfold report_event.
  rewrite bool_decide_eq_false_2 by lia.
  rewrite bool_decide_eq_true_2 by exact Ht. reflexivity.
Qed.

Lemma load_test_completion_ok E cfg :
  probe_ok E ->
  load_test_completion E cfg =
    match report_event E cfg with
    | EvReport => Normal tt
    | _ => Raise ZeroDivisionError
    end.
Proof. intros (H1 & H2 & H3). unfold load_test_completion. rewrite H1, H2, H3. reflexivity. Qed.

Lemma load_test_completion_aborted E cfg :
  ~ probe_ok E -> load_test_completion E cfg = Normal tt.
Proof.
  intros Hn. unfold load_test_completion.
  destruct (env_socket E) as [[]|e1] eqn:H1; [|reflexivity].
  destruct (env_connect E) as [[]|e2] eqn:H2; [|reflexivity].
  destruct (env_close E) as [[]|e3] eqn:H3; [|reflexivity].
  exfalso. apply Hn. split; [|split]; assumption.
Qed.

(** The program up to the answer to the menu. *)
Lemma main_menu E fuel choice total_in num_in :
  main E fuel choice total_in num_in w0 =
    (if bool_decide (choice = "1") then run_load_test E default_config
     else if bool_decide (choice = "2") then
       run_sustained_load_test E fuel default_config 60
     else if bool_decide (choice = "3") then
       try_except
         (total ← input "Total messages: " total_in ≫= int;
          num ← input "Number of concurrent clients: " num_in ≫= int;
          per ← floor_div total num;
          run_load_test E (mkConfig total num per))
         is_ValueError
         (fun _ => print "Invalid input!")
     else
       print "Running default burst test..." ;;
       run_load_test E default_config)
      (extend w0 menu_events).
Proof. reflexivity. Qed.

(** X13. Option 3 of the menu.  An answer that is no integer gets
    [Invalid input!] and nothing is run; when it is the first answer, the
    second question is not asked.  With 0 clients the division raises
    [ZeroDivisionError], which the [except ValueError] does not catch: the
    program ends there, having run nothing.  Otherwise a burst run is made
    with [total // num] messages per client, and the program ends as that
    run does: in particular, with 0 messages and a server that is reachable,
    the run is made and its report ends the program with
    [ZeroDivisionError].  With a negative number of clients the run starts
    no client at all, only the monitor. *)
Theorem X13_custom_configuration (E : env) (fuel : nat) (total_in num_in : option Z) :
  let r := main E fuel "3" total_in num_in w0 in
  let asked := menu_events ++ [EvInput "Total messages: "] in
  let asked2 := asked ++ [EvInput "Number of concurrent clients: "] in
  (total_in = None ->
     snd r = Normal tt /\ trace (fst r) = asked ++ [EvPrint "Invalid input!"]) /\
  (forall total, total_in = Some total -> num_in = None ->
     snd r = Normal tt /\ trace (fst r) = asked2 ++ [EvPrint "Invalid input!"]) /\
  (forall total, total_in = Some total -> num_in = Some 0 ->
     snd r = Raise ZeroDivisionError /\ trace (fst r) = asked2) /\
  (forall total num, total_in = Some total -> num_in = Some num -> num <> 0 ->
     let cfg := mkConfig total num (total / num) in
     trace (fst r) = asked2 ++ load_test_trace E cfg /\
     snd r = load_test_completion E cfg /\
     (~ probe_ok E -> snd r = Normal tt) /\
     (probe_ok E -> report_ok E cfg -> snd r = Normal tt) /\
     (probe_ok E -> total = 0 -> snd r = Raise ZeroDivisionError) /\
     (num < 0 ->
      forall tg i a, In (tg, i, a) (spawn_args (trace (fst r))) -> tg = T_monitor_progress)).
Proof.
  cbn zeta. rewrite main_menu.
  rewrite (bool_decide_eq_false_2 ("3" = "1")) by discriminate.
  rewrite (bool_decide_eq_false_2 ("3" = "2")) by discriminate.
  rewrite (bool_decide_eq_true_2 ("3" = "3")) by reflexivity.
  split; [|split; [|split]].
  - intros ->. split; reflexivity.
  - intros total -> ->. split; [reflexivity|].
    cbn [app]. rewrite <- ?app_assoc. reflexivity.
  - intros total -> ->. split; [reflexivity|].
    cbn [app]. rewrite <- ?app_assoc. reflexivity.
  - intros total num -> -> Hne.
    set (cfg := mkConfig total num (total / num)).
    set (s := extend w0 (menu_events ++ [EvInput "Total messages: ";
                                          EvInput "Number of concurrent clients: "])).
    assert (Hrun : try_except
                     (total0 ← input "Total messages: " (Some total) ≫= int;
                      num0 ← input "Number of concurrent clients: " (Some num) ≫= int;
                      per ← floor_div total0 num0;
                      run_load_test E (mkConfig total0 num0 per))
                     is_ValueError (fun _ => print "Invalid input!")
                     (extend w0 menu_events)
                   = (fst (run_load_test E cfg s), load_test_completion E cfg)).
    { unfold try_except, floor_div.
      do 2 (erewrite bind_normal by reflexivity).
      rewrite (bool_decide_eq_false_2 (num = 0)) by exact Hne.
      erewrite bind_normal by reflexivity.
      change (log (EvInput "Number of concurrent clients: ")
                (log (EvInput "Total messages: ") (extend w0 menu_events))) with s.
      fold cfg.
      pose proof (proj2 (run_load_test_from E cfg s eq_refl)) as Hend.
      destruct (run_load_test E cfg s) as [s' c] eqn:Hr. cbn [fst snd] in *. subst c.
      unfold load_test_completion.
      destruct (env_socket E) as [[]|?]; [|reflexivity].
      destruct (env_connect E) as [[]|?]; [|reflexivity].
      destruct (env_close E) as [[]|?]; [|reflexivity].
      destruct (report_event_cases E cfg) as [->|[line ->]]; reflexivity. }
    rewrite Hrun. cbn [fst snd].
    rewrite (proj1 (run_load_test_from E cfg s eq_refl)).
    assert (Hs : trace s = (menu_events ++ [EvInput "Total messages: "])
                             ++ [EvInput "Number of concurrent clients: "]).
    { unfold s, extend, w0. cbn [trace app]. rewrite <- app_assoc. reflexivity. }
    rewrite Hs.
    split; [reflexivity|]. split; [reflexivity|].
    split; [apply load_test_completion_aborted|].
    split.
    { intros Hok Hrep. rewrite (load_test_completion_ok E cfg Hok).
      rewrite (report_event_full E cfg Hrep). reflexivity. }
    split.
    { intros Hok ->. rewrite (load_test_completion_ok E cfg Hok).
      destruct (decide (env_clock E 1 = env_clock E 0)) as [Hc|Hc].
      - rewrite (report_event_no_time E cfg Hc). reflexivity.
      - rewrite (report_event_no_messages E cfg Hc eq_refl). reflexivity. }
    intros Hneg tg i a. rewrite !spawn_args_app.
    rewrite (proj1 (load_test_summary E cfg)). cbn [NUM_CLIENTS MESSAGES_PER_CLIENT cfg].
    unfold range. replace (Z.to_nat num) with 0%nat by lia.
    destruct (probe_ok_dec E); cbn; [|tauto].
    intros [H|[]]. congruence.
Qed.

(** X13 holds of the answers 50 and 0, of the answers 0 and 5 against a
    server that is up, and of the answers 50 and -2 against that server. *)
Lemma X13_custom_configuration_witness :
  snd (main env_server_up 1 "3" (Some 50) (Some 0) w0) = Raise ZeroDivisionError /\
  snd (main env_server_up 1 "3" (Some 0) (Some 5) w0) = Raise ZeroDivisionError /\
  spawn_args (trace (fst (main env_server_up 1 "3" (Some 50) (Some (-2)) w0)))
    = [(T_monitor_progress, 0%nat, 0)].
Proof.
  split; [|split].
  - exact (proj1 (proj1 (proj2 (proj2
             (X13_custom_configuration env_server_up 1 (Some 50) (Some 0))))
             50 eq_refl eq_refl)).
  - destruct (proj2 (proj2 (proj2
                (X13_custom_configuration env_server_up 1 (Some 0) (Some 5))))
                0 5 eq_refl eq_refl) as (_ & _ & _ & _ & Hz & _); [discriminate|].
    apply Hz; [split; [|split]; reflexivity|reflexivity].
  - destruct (proj2 (proj2 (proj2
                (X13_custom_configuration env_server_up 1 (Some 50) (Some (-2)))))
                50 (-2) eq_refl eq_refl) as (Ht & _); [discriminate|].
    rewrite Ht. vm_compute. reflexivity.
Defined.

(** X14. The controller of a burst run whose connectivity test succeeds
    starts the clients 0, 1, ..., in order, each with
    [MESSAGES_PER_CLIENT] messages to send, then the monitor; it joins
    every client, in the same order, and never the monitor.  When the clock
    has advanced during the run and [TOTAL_MESSAGES] is not 0, it returns
    after the report, which comes last.  Otherwise the report is cut short
    by [ZeroDivisionError], at the rate of line 184 when no time has
    passed and at the success rate of line 185 when [TOTAL_MESSAGES] is 0,
    and the exception leaves the controller; the threads have been joined by
    then. *)
Theorem X14_burst_controller (E : env) (cfg : Config) :
  probe_ok E ->
  let tr := thread_trace (run_load_test E cfg) in
  let result := snd (run_load_test E cfg w0) in
  spawn_args tr
    = map (fun i => (T_client_worker, i, MESSAGES_PER_CLIENT cfg)) (range (NUM_CLIENTS cfg))
      ++ [(T_monitor_progress, 0%nat, 0)] /\
  joined_ids tr = range (NUM_CLIENTS cfg) /\
  (report_ok E cfg -> result = Normal tt /\ last tr = Some EvReport) /\
  (env_clock E 1 = env_clock E 0 ->
     result = Raise ZeroDivisionError /\ last tr = Some (EvReportCut 184)) /\
  (env_clock E 1 <> env_clock E 0 -> TOTAL_MESSAGES cfg = 0 ->
     result = Raise ZeroDivisionError /\ last tr = Some (EvReportCut 185)).
Proof.
  intros Hok. cbn zeta.
  rewrite run_load_test_trace, (proj2 (run_load_test_from E cfg w0 eq_refl)).
  rewrite (load_test_completion_ok E cfg Hok).
  destruct (load_test_summary E cfg) as (S1 & S2 & S3). specialize (S3 Hok).
  destruct (probe_ok_dec E) as [_|Hn]; [|contradiction].
  split; [exact S1|]. split; [exact S2|]. rewrite S3. split; [|split].
  - intros Hrep. rewrite (report_event_full E cfg Hrep). split; reflexivity.
  - intros Hc. rewrite (report_event_no_time E cfg Hc). split; reflexivity.
  - intros Hc Ht. rewrite (report_event_no_messages E cfg Hc Ht). split; reflexivity.
Qed.

(** X14 holds of a run of two clients and five messages, which returns,
    and of a run of five clients and no message, which does not. *)
Lemma X14_burst_controller_witness :
  joined_ids (thread_trace (run_load_test env_server_up (mkConfig 5 2 (5 / 2))))
    = [0; 1]%nat /\
  snd (run_load_test env_server_up (mkConfig 5 2 (5 / 2)) w0) = Normal tt /\
  snd (run_load_test env_server_up (mkConfig 0 5 (0 / 5)) w0) = Raise ZeroDivisionError.
Proof.
  assert (Hok : probe_ok env_server_up) by (split; [|split]; reflexivity).
  split; [|split].
  - exact (proj1 (proj2 (X14_burst_controller env_server_up (mkConfig 5 2 (5 / 2)) Hok))).
  - apply (proj1 (proj2 (proj2
             (X14_burst_controller env_server_up (mkConfig 5 2 (5 / 2)) Hok)))).
    split; [vm_compute; discriminate|vm_compute; discriminate].
  - apply (proj2 (proj2 (proj2 (proj2
             (X14_burst_controller env_server_up (mkConfig 0 5 (0 / 5)) Hok))))).
    + vm_compute. discriminate.
    + reflexivity.
Defined.

(** X15. Any answer to the menu other than 1, 2 and 3 runs the default
    burst test: after one more line of text the program does exactly what
    it does for the answer 1, with the same threads started and joined and
    the same end. *)
Theorem X15_menu_fallback (E : env) (fuel : nat) (choice : string)
    (total_in num_in : option Z) :
  choice <> "1" -> choice <> "2" -> choice <> "3" ->
  let r := main E fuel choice total_in num_in w0 in
  let r1 := main E fuel "1" total_in num_in w0 in
  snd r = snd r1 /\
  trace (fst r)
    = menu_events ++ [EvPrint "Running default burst test..."]
        ++ load_test_trace E default_config /\
  trace (fst r1) = menu_events ++ load_test_trace E default_config /\
  spawn_args (trace (fst r)) = spawn_args (trace (fst r1)) /\
  joined_ids (trace (fst r)) = joined_ids (trace (fst r1)).
Proof.
  intros H1 H2 H3. cbn zeta. rewrite !main_menu.
  rewrite (bool_decide_eq_false_2 (choice = "1")) by exact H1.
  rewrite (bool_decide_eq_false_2 (choice = "2")) by exact H2.
  rewrite (bool_decide_eq_false_2 (choice = "3")) by exact H3.
  rewrite (bool_decide_eq_true_2 ("1" = "1")) by reflexivity.
  erewrite bind_normal by reflexivity. rewrite log_extend, extend_extend.
  destruct (run_load_test_from E default_config
              (extend w0 (menu_events ++ [EvPrint "Running default burst test..."]))
              eq_refl) as [T C].
  destruct (run_load_test_from E default_config (extend w0 menu_events) eq_refl)
    as [T1 C1].
  rewrite T, C, T1, C1. unfold extend, w0. cbn [trace app].
  split; [reflexivity|]. split; [rewrite <- app_assoc; reflexivity|].
  split; [reflexivity|].
  rewrite !spawn_args_app, !joined_ids_app. split; reflexivity.
Qed.

(** X15 holds of the empty answer. *)
Lemma X15_menu_fallback_witness :
  snd (main env_server_down 1 "" None None w0)
  = snd (main env_server_down 1 "1" None None w0).
Proof.
  refine (proj1 (X15_menu_fallback env_server_down 1 "" None None _ _ _)); discriminate.
Defined.

(** ** Acknowledgments never run ahead of messages *)

Lemma acks_covered_app c1 : forall k c2,
  acks_covered k (c1 ++ c2) <->
  acks_covered k c1 /\
  acks_covered (k + code_total F_sent c1 - code_total F_received c1) c2.
Proof.
  unfold code_total. induction c1 as [|o c1 IH]; intros k c2; simpl.
  - replace (k + 0 - 0) with k by lia. tauto.
  - rewrite IH.
    replace (k + op_delta F_sent o - op_delta F_received o + sumZ (op_delta F_sent) c1
             - sumZ (op_delta F_received) c1)
      with (k + (op_delta F_sent o + sumZ (op_delta F_sent) c1)
            - (op_delta F_received o + sumZ (op_delta F_received) c1)) by lia.
    tauto.
Qed.

Lemma acks_covered_prefix c : forall k n,
  0 <= k -> acks_covered k c ->
  0 <= k + code_total F_sent (take n c) - code_total F_received (take n c).
Proof.
  unfold code_total. induction c as [|o c IH]; intros k n Hk Hc.
  - rewrite take_nil. simpl. lia.
  - destruct n as [|n]; simpl; [lia|]. destruct Hc as [H1 H2].
    specialize (IH _ n H1 H2). lia.
Qed.

Lemma acks_covered_quiet c : forall k,
  0 <= k -> Forall nonneg_op c -> code_total F_received c = 0 -> acks_covered k c.
Proof.
  unfold code_total. induction c as [|o c IH]; intros k Hk Hn Hr; simpl; [exact I|].
  inversion Hn as [|? ? Ho Hc]; subst. simpl in Hr.
  pose proof (Ho F_sent) as Hs. pose proof (Ho F_received) as Hre.
  pose proof (code_total_nonneg F_received c Hc) as Hcr. unfold code_total in Hcr.
  split; [lia|]. apply IH; [lia|exact Hc|lia].
Qed.

Lemma after_loop_acks E client_id l : forall s,
  exists evs,
    trace (after_loop E client_id l s) = trace s ++ evs /\
    forall k, 0 <= k -> acks_covered k (trace_ops evs).
Proof.
  induction l as [|i l IH]; intros s; simpl.
  - exists []. rewrite app_nil_r. split; [reflexivity|]. intros; exact I.
  - destruct (IH (after_iteration E client_id i s)) as (evs & Ht & Hc).
    exists (iteration_events E client_id i s ++ evs).
    rewrite Ht, after_iteration_trace, <- app_assoc. split; [reflexivity|].
    intros k Hk. rewrite trace_ops_app. apply acks_covered_app. split.
    + unfold iteration_events. destruct (classify E s); cbn; repeat split; lia.
    + apply Hc. unfold iteration_events.
      destruct (classify E s); cbn; lia.
Qed.

Lemma client_worker_acks E client_id n :
  acks_covered 0 (trace_ops (thread_trace (client_worker E client_id n))).
Proof.
  unfold thread_trace.
  destruct (connected_dec E) as [Hc|Hn].
  - rewrite (client_worker_connected E client_id n w0 Hc). cbn [fst trace].
    destruct (after_loop_acks E client_id (range n) (worker_start w0)) as (evs & -> & He).
    rewrite !trace_ops_app. apply acks_covered_app. split; [apply acks_covered_app; split|].
    + cbn. exact I.
    + apply He. cbn. lia.
    + assert (Ht : forall r,
        trace_ops (EvClose ::
                   match env_close E with
                   | Ok _ => []
                   | Fails e =>
                       [EvPrint (nl +:+ "Client " +:+ pretty client_id +:+ " error: "
                                   +:+ env_str E e)]
                   end ++ [EvPut r]) = []).
      { intros r. destruct (env_close E) as [[]|e]; reflexivity. }
      rewrite Ht. exact I.
  - destruct (env_socket E) as [[]|e] eqn:Hs.
    + destruct (env_connect E) as [[]|e] eqn:Hc.
      * exfalso. apply Hn. split; assumption.
      * rewrite (client_worker_no_connection E client_id n w0 e Hs Hc).
        cbn. split; [lia|exact I].
    + rewrite (client_worker_no_socket E client_id n w0 e Hs). cbn. exact I.
Qed.

Lemma monitor_no_received E fuel : silent is_received_update (monitor_progress E fuel).
Proof. unfold_program. silence_all. Qed.

Lemma run_load_test_no_received E cfg : silent is_received_update (run_load_test E cfg).
Proof. unfold_program. silence_all. Qed.

Lemma quiet_trace_acks tr :
  count_ev is_negative_update tr = 0%nat ->
  count_ev is_received_update tr = 0%nat ->
  acks_covered 0 (trace_ops tr).
Proof.
  intros Hn Hr. apply acks_covered_quiet; [lia| |].
  - apply no_negative_nonneg, Hn.
  - apply no_received_total, Hr.
Qed.

(** In a run, whatever the controller starts, no thread acknowledges
    ahead of its messages. *)
Lemma run_threads_acks envs mon fuel main :
  count_ev is_negative_update main = 0%nat ->
  count_ev is_received_update main = 0%nat ->
  Forall (acks_covered 0) (map trace_ops (run_threads envs mon fuel main)).
Proof.
  intros Hm Hr. unfold run_threads. cbn [map]. constructor.
  - apply quiet_trace_acks; assumption.
  - apply List.Forall_map. apply List.Forall_forall. intros tr Htr.
    apply list_elem_of_In, list_elem_of_omap in Htr. destruct Htr as (e & _ & He).
    destruct e as [| | | | | | | | | | | |tg i a| | | |]; try discriminate.
    destruct tg; injection He as <-.
    + apply client_worker_acks.
    + apply quiet_trace_acks; apply thread_trace_silent.
      * apply sustained_worker_never_negative.
      * apply sustained_worker_no_received.
    + apply quiet_trace_acks; apply thread_trace_silent.
      * apply monitor_never_negative.
      * apply monitor_no_received.
Qed.

Lemma partial_received_sent th o :
  code th !! ip th = Some o ->
  partial F_received th = 0 \/
  (partial F_received th = op_delta F_received o /\
   partial F_sent th = op_delta F_sent o).
Proof.
  intros Ho. unfold partial. rewrite Ho.
  destruct o as [d|]; [|left; destruct (pos th); reflexivity].
  destruct (pos th) as [|f|f tmp| | |]; simpl; auto; destruct f; simpl; auto.
Qed.

Lemma credited_received_le_sent th :
  Forall nonneg_op (code th) -> acks_covered 0 (code th) ->
  credited F_received th <= credited F_sent th.
Proof.
  intros Hn Hc. unfold credited.
  pose proof (acks_covered_prefix (code th) 0 (ip th) ltac:(lia) Hc) as Hp.
  destruct (code th !! ip th) as [o|] eqn:Ho.
  - assert (Hno : nonneg_op o) by (eapply Forall_lookup_1; eauto).
    pose proof (partial_bounds F_sent th o Ho Hno) as Hs.
    pose proof (acks_covered_prefix (code th) 0 (S (ip th)) ltac:(lia) Hc) as Hp'.
    rewrite !(code_total_take_S _ _ _ _ Ho) in Hp'.
    destruct (partial_received_sent th o Ho) as [->|[-> ->]]; lia.
  - unfold partial. rewrite Ho. lia.
Qed.

Lemma received_le_sent_reachable codes sched :
  nonneg_codes codes -> Forall (acks_covered 0) codes ->
  total_received (globals (run sched (init_machine codes)))
    <= total_sent (globals (run sched (init_machine codes))).
Proof.
  intros Hn Hc. pose proof (reachable_inv codes sched) as Hinv.
  pose proof (inv_sum _ Hinv F_received) as Hr. pose proof (inv_sum _ Hinv F_sent) as Hs.
  cbn [get_field] in Hr, Hs. rewrite Hr, Hs. apply sumZ_le.
  pose proof (Forall_codes_threads _ codes sched Hn) as H1.
  pose proof (Forall_codes_threads _ codes sched Hc) as H2.
  rewrite List.Forall_forall in *. intros th Hth.
  apply credited_received_le_sent; auto.
Qed.

Lemma console_reachable codes sched line :
  In line (console (run sched (init_machine codes))) ->
  exists sched', line = globals (run sched' (init_machine codes)).
Proof.
  induction sched as [|t sched IH] using rev_ind; [simpl; tauto|].
  rewrite run_app. cbn [run].
  destruct (step t (run sched (init_machine codes))) as [m'|] eqn:Hs; [|exact IH].
  intros Hl.
  assert (Hc : console m' = console (run sched (init_machine codes)) \/
               console m' = console (run sched (init_machine codes))
                              ++ [globals (run sched (init_machine codes))]).
  { clear -Hs. unfold step in Hs.
    destruct (threads _ !! t) as [th|]; [|discriminate].
    destruct (code th !! ip th) as [o|]; [|discriminate].
    destruct o, (pos th); try discriminate;
      try (destruct (lock _); [discriminate|]);
      injection Hs as <-; simpl; auto. }
  destruct Hc as [Hc|Hc]; rewrite Hc in Hl; [exact (IH Hl)|].
  apply in_app_or in Hl. destruct Hl as [Hl|[<-|[]]]; [exact (IH Hl)|].
  exists sched. reflexivity.
Qed.

(** X16. In a burst run the acknowledgments never run ahead of the
    messages: under every schedule, at every instant, and even in the
    middle of an update, [total_received <= total_sent]; and no progress
    line shows more acknowledgments than messages sent. *)
Theorem X16_received_le_sent_always (E : env) (envs : nat -> env) (mon : env)
    (fuel : nat) (cfg : Config) (sched : list nat) :
  let m := run sched (run_machine envs mon fuel (thread_trace (run_load_test E cfg))) in
  total_received (globals m) <= total_sent (globals m) /\
  (forall line, In line (console m) -> total_received line <= total_sent line).
Proof.
  cbn zeta. unfold run_machine.
  set (codes := map trace_ops
                  (run_threads envs mon fuel (thread_trace (run_load_test E cfg)))).
  assert (Hn : nonneg_codes codes).
  { apply run_threads_nonneg, thread_trace_silent, run_load_test_never_negative. }
  assert (Hc : Forall (acks_covered 0) codes).
  { apply run_threads_acks; apply thread_trace_silent.
    - apply run_load_test_never_negative.
    - apply run_load_test_no_received. }
  split; [apply received_le_sent_reachable; assumption|].
  intros line Hl. destruct (console_reachable codes sched line Hl) as [sched' ->].
  apply received_le_sent_reachable; assumption.
Qed.

(** ** Failures in a sustained run *)

Lemma run_sustained_no_update E fuel cfg d :
  silent is_update (run_sustained_load_test E fuel cfg d).
Proof. unfold_program. silence_all. Qed.

Lemma sustained_threads_total envs mon fuel f (main : list event) :
  f = F_failed_send \/ f = F_failed_conn ->
  count_ev is_foreign_spawn main = 0%nat ->
  0 <= grand_total f (map trace_ops (omap (spawned envs mon fuel) main))
    <= Z.of_nat (count_ev is_spawn main).
Proof.
  intros Hf. unfold grand_total.
  induction main as [|e main IH]; [simpl; lia|].
  intros Hc. cbn [count_ev] in Hc.
  destruct (is_foreign_spawn e) eqn:He; [discriminate|]. specialize (IH Hc).
  rewrite spawned_total_cons. cbn [count_ev].
  destruct e as [| | | | | | | | | | | |tg i a| | | |];
    try (cbn [spawned is_spawn]; lia).
  destruct tg; try discriminate.
  cbn [spawned is_spawn].
  pose proof (sustained_worker_accounts (envs i) fuel i a) as (_ & H2 & H3 & _).
  cbn zeta in H2, H3. destruct Hf as [-> | ->]; lia.
Qed.

(** X17. In a sustained run a worker stops at its first failed write and
    connects once, so the failures are bounded by the number of clients:
    under every schedule, at every instant, [failed_sends] and
    [failed_connections] each lie between 0 and [NUM_CLIENTS] (0 when that
    number is negative). *)
Theorem X17_sustained_failures_bounded (E : env) (envs : nat -> env) (mon : env)
    (fuel fuel' : nat) (cfg : Config) (d : Z) (sched : list nat) :
  let m := run sched (run_machine envs mon fuel
                        (thread_trace (run_sustained_load_test E fuel' cfg d))) in
  0 <= failed_sends (globals m) <= Z.max 0 (NUM_CLIENTS cfg) /\
  0 <= failed_connections (globals m) <= Z.max 0 (NUM_CLIENTS cfg).
Proof.
  cbn zeta. unfold run_machine.
  set (main := thread_trace (run_sustained_load_test E fuel' cfg d)).
  set (codes := map trace_ops (run_threads envs mon fuel main)).
  assert (Hn : nonneg_codes codes).
  { apply run_threads_nonneg, thread_trace_silent, run_sustained_never_negative. }
  assert (Hg : forall f, f = F_failed_send \/ f = F_failed_conn ->
                         grand_total f codes <= Z.max 0 (NUM_CLIENTS cfg)).
  { intros f Hf. unfold codes, run_threads, main. cbn [map].
    change (grand_total f (?c :: ?cs)) with (code_total f c + grand_total f cs).
    rewrite (no_update_total f _
               (thread_trace_silent _ _ (run_sustained_no_update E fuel' cfg d))).
    pose proof (sustained_threads_total envs mon fuel f _ Hf
                  (thread_trace_silent _ _ (run_sustained_no_foreign_spawn E fuel' cfg d)))
      as Hb.
    rewrite sustained_controller_spawns in Hb. lia. }
  pose proof (counters_bounded codes sched F_failed_send Hn) as H1.
  pose proof (counters_bounded codes sched F_failed_conn Hn) as H2.
  pose proof (Hg F_failed_send (or_introl eq_refl)).
  pose proof (Hg F_failed_conn (or_intror eq_refl)).
  cbn [get_field] in H1, H2. lia.
Qed.

(** ** Refused connections in a burst run *)

Lemma worker_failed_conn_total envs n i :
  worker_total envs n F_failed_conn i = if refused (envs i) then 1 else 0.
Proof.
  unfold worker_total, refused, thread_trace.
  destruct (env_socket (envs i)) as [[]|e1] eqn:Hs.
  - destruct (env_connect (envs i)) as [[]|e2] eqn:Hc.
    + assert (Hcon : connected (envs i)) by (split; assumption).
      destruct (client_worker_summary (envs i) i n) as (r & _ & Hp & _ & _ & _ & Hf & _).
      unfold thread_trace in Hf, Hp. rewrite (Hf F_failed_conn).
      rewrite (client_worker_connected (envs i) i n w0 Hcon) in Hp. cbn [fst trace] in Hp.
      rewrite published_app, after_loop_published in Hp.
      destruct (env_close (envs i)) as [[]|e]; cbn in Hp; injection Hp as <-; reflexivity.
    + rewrite (client_worker_no_connection (envs i) i n w0 e2 Hs Hc). reflexivity.
  - rewrite (client_worker_no_socket (envs i) i n w0 e1 Hs). reflexivity.
Qed.

(** X18. In a burst run whose connectivity test succeeded, once the
    workers have made all their calls, [failed_connections] is the number
    of clients whose connection was refused: each is counted once, and a
    client whose [socket.socket()] failed is not counted. *)
Theorem X18_refused_connections_counted (E : env) (envs : nat -> env) (mon : env)
    (fuel : nat) (cfg : Config) (sched : list nat) :
  probe_ok E ->
  let m := run sched (run_machine envs mon fuel (thread_trace (run_load_test E cfg))) in
  joined m = true ->
  failed_connections (globals m) = count_refused envs (range (NUM_CLIENTS cfg)).
Proof.
  intros Hok m Hj.
  pose proof (run_machine_totals envs mon fuel _ sched F_failed_conn Hj) as Ht.
  cbn [get_field] in Ht. unfold m. rewrite Ht, run_load_test_trace, burst_grand_total.
  destruct (probe_ok_dec E) as [_|Hn]; [|contradiction].
  unfold count_refused. apply sumZ_ext. intros i _. apply worker_failed_conn_total.
Qed.

(** X18 holds of a run of two clients of which the second is refused. *)
Lemma X18_refused_connections_counted_witness :
  failed_connections
    (globals (run (replicate 50 1%nat ++ replicate 20 2%nat)
                (run_machine (fun i => match i with O => env_server_up | _ => env_server_down end)
                   env_server_up 2
                   (thread_trace (run_load_test env_server_up (mkConfig 5 2 (5 / 2)))))))
  = 1.
Proof.
  refine (X18_refused_connections_counted env_server_up
            (fun i => match i with O => env_server_up | _ => env_server_down end)
            env_server_up 2 (mkConfig 5 2 (5 / 2))
            (replicate 50 1%nat ++ replicate 20 2%nat) _ _).
  - repeat split.
  - vm_compute. reflexivity.
Defined.
